(** * AGNI: adaptive gradient noise injection and ensemble combination

    A shallow embedding of the numerical core of the repository:

    - [agni_effective_step_sizes.py]: the online (Welford) variance of the
      gradient snapshots, the noise injection applied at an accumulation
      boundary, the effective-step-size record and the loop that drives them;
    - [run_glue_baselines2.py]: the N-member [EnsembleModel], the
      [AdaBoostCombiner], [compute_with_retry] and the optimizer-step
      condition of the training loop of [main].

    Floating-point numbers are idealised: a float is a real number or NaN.
    Rounding, infinities and signed zeros are not modelled; NaN is kept
    because [torch.sqrt] leaves the reals on a negative argument. *)

From Stdlib Require Import String Ascii DecimalString.
From Stdlib Require Import Reals Lra Lia ZArith Bool Arith List.
Import ListNotations.

Open Scope string_scope.
Open Scope list_scope.
Open Scope R_scope.

(** ** Python exceptions and fallible computations *)

Module Py.

Inductive exn_class : Type :=
| ValueError
| TypeError
| RuntimeError
| IndexError
| ZeroDivisionError
| NameError
| Exception_.

Record exn : Type := mk_exn { cls : exn_class; msg : string }.

Inductive result (A : Type) : Type :=
| Ok (a : A)
| Raise (e : exn).

Arguments Ok {A} a.
Arguments Raise {A} e.

Definition bind {A B : Type} (c : result A) (k : A -> result B) : result B :=
  match c with
  | Ok a => k a
  | Raise e => Raise e
  end.

Definition raise {A : Type} (c : exn_class) (m : string) : result A :=
  Raise (mk_exn c m).

End Py.

Import Py.

Notation "x <- c ;; k" := (Py.bind c (fun x => k))
  (at level 61, c at next level, right associativity).
Notation "' p <- c ;; k" := (Py.bind c (fun x => let 'p := x in k))
  (at level 61, p pattern, c at next level, right associativity).

(** [for x in xs: s = body(s, x)], stopping at the first exception. *)
Fixpoint for_each {S A : Type} (body : S -> A -> result S) (xs : list A) (s : S)
  : result S :=
  match xs with
  | [] => Ok s
  | x :: rest => s' <- body s x ;; for_each body rest s'
  end.

(** ** Floats and flat tensors *)

Inductive scalar : Type :=
| NaN
| Fin (r : R).

Definition lift2 (f : R -> R -> R) (a b : scalar) : scalar :=
  match a, b with
  | Fin x, Fin y => Fin (f x y)
  | _, _ => NaN
  end.

Definition fadd : scalar -> scalar -> scalar := lift2 Rplus.
Definition fsub : scalar -> scalar -> scalar := lift2 Rminus.
Definition fmul : scalar -> scalar -> scalar := lift2 Rmult.

(** Division by a Python integer.  Every division of the modelled code has a
    divisor that is at least 1 ([n] after [n += 1], [n - 1] under [n > 1]). *)
Definition fdivn (a : scalar) (n : nat) : scalar :=
  match a with
  | Fin x => Fin (x / INR n)
  | NaN => NaN
  end.

(** [torch.sqrt]: NaN on a negative argument, no exception. *)
Definition fsqrt (a : scalar) : scalar :=
  match a with
  | Fin x => if Rlt_dec x 0 then NaN else Fin (sqrt x)
  | NaN => NaN
  end.

(** A gradient after [.view(-1)]: a one-dimensional array. *)
Definition tensor : Type := list scalar.

Definition zeros_like (t : tensor) : tensor := map (fun _ => Fin 0) t.

Fixpoint zip_with {A B C : Type} (f : A -> B -> C) (a : list A) (b : list B)
  : list C :=
  match a, b with
  | x :: a', y :: b' => f x y :: zip_with f a' b'
  | _, _ => []
  end.

(** Binary operator on one-dimensional arrays with NumPy broadcasting: equal
    lengths, or one operand of length 1; otherwise ValueError. *)
Definition broadcast {A B C : Type} (f : A -> B -> C) (a : list A) (b : list B)
  : result (list C) :=
  if Nat.eqb (length a) (length b) then Ok (zip_with f a b)
  else match a, b with
       | [x], _ => Ok (map (f x) b)
       | _, [y] => Ok (map (fun x => f x y) a)
       | _, _ => raise ValueError "operands could not be broadcast together"
       end.

(** In-place [a += v]: the broadcast result must have the shape of [a]. *)
Definition iadd (a v : tensor) : result tensor :=
  if Nat.eqb (length v) (length a) then Ok (zip_with fadd a v)
  else match v with
       | [y] => Ok (map (fun x => fadd x y) a)
       | _ => raise ValueError "non-broadcastable output operand"
       end.

Definition fsum (t : tensor) : scalar := fold_left fadd t (Fin 0).

(** [torch.norm(t)] / [t.norm()]: the L2 norm of all entries. *)
Definition norm (t : tensor) : scalar :=
  fsqrt (fsum (map (fun x => fmul x x) t)).

(** Sum of a real-valued array. *)
Definition Rsum (c : list R) : R := fold_right Rplus 0 c.

(** ** agni_effective_step_sizes.py *)

Module Agni.

(** The loop variables of [compute_variance_online]. *)
Record VarianceState : Type := mk_state {
  n : nat;
  mean : option tensor;
  M2 : option tensor
}.

Definition empty_state : VarianceState := mk_state 0 None None.

(** One iteration of [for grad in gradients]. *)
Definition update (st : VarianceState) (grad_np : tensor) : result VarianceState :=
  let mean0 := match mean st with
               | None => zeros_like grad_np
               | Some m => m
               end in
  let M20 := match mean st with
             | None => Some (zeros_like grad_np)
             | Some _ => M2 st
             end in
  let n' := S (n st) in
  delta <- broadcast fsub grad_np mean0 ;;
  mean' <- iadd mean0 (map (fun d => fdivn d n') delta) ;;
  delta2 <- broadcast fsub grad_np mean' ;;
  incr <- broadcast fmul delta delta2 ;;
  match M20 with
  | None => raise TypeError "unsupported operand type(s) for +=: 'NoneType'"
  | Some q =>
      M2' <- iadd q incr ;;
      Ok (mk_state n' (Some mean') (Some M2'))
  end.

(** [variance = M2 / (n - 1) if n > 1 else M2], then [torch.from_numpy],
    which rejects [None] (no gradient was seen). *)
Definition finalize (st : VarianceState) : result tensor :=
  match M2 st with
  | None => raise TypeError "expected np.ndarray (got NoneType)"
  | Some q =>
      Ok (if Nat.ltb 1 (n st) then map (fun v => fdivn v (n st - 1)) q else q)
  end.

Definition compute_variance_online (gradients : list tensor) : result tensor :=
  st <- for_each update gradients empty_state ;;
  finalize st.

(** *** The training loop of [run_experiment]

    Gradient buffers live in a heap: [p.grad.view(-1).detach()] is a view of
    the buffer of [p.grad], so a snapshot is an address, not a copy. *)

Definition heap : Type := list tensor.

Definition read (h : heap) (a : nat) : result tensor :=
  match nth_error h a with
  | Some t => Ok t
  | None => raise RuntimeError "dangling gradient buffer"
  end.

Fixpoint write (h : heap) (a : nat) (t : tensor) : heap :=
  match h, a with
  | [], _ => []
  | _ :: h', O => t :: h'
  | x :: h', S a' => x :: write h' a' t
  end.

(** One model parameter: [p.grad] and its entry [gradient_dict[p]]. *)
Record param : Type := mk_param {
  grad : option nat;
  snapshots : list nat
}.

Record train_state : Type := mk_train {
  buffers : heap;
  parameters : list param;
  effective_step_sizes : list scalar;
  optimizer_steps : nat
}.

(** [for p in model.parameters()] with a loop-carried value. *)
Fixpoint for_params {St : Type}
    (body : nat -> St -> param -> result (St * param))
    (i : nat) (ps : list param) (s : St) : result (St * list param) :=
  match ps with
  | [] => Ok (s, [])
  | p :: rest =>
      '(s1, p') <- body i s p ;;
      '(s2, rest') <- for_params body (S i) rest s1 ;;
      Ok (s2, p' :: rest')
  end.

(** The parameters of [SimpleModel], by number of entries:
    fc1.weight, fc1.bias, fc2.weight, fc2.bias. *)
Definition model_parameters : list nat := [50; 5; 5; 1]%nat.

Definition initial_state : train_state :=
  mk_train [] (map (fun _ => mk_param None []) model_parameters) [] 0.

(** [loss.backward()] on one parameter: autograd stores the first gradient
    in a fresh buffer and adds later ones to the buffer in place.  [d] is
    the gradient of this micro-batch's loss (already divided by
    [gradient_accumulation_steps]). *)
Definition backward_param (d : tensor) (h : heap) (p : param)
  : result (heap * param) :=
  match grad p with
  | None => Ok (h ++ [d], mk_param (Some (length h)) (snapshots p))
  | Some a =>
      g <- read h a ;;
      g' <- iadd g d ;;
      Ok (write h a g', p)
  end.

(** [if p.grad is not None: gradient_dict[p].append(p.grad.view(-1).detach())] *)
Definition collect (p : param) : param :=
  match grad p with
  | None => p
  | Some a => mk_param (grad p) (snapshots p ++ [a])
  end.

Definition view (t : tensor) (numel : nat) : result tensor :=
  if Nat.eqb (length t) numel then Ok t
  else raise RuntimeError "shape is invalid for input of this size".

(** [torch.randn_like(g)]: one draw per entry of [g]. *)
Definition randn_like (draw : nat -> R) (g : tensor) : tensor :=
  map (fun i => Fin (draw i)) (seq 0 (length g)).

(** [torch.sqrt(eta * variance) * grad_magnitude] *)
Definition noise_scale (eta : R) (variance : tensor) (grad_magnitude : scalar)
  : tensor :=
  map (fun v => fmul (fsqrt (fmul (Fin eta) v)) grad_magnitude) variance.

(** Lines 71-79: the perturbed gradient.  The result replaces the contents
    of the buffer of [p.grad]. *)
Definition inject_noise (eta : R) (draw : nat -> R)
    (p_grad gradient_variance : tensor) : result tensor :=
  let grad_magnitude := norm p_grad in
  variance <- view gradient_variance (length p_grad) ;;
  noise <- broadcast fmul (randn_like draw p_grad)
             (noise_scale eta variance grad_magnitude) ;;
  iadd p_grad noise.

Fixpoint read_all (h : heap) (addrs : list nat) : result (list tensor) :=
  match addrs with
  | [] => Ok []
  | a :: rest => t <- read h a ;; ts <- read_all h rest ;; Ok (t :: ts)
  end.

(** Lines 66-79 for one parameter. *)
Definition inject_param (eta : R) (draw : nat -> R) (h : heap) (p : param)
  : result (heap * param) :=
  match grad p with
  | None => Ok (h, p)
  | Some a =>
      snaps <- read_all h (snapshots p) ;;
      gradient_variance <- compute_variance_online snaps ;;
      let p' := mk_param (grad p) [] in
      g <- read h a ;;
      g' <- inject_noise eta draw g gradient_variance ;;
      Ok (write h a g', p')
  end.

(** Line 85 for one parameter:
    [effective_step += (lr * p.grad.norm()).item()]. *)
Definition add_effective_step (lr : R) (h : heap) (effective_step : scalar)
    (p : param) : result scalar :=
  match grad p with
  | None => Ok effective_step
  | Some a =>
      g <- read h a ;;
      Ok (fadd effective_step (fmul (Fin lr) (norm g)))
  end.

(** Lines 81-86: compute the effective step size and append it to the
    record.  The heap and the parameters are read, not written. *)
Definition record_effective_step (lr : R) (s : train_state)
  : result (scalar * train_state) :=
  effective_step <- for_each (add_effective_step lr (buffers s))
                      (parameters s) (Fin 0) ;;
  Ok (effective_step,
      mk_train (buffers s) (parameters s)
        (effective_step_sizes s ++ [effective_step]) (optimizer_steps s)).

(** [optimizer.zero_grad(set_to_none)]: drop the gradient, or zero its
    buffer in place. *)
Definition zero_grad_param (set_to_none : bool) (h : heap) (p : param)
  : result (heap * param) :=
  match grad p with
  | None => Ok (h, p)
  | Some a =>
      if set_to_none then Ok (h, mk_param None (snapshots p))
      else g <- read h a ;; Ok (write h a (zeros_like g), p)
  end.

(** What the loop takes from its environment: the learning rate of the
    optimizer, the default of [zero_grad], the gradient that [backward]
    computes for micro-batch [epoch] and parameter [i], and the normal
    draws for the noise of parameter [i] at micro-batch [epoch]. *)
Record environment : Type := mk_env {
  lr : R;
  set_to_none : bool;
  dloss : nat -> nat -> tensor;
  randn : nat -> nat -> nat -> R
}.

(** One iteration of [for epoch in range(num_epochs)].  The optimizer step
    itself changes the weights only; it is counted in [optimizer_steps]. *)
Definition iteration (env : environment) (use_noise_injection : bool)
    (gradient_accumulation_steps : Z) (eta : R)
    (s : train_state) (epoch : nat) : result train_state :=
  '(h1, ps1) <- for_params (fun i => backward_param (dloss env epoch i))
                  0 (parameters s) (buffers s) ;;
  let ps2 := map collect ps1 in
  if Z.eqb gradient_accumulation_steps 0
  then raise ZeroDivisionError "integer modulo by zero"
  else if Z.eqb (Z.of_nat (epoch + 1) mod gradient_accumulation_steps) 0
  then
    '(h3, ps3) <- (if use_noise_injection
                   then for_params (fun i => inject_param eta (randn env epoch i))
                          0 ps2 h1
                   else Ok (h1, ps2)) ;;
    '(_, s4) <- record_effective_step (lr env)
                  (mk_train h3 ps3 (effective_step_sizes s)
                     (optimizer_steps s)) ;;
    '(h5, ps5) <- for_params (fun _ => zero_grad_param (set_to_none env))
                    0 (parameters s4) (buffers s4) ;;
    Ok (mk_train h5 ps5 (effective_step_sizes s4) (S (optimizer_steps s4)))
  else Ok (mk_train h1 ps2 (effective_step_sizes s) (optimizer_steps s)).

(** The state after the first [num_epochs] micro-batches. *)
Definition run (env : environment) (use_noise_injection : bool)
    (num_epochs : nat) (gradient_accumulation_steps : Z) (eta : R)
  : result train_state :=
  for_each (iteration env use_noise_injection gradient_accumulation_steps eta)
    (seq 0 num_epochs) initial_state.

Definition run_experiment (env : environment) (use_noise_injection : bool)
    (num_epochs : nat) (gradient_accumulation_steps : Z) (eta : R)
  : result (list scalar) :=
  s <- run env use_noise_injection num_epochs gradient_accumulation_steps eta ;;
  Ok (effective_step_sizes s).

End Agni.

(** ** run_glue_baselines2.py

    Logits are real-valued tensors of shape [batch, num_labels]. *)

Module Glue.

Definition matrix : Type := list (list R).

Fixpoint mapM {A B : Type} (f : A -> result B) (l : list A) : result (list B) :=
  match l with
  | [] => Ok []
  | x :: rest => y <- f x ;; ys <- mapM f rest ;; Ok (y :: ys)
  end.

(** torch broadcasts by the rule of [broadcast], and reports sizes that do
    not fit as a RuntimeError (the sizes and the dimension, which its
    message names, are left out). *)
Definition size_error {A : Type} (r : result A) : result A :=
  match r with
  | Ok a => Ok a
  | Raise _ =>
      raise RuntimeError "The size of tensor a must match the size of tensor b"
  end.

(** Entrywise operator on two-dimensional torch tensors with broadcasting,
    each dimension as in [broadcast]. *)
Definition broadcast2 (f : R -> R -> R) (a b : matrix) : result matrix :=
  rows <- size_error (broadcast pair a b) ;;
  mapM (fun rr => size_error (broadcast f (fst rr) (snd rr))) rows.

(** [logits * w] for a zero-dimensional [w]. *)
Definition scale (m : matrix) (w : R) : matrix := map (map (fun x => x * w)) m.

Definition index {A : Type} (l : list A) (i : nat) : result A :=
  match nth_error l i with
  | Some x => Ok x
  | None => raise IndexError "index out of range"
  end.

Definition same_shape (a b : matrix) : bool :=
  Nat.eqb (length a) (length b)
  && forallb (fun rr => Nat.eqb (length (fst rr)) (length (snd rr)))
       (combine a b).

(** [torch.sum(torch.stack(outputs), dim=0)]: [stack] wants a non-empty list
    of tensors of one shape. *)
Definition add_stacked (acc t : matrix) : result matrix :=
  if same_shape acc t then Ok (zip_with (zip_with Rplus) acc t)
  else raise RuntimeError "stack expects each tensor to be equal size".

Definition stack_sum (outputs : list matrix) : result matrix :=
  match outputs with
  | [] => raise RuntimeError "stack expects a non-empty TensorList"
  | t :: rest => for_each add_stacked rest t
  end.

Fixpoint chunks (rows cols : nat) (l : list R) : matrix :=
  match rows with
  | O => []
  | S r => firstn cols l :: chunks r cols (skipn cols l)
  end.

(** [t.view(-1, num_labels)] *)
Definition view_rows (t : matrix) (num_labels : Z) : result matrix :=
  let flat := concat t in
  if (num_labels <=? 0)%Z
  then raise RuntimeError "shape is invalid for input of this size"
  else
    let cols := Z.to_nat num_labels in
    if Nat.eqb (length flat mod cols) 0
    then Ok (chunks (length flat / cols) cols flat)
    else raise RuntimeError "shape is invalid for input of this size".

(** [-log_softmax(row)[y]] *)
Definition nll_row (row : list R) (y : nat) : R :=
  - (nth y row 0 - ln (Rsum (map exp row))).

(** One example of [CrossEntropyLoss()]: a target equal to
    [ignore_index = -100] is skipped, a target outside [0, C) is an error. *)
Definition ce_example (row : list R) (y : Z) : result (option R) :=
  if (y =? -100)%Z then Ok None
  else if ((0 <=? y) && (y <? Z.of_nat (length row)))%Z
       then Ok (Some (nll_row row (Z.to_nat y)))
       else raise IndexError "Target is out of bounds".

Fixpoint keep_some (l : list (option R)) : list R :=
  match l with
  | [] => []
  | Some x :: rest => x :: keep_some rest
  | None :: rest => keep_some rest
  end.

(** [CrossEntropyLoss()(input, target)] with class-index targets and the
    default mean reduction over the targets that are not ignored. *)
Definition CrossEntropyLoss (input : matrix) (target : list Z) : result scalar :=
  if negb (Nat.eqb (length input) (length target))
  then raise ValueError "Expected input batch_size to match target batch_size"
  else
    terms <- mapM (fun rt => ce_example (fst rt) (snd rt)) (combine input target) ;;
    let kept := keep_some terms in
    match kept with
    | [] => Ok NaN
    | _ => Ok (Fin (Rsum kept / INR (length kept)))
    end.

Inductive problem_type : Type :=
| regression
| single_label_classification
| multi_label_classification
| other_problem_type (name : string).

(** [batch['labels']]: an integer tensor of dtype [torch.long] ([IntLabels])
    or [torch.int] ([Int32Labels]), read flat, as [labels.view(-1)] does,
    or a floating-point one. *)
Inductive labels : Type :=
| IntLabels (l : list Z)
| Int32Labels (l : list Z)
| FloatLabels (m : matrix).

(** [labels.dtype == torch.long or labels.dtype == torch.int] *)
Definition is_integer (l : labels) : bool :=
  match l with
  | IntLabels _ => true
  | Int32Labels _ => true
  | FloatLabels _ => false
  end.

Section Ensemble.

(** What a member model returns besides its logits. *)
Variable attention : Type.

(** The library losses of the regression and multi-label branches:
    [MSELoss()(x.squeeze(), y.squeeze())], [MSELoss()(x, y)] and
    [BCEWithLogitsLoss()(x, y)]. *)
Variable MSELoss_squeezed MSELoss BCEWithLogitsLoss
  : matrix -> labels -> result scalar.

Record member_output : Type := mk_output {
  logits : matrix;
  attentions : attention
}.

Record EnsembleModel : Type := mk_ensemble {
  weights : list R;
  num_labels : Z;
  config_problem_type : option problem_type
}.

(** [EnsembleModel(models, config)]:
    [weights = torch.ones(num_models) / num_models]. *)
Definition EnsembleModel_init (num_models : nat) (config_num_labels : Z)
    (config_pt : option problem_type) : EnsembleModel :=
  mk_ensemble (repeat (1 / INR num_models) num_models) config_num_labels
    config_pt.

Record forward_output : Type := mk_forward {
  loss : option scalar;
  combined_logits : matrix;
  all_attentions : list attention
}.

(** The loop over the members: [output.logits * self.weights[index]]. *)
Fixpoint weighted_outputs (self : EnsembleModel) (index0 : nat)
    (members : list member_output) : result (list matrix) :=
  match members with
  | [] => Ok []
  | output :: rest =>
      w <- index (weights self) index0 ;;
      outputs <- weighted_outputs self (S index0) rest ;;
      Ok (scale (logits output) w :: outputs)
  end.

Definition infer_problem_type (self : EnsembleModel) (l : labels)
  : problem_type :=
  match config_problem_type self with
  | Some pt => pt
  | None =>
      if (num_labels self =? 1)%Z then regression
      else if (1 <? num_labels self)%Z && is_integer l
           then single_label_classification
           else multi_label_classification
  end.

(** [EnsembleModel.forward]: the members have already been run on the
    batch.  Returns the model with the cached problem type and the output
    dictionary. *)
Definition forward (self : EnsembleModel) (members : list member_output)
    (batch_labels : option labels) : result (EnsembleModel * forward_output) :=
  outputs <- weighted_outputs self 0 members ;;
  combined <- stack_sum outputs ;;
  let atts := map attentions members in
  match batch_labels with
  | None => Ok (self, mk_forward None combined atts)
  | Some l =>
      let pt := infer_problem_type self l in
      let self' := mk_ensemble (weights self) (num_labels self) (Some pt) in
      match pt with
      | regression =>
          v <- (if (num_labels self =? 1)%Z
                then MSELoss_squeezed combined l
                else MSELoss combined l) ;;
          Ok (self', mk_forward (Some v) combined atts)
      | single_label_classification =>
          input <- view_rows combined (num_labels self) ;;
          match l with
          | IntLabels target =>
              v <- CrossEntropyLoss input target ;;
              Ok (self', mk_forward (Some v) combined atts)
          | Int32Labels target =>
              (* the batch sizes are compared first; the loss itself wants
                 [torch.long] targets *)
              if negb (Nat.eqb (length input) (length target))
              then raise ValueError
                     "Expected input batch_size to match target batch_size"
              else raise RuntimeError "expected scalar type Long but found Int"
          | FloatLabels _ =>
              raise RuntimeError "expected class indices as target"
          end
      | multi_label_classification =>
          v <- BCEWithLogitsLoss combined l ;;
          Ok (self', mk_forward (Some v) combined atts)
      | other_problem_type _ => Ok (self', mk_forward None combined atts)
      end
  end.

End Ensemble.

(** *** WeightedSum *)

Record WeightedSum : Type := mk_weighted_sum { ws_weights : list R }.

(** [self.weights = nn.Parameter(torch.tensor([0.5, 0.5]))] *)
Definition WeightedSum_init : WeightedSum := mk_weighted_sum [1 / 2; 1 / 2].

Definition WeightedSum_forward (self : WeightedSum) (logits1 logits2 : matrix)
  : result matrix :=
  w0 <- index (ws_weights self) 0 ;;
  w1 <- index (ws_weights self) 1 ;;
  broadcast2 Rplus (scale logits1 w0) (scale logits2 w1).

(** *** AdaBoostCombiner *)

Record AdaBoostCombiner : Type := mk_adaboost { alpha : list R }.

(** [self.alpha = nn.Parameter(torch.zeros(2))] *)
Definition AdaBoostCombiner_init : AdaBoostCombiner := mk_adaboost [0; 0].

Definition AdaBoostCombiner_forward (self : AdaBoostCombiner)
    (logits1 logits2 : matrix) : result matrix :=
  let weights := map exp (alpha self) in
  w0 <- index weights 0 ;;
  w1 <- index weights 1 ;;
  combined_logits <- broadcast2 Rplus (scale logits1 w0) (scale logits2 w1) ;;
  Ok (map (map (fun x => x / Rsum weights)) combined_logits).

(** *** compute_with_retry *)

(** The result of one call of [metric.compute()]. *)
Inductive outcome (A : Type) : Type :=
| Returns (a : A)
| Throws (e : exn).

Arguments Returns {A} a.
Arguments Throws {A} e.

Fixpoint starts_with (prefix s : string) : bool :=
  match prefix, s with
  | EmptyString, _ => true
  | String c p', String d s' => Ascii.eqb c d && starts_with p' s'
  | String _ _, EmptyString => false
  end.

(** [needle in s] *)
Fixpoint contains (needle s : string) : bool :=
  starts_with needle s
  || match s with
     | EmptyString => false
     | String _ s' => contains needle s'
     end.

Definition is_ValueError (e : exn) : bool :=
  match cls e with
  | ValueError => true
  | _ => false
  end.

Definition str_of_nat (k : nat) : string :=
  NilEmpty.string_of_uint (Nat.to_uint k).

(** [time.sleep(wait_time)]: [run_glue_baselines2.py] never imports [time]
    and binds the name nowhere, so looking it up raises NameError before
    anything sleeps.  [slept] is the list of the sleeps made so far. *)
Definition sleep (wait_time : R) (slept : list R) : result (list R) :=
  raise NameError "name 'time' is not defined".

(** The loop [for attempt in range(max_retries)] over the remaining
    attempts.  [compute k] is the outcome of the call of attempt [k],
    [uniform k] the draw of [random.uniform(0, 1)] of that attempt; the
    second component is the list of the sleeps made so far.  An exception
    of [time.sleep] leaves the loop from inside the handler. *)
Fixpoint retry_loop {A : Type} (compute : nat -> outcome A)
    (uniform : nat -> R) (max_retries : nat) (initial_wait : R)
    (attempts : list nat) (slept : list R) : result A * list R :=
  match attempts with
  | [] =>
      (raise Exception_
         ("Failed to compute metric after " ++ str_of_nat max_retries
          ++ " attempts"),
       slept)
  | attempt :: rest =>
      match compute attempt with
      | Returns a => (Ok a, slept)
      | Throws e =>
          if is_ValueError e then
            if contains "Please specify an experiment_id" (msg e) then
              let wait_time := initial_wait * 2 ^ attempt + uniform attempt in
              match sleep wait_time slept with
              | Ok slept' =>
                  retry_loop compute uniform max_retries initial_wait rest slept'
              | Raise e' => (Raise e', slept)
              end
            else (Raise e, slept)
          else (Raise e, slept)
      end
  end.

Definition compute_with_retry {A : Type} (compute : nat -> outcome A)
    (uniform : nat -> R) (max_retries : nat) (initial_wait : R)
  : result A * list R :=
  retry_loop compute uniform max_retries initial_wait (seq 0 max_retries) [].

(** *** The optimizer-step condition of [main] *)

(** [accumulated]: backward passes since the last [optimizer.zero_grad()];
    [optimizer_log]: for every optimizer step, the batch index [step] and
    the number of micro-batches it consumed. *)
Record loop_state : Type := mk_loop {
  accumulated : nat;
  completed_steps : Z;
  optimizer_log : list (nat * nat)
}.

(** [math.ceil(len(train_dataloader) / args.gradient_accumulation_steps)]:
    the optimizer steps that [main] plans for one epoch. *)
Definition num_update_steps_per_epoch (len_train : nat)
    (gradient_accumulation_steps : Z) : result Z :=
  if (gradient_accumulation_steps =? 0)%Z
  then raise ZeroDivisionError "division by zero"
  else Ok (- ((- Z.of_nat len_train) / gradient_accumulation_steps))%Z.

(** The batches of one epoch, [for step, batch in enumerate(...)], from the
    backward pass to the [break].  [len_train] is [len(train_dataloader)];
    [checkpointing_steps] is [Some c] when the argument is a number, and
    then [completed_steps % c] is evaluated (saving the state is not
    modelled). *)
Fixpoint train_batches (gradient_accumulation_steps : Z) (len_train : nat)
    (max_train_steps : Z) (checkpointing_steps : option Z)
    (steps : list nat) (s : loop_state) : result loop_state :=
  match steps with
  | [] => Ok s
  | step :: rest =>
      let acc := S (accumulated s) in
      if (gradient_accumulation_steps =? 0)%Z
      then raise ZeroDivisionError "integer modulo by zero"
      else
        let s1 :=
          if ((Z.of_nat step mod gradient_accumulation_steps =? 0)
              || (Z.of_nat step =? Z.of_nat len_train - 1))%Z
          then mk_loop 0 (completed_steps s + 1)
                 (optimizer_log s ++ [(step, acc)])
          else mk_loop acc (completed_steps s) (optimizer_log s) in
        if match checkpointing_steps with
           | Some c => (c =? 0)%Z
           | None => false
           end
        then raise ZeroDivisionError "integer modulo by zero"
        else if (max_train_steps <=? completed_steps s1)%Z then Ok s1
             else train_batches gradient_accumulation_steps len_train
                    max_train_steps checkpointing_steps rest s1
  end.

(** One epoch over the whole [train_dataloader], not resumed. *)
Definition train_epoch (gradient_accumulation_steps : Z) (len_train : nat)
    (max_train_steps : Z) (checkpointing_steps : option Z) (s : loop_state)
  : result loop_state :=
  train_batches gradient_accumulation_steps len_train max_train_steps
    checkpointing_steps (seq 0 len_train) s.

(** *** soft_voting *)

(** [softmax] over the label axis of one example. *)
Definition softmax_row (row : list R) : list R :=
  map (fun x => exp x / Rsum (map exp row)) row.

(** [nn.functional.softmax(logits, dim=1)] *)
Definition softmax (logits : matrix) : matrix := map softmax_row logits.

Definition soft_voting (logits1 logits2 : matrix) : result matrix :=
  total <- broadcast2 Rplus (softmax logits1) (softmax logits2) ;;
  Ok (map (map (fun x => x / 2)) total).

(** *** GatedMixtureOfExperts *)

(** [nn.Linear(in_features, out_features)]: [weight] has one row of
    [in_features] entries per output, [bias] one entry per output. *)
Record Linear : Type := mk_linear {
  in_features : nat;
  weight : matrix;
  bias : list R
}.

Definition dot (a b : list R) : R := Rsum (zip_with Rmult a b).

(** [x @ weight.T + bias] on every row [x] of the input. *)
Definition Linear_forward (layer : Linear) (input : matrix) : result matrix :=
  mapM (fun x =>
          if Nat.eqb (length x) (in_features layer)
          then Ok (zip_with (fun w b => dot x w + b) (weight layer) (bias layer))
          else raise RuntimeError "mat1 and mat2 shapes cannot be multiplied")
    input.

(** [torch.cat([a, b], dim=1)] *)
Definition cat_columns (a b : matrix) : result matrix :=
  if Nat.eqb (length a) (length b) then Ok (zip_with (@app R) a b)
  else raise RuntimeError "Sizes of tensors must match except in dimension 1".

(** [m[:, lo:hi]] *)
Definition columns (m : matrix) (lo hi : nat) : matrix :=
  map (fun row => firstn (hi - lo) (skipn lo row)) m.

(** [self.gate = nn.Sequential(nn.Linear(input_dim, 2), nn.Softmax(dim=1))] *)
Record GatedMixtureOfExperts : Type := mk_moe { gate : Linear }.

Definition GatedMixtureOfExperts_forward (self : GatedMixtureOfExperts)
    (logits1 logits2 : matrix) : result matrix :=
  both <- cat_columns logits1 logits2 ;;
  scores <- Linear_forward (gate self) both ;;
  let gates := softmax scores in
  part1 <- broadcast2 Rmult logits1 (columns gates 0 1) ;;
  part2 <- broadcast2 Rmult logits2 (columns gates 1 2) ;;
  broadcast2 Rplus part1 part2.

(** *** get_gradient_norm *)

(** [p.grad] of every parameter of the model, [None] when it has none.
    [param_norm.item() ** 2] is a product and [total_norm ** 0.5] a square
    root of a sum of squares. *)
Definition get_gradient_norm (grads : list (option tensor)) : scalar :=
  let total_norm :=
    fold_left (fun total g =>
                 match g with
                 | None => total
                 | Some t => fadd total (fmul (norm t) (norm t))
                 end)
      grads (Fin 0) in
  fsqrt total_norm.

(** *** The plan of the training steps and the resumption of a run *)

(** [math.ceil(a / b)] on integers. *)
Definition ceil_div (a b : Z) : result Z :=
  if (b =? 0)%Z then raise ZeroDivisionError "division by zero"
  else Ok (- ((- a) / b))%Z.

(** Lines 753-777: [len_before] and [len_after] are [len(train_dataloader)]
    before and after [accelerator.prepare].  Returns [args.max_train_steps]
    and [args.num_train_epochs]. *)
Definition plan_training (len_before len_after : nat)
    (gradient_accumulation_steps : Z) (max_train_steps : option Z)
    (num_train_epochs : Z) : result (Z * Z) :=
  per_epoch0 <- ceil_div (Z.of_nat len_before) gradient_accumulation_steps ;;
  let '(max0, overrode_max_train_steps) :=
    match max_train_steps with
    | None => ((num_train_epochs * per_epoch0)%Z, true)
    | Some m => (m, false)
    end in
  per_epoch <- ceil_div (Z.of_nat len_after) gradient_accumulation_steps ;;
  let max1 := if overrode_max_train_steps
              then (num_train_epochs * per_epoch)%Z else max0 in
  epochs <- ceil_div max1 per_epoch ;;
  Ok (max1, epochs).

(** The name of the checkpoint folder, read: [epoch_{i}] or [step_{i}]. *)
Inductive checkpoint : Type :=
| epoch_checkpoint (i : Z)
| step_checkpoint (i : Z).

Record resume_point : Type := mk_resume {
  starting_epoch : Z;
  resume_step : option Z;
  resumed_completed_steps : Z
}.

(** Lines 826-835. *)
Definition resume_from (c : checkpoint) (gradient_accumulation_steps : Z)
    (len_train : Z) (per_epoch : Z) : result resume_point :=
  match c with
  | epoch_checkpoint i =>
      Ok (mk_resume (i + 1) None ((i + 1) * per_epoch))%Z
  | step_checkpoint i =>
      let resume_step0 := (i * gradient_accumulation_steps)%Z in
      if (len_train =? 0)%Z
      then raise ZeroDivisionError "integer division or modulo by zero"
      else
        let starting := (resume_step0 / len_train)%Z in
        if (gradient_accumulation_steps =? 0)%Z
        then raise ZeroDivisionError "integer division or modulo by zero"
        else
          Ok (mk_resume starting
                (Some (resume_step0 - starting * len_train)%Z)
                (resume_step0 / gradient_accumulation_steps)%Z)
  end.

End Glue.

(** ** fix_jsons.py and rename_broken_jsons.py *)

Module Jsons.

(** [s.endswith(suffix)] *)
Fixpoint ends_with (suffix s : string) : bool :=
  (String.eqb suffix s)
  || match s with
     | EmptyString => false
     | String _ s' => ends_with suffix s'
     end.

(** [s.count(c)] for a single character. *)
Fixpoint count (c : ascii) (s : string) : nat :=
  match s with
  | EmptyString => O
  | String d s' => ((if Ascii.eqb c d then 1 else 0) + count c s')%nat
  end.

(** [s.rstrip(c)] for a single character: drop every trailing [c]. *)
Fixpoint rstrip (c : ascii) (s : string) : string :=
  match s with
  | EmptyString => EmptyString
  | String d s' =>
      match rstrip c s' with
      | EmptyString => if Ascii.eqb c d then EmptyString else String d EmptyString
      | rest => String d rest
      end
  end.

(** Both scripts look at the same files:
    [file.endswith('.json') and not file.startswith('broken_')]. *)
Definition selected (file : string) : bool :=
  ends_with ".json" file && negb (Glue.starts_with "broken_" file).

(** The name that [rename_broken_jsons] gives to a file and that
    [fix_jsons] gives to its backup. *)
Definition broken_name (file : string) : string := "broken_" ++ file.

(** Lines 19-28 of [fix_jsons.py], on the stripped content of a file whose
    loading failed with "Extra data": [None] when the file is left alone,
    the content written back otherwise. *)
Definition fixed_content (content : string) : option string :=
  if ends_with "}" content
     && Nat.ltb (count "{"%char content) (count "}"%char content)
  then Some (rstrip "}"%char content)
  else None.

End Jsons.

(** ** Specifications and invariants *)

(** Real-valued samples as tensors. *)
Definition of_reals (x : list R) : tensor := map Fin x.

(** Entry [j] of every sample. *)
Definition column (j : nat) (samples : list (list R)) : list R :=
  map (fun x => nth j x 0) samples.


(** *** The loop invariant of [compute_variance_online] *)

(** After the samples [seen], entry [j] of [mean] is their mean and entry
    [j] of [M2] is the sum of squares minus [n * mean^2], which is not
    negative. *)
Definition entry_inv (seen : list (list R)) (m q : tensor) (j : nat) : Prop :=
  exists mu s2 : R,
    nth j m NaN = Fin mu /\ nth j q NaN = Fin s2 /\
    INR (length seen) * mu = Rsum (column j seen) /\
    s2 = Rsum (map (fun x => x * x) (column j seen))
         - INR (length seen) * mu * mu /\
    0 <= s2.

Definition welford_inv (d : nat) (seen : list (list R))
    (st : Agni.VarianceState) : Prop :=
  Agni.n st = length seen /\
  exists m q : tensor,
    Agni.mean st = Some m /\ Agni.M2 st = Some q /\
    length m = d /\ length q = d /\
    forall j, (j < d)%nat -> entry_inv seen m q j.

(** The first iteration allocates zero arrays: the empty state behaves as
    the state that already holds them. *)
Definition zero_state (d : nat) : Agni.VarianceState :=
  Agni.mk_state 0 (Some (repeat (Fin 0) d)) (Some (repeat (Fin 0) d)).

(** States reachable from the empty state by updates with real-valued
    samples of shape [d]. *)
Inductive reachable (d : nat) : Agni.VarianceState -> Prop :=
| reach_empty : reachable d Agni.empty_state
| reach_update st x st' :
    reachable d st -> length x = d ->
    Agni.update st (of_reals x) = Ok st' ->
    reachable d st'.

(** The invariant of a reachable state: either nothing was seen, or the
    state is the Welford state of some non-empty list of samples. *)
Definition state_inv (d : nat) (st : Agni.VarianceState) : Prop :=
  st = Agni.empty_state \/
  exists seen, seen <> [] /\ welford_inv d seen st.

(** *** Noise injection on reals *)

(** The L2 norm of a real-valued tensor. *)
Definition l2_norm (g : list R) : R := sqrt (Rsum (map (fun x => x * x) g)).

(** Entry [j] of the perturbed gradient, on reals. *)
Definition perturbed_entry (eta : R) (draw : nat -> R) (g v : list R) (j : nat)
  : scalar :=
  if Rlt_dec (eta * nth j v 0) 0 then NaN
  else Fin (nth j g 0 + draw j * (sqrt (eta * nth j v 0) * l2_norm g)).

(** *** Member logits *)

(** The arithmetic mean of two logit tensors. *)
Definition mean_logits (logits1 logits2 : Glue.matrix) : Glue.matrix :=
  zip_with (zip_with (fun x y => (x + y) / 2)) logits1 logits2.

(** A tensor of exactly four rows and two columns. *)
Definition shape_4_2 (m : Glue.matrix) : Prop :=
  length m = 4%nat /\ Forall (fun row => length row = 2%nat) m.

(** *** Outcomes of the metric computation *)

(** A metric whose first call fails with a ValueError that names the missing
    experiment id, with any text around the phrase that [compute_with_retry]
    looks for, and whose later calls would do what [later] says. *)
Definition fails_first {A : Type} (pre post : string)
    (later : nat -> Glue.outcome A) (k : nat) : Glue.outcome A :=
  match k with
  | O =>
      Glue.Throws
        (mk_exn ValueError
           (pre ++ "Please specify an experiment_id" ++ post)%string)
  | S k' => later k'
  end.

(** *** Well-formed gradient buffers *)

Definition shape (i : nat) : nat := nth i Agni.model_parameters 0%nat.

(** Address [a] holds a tensor of [d] entries. *)
Definition has_shape (h : Agni.heap) (a d : nat) : Prop :=
  exists t, nth_error h a = Some t /\ length t = d.

(** [h'] keeps every buffer of [h], with its size. *)
Definition extends (h h' : Agni.heap) : Prop :=
  forall a d, has_shape h a d -> has_shape h' a d.

(** The gradient and the snapshots of parameter [i] are buffers of its
    size. *)
Definition wf_param (h : Agni.heap) (i : nat) (p : Agni.param) : Prop :=
  (forall a, Agni.grad p = Some a -> has_shape h a (shape i)) /\
  (forall a, In a (Agni.snapshots p) -> has_shape h a (shape i)).

Fixpoint each_param (P : nat -> Agni.param -> Prop) (i : nat)
    (ps : list Agni.param) : Prop :=
  match ps with
  | [] => True
  | p :: rest => P i p /\ each_param P (S i) rest
  end.

Fixpoint each_pair (Q : nat -> Agni.param -> Agni.param -> Prop) (i : nat)
    (ps ps' : list Agni.param) : Prop :=
  match ps, ps' with
  | [], [] => True
  | p :: rest, p' :: rest' => Q i p p' /\ each_pair Q (S i) rest rest'
  | _, _ => False
  end.

(** *** Accumulation windows *)

(** The gradients that [backward] delivers have the sizes of the
    parameters. *)
Definition well_shaped (env : Agni.environment) : Prop :=
  forall epoch i, (i < length Agni.model_parameters)%nat ->
    length (Agni.dloss env epoch i) = shape i.

Definition run_inv (s : Agni.train_state) : Prop :=
  length (Agni.parameters s) = length Agni.model_parameters /\
  each_param (wf_param (Agni.buffers s)) 0 (Agni.parameters s).

(** Micro-batch [epoch] closes an accumulation window. *)
Definition boundary (G : Z) (epoch : nat) : bool :=
  (Z.of_nat (epoch + 1) mod G =? 0)%Z.

(** The number of windows closed by the first [k] micro-batches. *)
Fixpoint boundaries (G : Z) (k : nat) : nat :=
  match k with
  | O => O
  | S k' => (boundaries G k' + if boundary G k' then 1 else 0)%nat
  end.

Definition grows_by_one (_ : nat) (p p' : Agni.param) : Prop :=
  length (Agni.snapshots p') = S (length (Agni.snapshots p)).

Definition same_snapshots (_ : nat) (p p' : Agni.param) : Prop :=
  Agni.snapshots p' = Agni.snapshots p.

(** *** The effective step size on reals *)

(** The parameters of [s] carry the real-valued gradients [gs], [None]
    standing for a parameter without gradient. *)
Definition gradients_are (s : Agni.train_state) (gs : list (option (list R)))
  : Prop :=
  Forall2 (fun p og =>
             match Agni.grad p, og with
             | None, None => True
             | Some a, Some g =>
                 nth_error (Agni.buffers s) a = Some (of_reals g)
             | _, _ => False
             end)
    (Agni.parameters s) gs.

Fixpoint non_null {A : Type} (l : list (option A)) : list A :=
  match l with
  | [] => []
  | Some x :: rest => x :: non_null rest
  | None :: rest => non_null rest
  end.

(** The sum over the parameters that have a gradient of [lr * norm]. *)
Definition effective_step (rate : R) (gs : list (option (list R))) : R :=
  Rsum (map (fun g => rate * l2_norm g) (non_null gs)).

(** *** Concrete inputs *)

(** An environment for the instances: constant gradients of the sizes of the
    parameters, noise draws 0, learning rate [1e-3], gradients set to
    [None] by [zero_grad]. *)
Definition example_env : Agni.environment :=
  Agni.mk_env (1 / 1000) true
    (fun _ i => repeat (Fin 1) (shape i)) (fun _ _ _ => 0).

(** A metric that fails twice with the transient error, then returns 7. *)
Definition flaky_metric (k : nat) : Glue.outcome nat :=
  if Nat.ltb k 2
  then Glue.Throws
         (mk_exn ValueError
            "Please specify an experiment_id to avoid collision")
  else Glue.Returns 7%nat.

(** *** Snapshots as views of the gradient buffer *)

(** The gradients that [backward] delivers contain no NaN. *)
Definition real_valued (env : Agni.environment) : Prop :=
  forall epoch i, exists x : list R, Agni.dloss env epoch i = of_reals x.

Definition real_heap (h : Agni.heap) : Prop :=
  Forall (fun t => exists x : list R, t = of_reals x) h.

(** Every snapshot of the parameter is a view of its current gradient. *)
Definition aliased (p : Agni.param) : Prop :=
  forall a, In a (Agni.snapshots p) -> Agni.grad p = Some a.

(** Two states with the same buffers, gradients, record and step count:
    they differ in the snapshot lists at most. *)
Definition same_grads (s s' : Agni.train_state) : Prop :=
  Agni.buffers s = Agni.buffers s' /\
  map Agni.grad (Agni.parameters s) = map Agni.grad (Agni.parameters s') /\
  Agni.effective_step_sizes s = Agni.effective_step_sizes s' /\
  Agni.optimizer_steps s = Agni.optimizer_steps s'.

(** *** Mixtures of member logits *)

(** The combination [g * x + (1 - g) * y] of two rows of logits. *)
Definition mix_rows (g : R) (row1 row2 : list R) : list R :=
  zip_with (fun x y => g * x + (1 - g) * y) row1 row2.

(** Every row of the output mixes the rows of the two members with a gate
    strictly between 0 and 1 of its own. *)
Inductive mixed : Glue.matrix -> Glue.matrix -> Glue.matrix -> Prop :=
| mixed_nil : mixed [] [] []
| mixed_cons g row1 row2 logits1 logits2 out :
    0 < g < 1 -> mixed logits1 logits2 out ->
    mixed (row1 :: logits1) (row2 :: logits2)
      (mix_rows g row1 row2 :: out).

(** *** Trailing characters of a file *)

(** The string of [k] copies of the character [c]. *)
Fixpoint copies (k : nat) (c : ascii) : string :=
  match k with
  | O => EmptyString
  | S k' => String c (copies k' c)
  end.

(** * Theorems *)

(** ** Lists, broadcasting and sums *)

Lemma zip_with_length {A B C : Type} (f : A -> B -> C) (a : list A)
    (b : list B) :
  length a = length b -> length (zip_with f a b) = length a.
Proof.
  revert b; induction a as [|x a IH]; intros [|y b] H; simpl in *;
    try discriminate; auto.
Qed.

Lemma broadcast_same {A B C : Type} (f : A -> B -> C) (a : list A)
    (b : list B) :
  length a = length b -> broadcast f a b = Ok (zip_with f a b).
Proof.
  intros H. unfold broadcast. rewrite H, Nat.eqb_refl. reflexivity.
Qed.

Section ListFacts.

Context {A : Type}.

Lemma zip_with_nth (f : A -> A -> A) (a b : list A) (j : nat) (d : A) :
  length a = length b -> (j < length a)%nat ->
  nth j (zip_with f a b) d = f (nth j a d) (nth j b d).
Proof.
  revert b j; induction a as [|x a IH]; intros [|y b] j H Hj; simpl in *;
    try discriminate; try lia.
  destruct j as [|j]; [reflexivity|].
  apply IH; lia.
Qed.

Lemma nth_map_lt (f : A -> A) (l : list A) (j : nat) (d : A) :
  (j < length l)%nat -> nth j (map f l) d = f (nth j l d).
Proof.
  intros Hj. rewrite (nth_indep _ d (f d)) by (rewrite length_map; exact Hj).
  apply map_nth.
Qed.

End ListFacts.

Lemma iadd_same (a v : tensor) :
  length v = length a -> iadd a v = Ok (zip_with fadd a v).
Proof.
  intros H. unfold iadd. rewrite H, Nat.eqb_refl. reflexivity.
Qed.

Lemma nth_of_reals (x : list R) (j : nat) :
  (j < length x)%nat -> nth j (of_reals x) NaN = Fin (nth j x 0).
Proof.
  intros Hj. unfold of_reals.
  rewrite (nth_indep _ NaN (Fin 0)) by (rewrite length_map; exact Hj).
  apply (map_nth Fin).
Qed.

Lemma Rsum_app (a b : list R) : Rsum (a ++ b) = Rsum a + Rsum b.
Proof.
  unfold Rsum. induction a as [|x a IH]; simpl; [lra|]. rewrite IH. lra.
Qed.

Lemma column_app (j : nat) (a b : list (list R)) :
  column j (a ++ b) = column j a ++ column j b.
Proof. apply map_app. Qed.



(** ** Welford's recurrence on one entry *)

Section WelfordScalar.

Variables (k : nat) (mu s2 S Q x : R).
Hypothesis Hmean : INR k * mu = S.
Hypothesis HM2 : s2 = Q - INR k * mu * mu.

Let n' := INR (Datatypes.S k).
Let delta := x - mu.
Let mu' := mu + delta / n'.
Let delta2 := x - mu'.

Lemma welford_n'_pos : 0 < n'.
Proof. unfold n'. apply lt_0_INR. lia. Qed.

Lemma welford_mean_step : n' * mu' = S + x.
Proof.
  pose proof welford_n'_pos as Hn.
  unfold mu', delta. unfold n' in *. rewrite S_INR in *.
  field_simplify; [|lra]. rewrite <- Hmean. lra.
Qed.

Lemma welford_M2_step :
  s2 + delta * delta2 = Q + x * x - n' * mu' * mu'.
Proof.
  pose proof welford_n'_pos as Hn.
  rewrite HM2. unfold delta2, mu', delta. unfold n' in *. rewrite S_INR in *.
  field. lra.
Qed.

Lemma welford_increment_nonneg : 0 <= delta * delta2.
Proof.
  pose proof welford_n'_pos as Hn.
  assert (E : delta * delta2 = delta * delta * (INR k / n')).
  { unfold delta2, mu', delta. unfold n' in *. rewrite S_INR in *.
    field. lra. }
  rewrite E. apply Rmult_le_pos; [apply Rle_0_sqr|].
  apply Rmult_le_pos; [apply pos_INR|].
  left. apply Rinv_0_lt_compat. exact Hn.
Qed.

End WelfordScalar.

(** ** The loop invariant of [compute_variance_online] *)

Lemma zeros_like_repeat (t : tensor) : zeros_like t = repeat (Fin 0) (length t).
Proof.
  unfold zeros_like. induction t as [|x t IH]; simpl; [reflexivity|].
  now rewrite IH.
Qed.

Lemma update_empty_state (x : tensor) :
  Agni.update Agni.empty_state x = Agni.update (zero_state (length x)) x.
Proof.
  unfold Agni.update, zero_state, Agni.empty_state. cbn [Agni.mean Agni.M2 Agni.n].
  rewrite zeros_like_repeat. reflexivity.
Qed.

Lemma welford_inv_zero (d : nat) : welford_inv d [] (zero_state d).
Proof.
  split; [reflexivity|].
  exists (repeat (Fin 0) d), (repeat (Fin 0) d).
  repeat split; try apply repeat_length.
  intros j Hj. exists 0, 0.
  assert (E : nth j (repeat (Fin 0) d) NaN = Fin 0).
  { apply nth_repeat_lt. exact Hj. }
  rewrite E. simpl. repeat split; lra.
Qed.

(** One update keeps the invariant, never raises on a sample of the common
    shape, and adds a non-negative increment to every entry of [M2]. *)
Lemma update_step (d : nat) (seen : list (list R)) (st : Agni.VarianceState)
    (x : list R) :
  welford_inv d seen st -> length x = d ->
  exists st', Agni.update st (of_reals x) = Ok st' /\
    welford_inv d (seen ++ [x]) st' /\
    forall q q', Agni.M2 st = Some q -> Agni.M2 st' = Some q' ->
      forall j, (j < d)%nat -> exists s s' : R,
        nth j q NaN = Fin s /\ nth j q' NaN = Fin s' /\ 0 <= s' - s.
Proof.
  intros (Hn & m & q & Hm & Hq & Lm & Lq & Hent) Lx.
  assert (Lx' : length (of_reals x) = d) by (unfold of_reals; now rewrite length_map).
  unfold Agni.update. rewrite Hm, Hq.
  rewrite (broadcast_same fsub) by congruence.
  cbn [Py.bind].
  set (delta := zip_with fsub (of_reals x) m).
  assert (Ld : length delta = d).
  { unfold delta. rewrite zip_with_length; congruence. }
  rewrite iadd_same by (rewrite length_map; congruence).
  cbn [Py.bind].
  set (mean' := zip_with fadd m (map (fun d0 => fdivn d0 (S (Agni.n st))) delta)).
  assert (Lm' : length mean' = d).
  { unfold mean'. rewrite zip_with_length; [congruence|].
    rewrite length_map. congruence. }
  rewrite (broadcast_same fsub) by congruence.
  cbn [Py.bind].
  set (delta2 := zip_with fsub (of_reals x) mean').
  assert (Ld2 : length delta2 = d).
  { unfold delta2. rewrite zip_with_length; congruence. }
  rewrite (broadcast_same fmul) by congruence.
  cbn [Py.bind].
  rewrite iadd_same by (rewrite zip_with_length; congruence).
  cbn [Py.bind].
  set (M2' := zip_with fadd q (zip_with fmul delta delta2)).
  assert (LM2' : length M2' = d).
  { unfold M2'. rewrite zip_with_length; [congruence|].
    rewrite zip_with_length; congruence. }
  (* entry-wise values *)
  assert (Hval : forall j, (j < d)%nat -> exists mu s2 : R,
            nth j m NaN = Fin mu /\ nth j q NaN = Fin s2 /\
            INR (length seen) * mu = Rsum (column j seen) /\
            s2 = Rsum (map (fun x => x * x) (column j seen))
                 - INR (length seen) * mu * mu /\
            0 <= s2 /\
            nth j mean' NaN
              = Fin (mu + (nth j x 0 - mu) / INR (S (length seen))) /\
            nth j M2' NaN
              = Fin (s2 + (nth j x 0 - mu)
                          * (nth j x 0
                             - (mu + (nth j x 0 - mu) / INR (S (length seen)))))).
  { intros j Hj. destruct (Hent j Hj) as (mu & s2 & E1 & E2 & E3 & E4 & E5).
    exists mu, s2. repeat (split; [assumption|]).
    assert (Ex : nth j (of_reals x) NaN = Fin (nth j x 0))
      by (apply nth_of_reals; lia).
    assert (Edelta : nth j delta NaN = Fin (nth j x 0 - mu)).
    { unfold delta. rewrite zip_with_nth by lia. now rewrite Ex, E1. }
    assert (Emean : nth j mean' NaN
                    = Fin (mu + (nth j x 0 - mu) / INR (S (length seen)))).
    { unfold mean'. rewrite zip_with_nth; [|rewrite length_map; lia|lia].
      rewrite nth_map_lt by lia. rewrite E1, Edelta, Hn. reflexivity. }
    split; [exact Emean|].
    unfold M2'. rewrite zip_with_nth; [|rewrite zip_with_length; lia|lia].
    rewrite zip_with_nth by lia.
    unfold delta2 at 1. rewrite zip_with_nth by lia.
    rewrite E2, Edelta, Ex, Emean. reflexivity. }
  eexists. split; [reflexivity|]. split.
  - split; [cbn; rewrite length_app, Hn; simpl; lia|].
    exists mean', M2'. repeat split; try assumption.
    intros j Hj.
    destruct (Hval j Hj) as (mu & s2 & E1 & E2 & E3 & E4 & E5 & E6 & E7).
    eexists _, _. split; [exact E6|]. split; [exact E7|].
    rewrite column_app, map_app, !Rsum_app, length_app.
    replace (length seen + length [x])%nat with (S (length seen))
      by (simpl; lia).
    cbn [column map]. unfold Rsum at 2 4. cbn [fold_right]. rewrite !Rplus_0_r.
    split; [|split].
    + rewrite <- E3. apply welford_mean_step. reflexivity.
    + rewrite (welford_M2_step (length seen) mu s2
                 (Rsum (map (fun x0 => x0 * x0) (column j seen))) (nth j x 0)
                 E4).
      reflexivity.
    + pose proof (welford_increment_nonneg (length seen) mu (nth j x 0)). lra.
  - intros q0 q0' Eq0 Eq0'. cbn in Eq0'. inversion Eq0'; subst q0'.
    assert (q0 = q) by congruence. subst q0.
    intros j Hj.
    destruct (Hval j Hj) as (mu & s2 & E1 & E2 & E3 & E4 & E5 & E6 & E7).
    eexists _, _. split; [exact E2|]. split; [exact E7|].
    pose proof (welford_increment_nonneg (length seen) mu (nth j x 0)). lra.
Qed.

Lemma update_from_inv (d : nat) (st : Agni.VarianceState) (x : list R) :
  state_inv d st -> length x = d ->
  exists st' seen, Agni.update st (of_reals x) = Ok st' /\
    seen <> [] /\ welford_inv d seen st' /\
    forall q q', Agni.M2 st = Some q -> Agni.M2 st' = Some q' ->
      forall j, (j < d)%nat -> exists s s' : R,
        nth j q NaN = Fin s /\ nth j q' NaN = Fin s' /\ 0 <= s' - s.
Proof.
  intros [-> | (seen & Hne & Hinv)] Lx.
  - rewrite update_empty_state.
    assert (Lx' : length (of_reals x) = d)
      by (unfold of_reals; now rewrite length_map).
    rewrite Lx'.
    destruct (update_step d [] (zero_state d) x (welford_inv_zero d) Lx)
      as (st' & E & Hinv & _).
    exists st', ([] ++ [x]).
    split; [exact E|]. split; [discriminate|]. split; [exact Hinv|].
    intros q q' Hq. discriminate Hq.
  - destruct (update_step d seen st x Hinv Lx) as (st' & E & Hinv' & Hincr).
    exists st', (seen ++ [x]).
    split; [exact E|]. split; [|split; [exact Hinv'|exact Hincr]].
    intros C. apply app_eq_nil in C. destruct C as [_ C]. discriminate C.
Qed.

Lemma reachable_state_inv (d : nat) (st : Agni.VarianceState) :
  reachable d st -> state_inv d st.
Proof.
  induction 1 as [|st x st' Hr IH Lx E].
  - now left.
  - destruct (update_from_inv d st x IH Lx) as (st2 & seen & E2 & Hne & Hinv & _).
    rewrite E in E2. inversion E2; subst st2.
    right. now exists seen.
Qed.

(** Folding the updates over samples of the common shape. *)
Lemma for_each_update (d : nat) (rest seen : list (list R))
    (st : Agni.VarianceState) :
  welford_inv d seen st -> Forall (fun x => length x = d) rest ->
  exists st', for_each Agni.update (map of_reals rest) st = Ok st' /\
    welford_inv d (seen ++ rest) st'.
Proof.
  revert seen st. induction rest as [|x rest IH]; intros seen st Hinv Hall.
  - exists st. rewrite app_nil_r. now split.
  - apply Forall_cons_iff in Hall. destruct Hall as [Lx Hall'].
    destruct (update_step d seen st x Hinv Lx) as (st1 & E1 & Hinv1 & _).
    destruct (IH (seen ++ [x]) st1 Hinv1 Hall') as (st' & E' & Hinv').
    exists st'. cbn [map for_each]. rewrite E1. cbn [Py.bind].
    rewrite <- app_assoc in Hinv'. now split.
Qed.


(** **** Claim C8.
    Every state reachable from the empty state by updates with real-valued
    samples of shape [d] has a count [n >= 0]; it is the empty state, or its
    [mean] and [M2] have shape [d] and every entry of [M2] is a non-negative
    real.  A further update with such a sample succeeds, gives a reachable
    state, and changes each entry of [M2] by a non-negative increment. *)
Theorem reachable_variance_state_invariant :
  forall (d : nat) (st : Agni.VarianceState),
    reachable d st ->
    (0 <= Agni.n st)%nat /\
    (st = Agni.empty_state \/
     exists m q : tensor,
       Agni.mean st = Some m /\ Agni.M2 st = Some q /\
       (1 <= Agni.n st)%nat /\ length m = d /\ length q = d /\
       forall j, (j < d)%nat -> exists s : R, nth j q NaN = Fin s /\ 0 <= s) /\
    forall x : list R, length x = d ->
      exists st', Agni.update st (of_reals x) = Ok st' /\
        reachable d st' /\
        Agni.n st' = S (Agni.n st) /\
        forall q q', Agni.M2 st = Some q -> Agni.M2 st' = Some q' ->
          forall j, (j < d)%nat -> exists s s' : R,
            nth j q NaN = Fin s /\ nth j q' NaN = Fin s' /\ 0 <= s' - s.
Proof.
  intros d st Hr. pose proof (reachable_state_inv d st Hr) as Hinv.
  split; [lia|]. split.
  - destruct Hinv as [->|(seen & Hne & Hn & m & q & Hm & Hq & Lm & Lq & Hent)];
      [now left|right].
    exists m, q. repeat split; try assumption.
    + rewrite Hn. destruct seen; [congruence|simpl; lia].
    + intros j Hj. destruct (Hent j Hj) as (mu & s2 & _ & E2 & _ & _ & Hpos).
      now exists s2.
  - intros x Lx.
    destruct (update_from_inv d st x Hinv Lx)
      as (st' & seen & E & Hne & Hinv' & Hincr).
    exists st'. split; [exact E|]. split; [now apply (reach_update d st x)|].
    split; [|exact Hincr].
    clear - E. unfold Agni.update in E.
    repeat match type of E with
           | Py.bind ?c _ = _ => destruct c; cbn [Py.bind] in E; [|discriminate]
           | match ?c with _ => _ end = _ => destruct c; [|discriminate]
           end.
    now inversion E.
Qed.

(** ** Noise injection *)

Lemma fold_left_fadd_reals (l : list R) (a : R) :
  fold_left fadd (map Fin l) (Fin a) = Fin (a + Rsum l).
Proof.
  revert a. induction l as [|x l IH]; intros a; simpl.
  - f_equal. lra.
  - rewrite IH. f_equal. unfold Rsum. simpl. lra.
Qed.

Lemma Rsum_squares_nonneg (g : list R) : 0 <= Rsum (map (fun x => x * x) g).
Proof.
  induction g as [|x g IH]; unfold Rsum in *; simpl; [lra|].
  pose proof (Rle_0_sqr x) as Hx. unfold Rsqr in Hx. lra.
Qed.

Lemma norm_of_reals (g : list R) : norm (of_reals g) = Fin (l2_norm g).
Proof.
  unfold norm, fsum, of_reals. rewrite map_map.
  change (fun x : R => fmul (Fin x) (Fin x)) with (fun x : R => Fin (x * x)).
  rewrite <- (map_map (fun x => x * x) Fin), fold_left_fadd_reals.
  unfold fsqrt. pose proof (Rsum_squares_nonneg g) as Hpos.
  destruct (Rlt_dec _ 0) as [Hneg|_]; [lra|].
  unfold l2_norm. now rewrite Rplus_0_l.
Qed.

(** On real-valued inputs of one size the injection does not raise, and
    every entry is the perturbed entry. *)
Lemma inject_noise_entries (eta : R) (draw : nat -> R) (g v : list R) :
  length v = length g ->
  exists g' : tensor,
    Agni.inject_noise eta draw (of_reals g) (of_reals v) = Ok g' /\
    length g' = length g /\
    forall j, (j < length g)%nat -> nth j g' NaN = perturbed_entry eta draw g v j.
Proof.
  intros Hlen.
  assert (Lg : length (of_reals g) = length g) by apply length_map.
  assert (Lv : length (of_reals v) = length g)
    by (unfold of_reals; rewrite length_map; exact Hlen).
  unfold Agni.inject_noise, Agni.view. rewrite Lv, Lg, Nat.eqb_refl.
  cbn [Py.bind]. rewrite norm_of_reals.
  assert (Lr : length (Agni.randn_like draw (of_reals g)) = length g).
  { unfold Agni.randn_like. now rewrite length_map, length_seq. }
  assert (Ls : length (Agni.noise_scale eta (of_reals v) (Fin (l2_norm g)))
               = length g).
  { unfold Agni.noise_scale. now rewrite length_map. }
  rewrite (broadcast_same fmul) by congruence. cbn [Py.bind].
  rewrite iadd_same by (rewrite zip_with_length; congruence).
  eexists. split; [reflexivity|]. split.
  - rewrite zip_with_length; [exact Lg|]. rewrite zip_with_length; congruence.
  - intros j Hj.
    rewrite zip_with_nth; [|rewrite zip_with_length; congruence|lia].
    rewrite zip_with_nth by lia.
    rewrite nth_of_reals by lia.
    unfold Agni.noise_scale. rewrite nth_map_lt by lia.
    rewrite nth_of_reals by lia.
    unfold Agni.randn_like.
    rewrite (nth_indep _ NaN (Fin (draw 0%nat)))
      by (rewrite length_map, length_seq; lia).
    rewrite (map_nth (fun i => Fin (draw i))), seq_nth by lia.
    unfold perturbed_entry. cbn [fmul lift2 fsqrt].
    destruct (Rlt_dec (eta * nth j v 0) 0); reflexivity.
Qed.

(** **** Claim C4 (amended to gradients without NaN).
    With [eta = 0] the injection returns its input gradient, for every
    real-valued gradient, every real-valued variance tensor with as many
    entries (non-negative or not) and every noise draw; and the noise scale
    is zero for every real magnitude. *)
Theorem inject_noise_eta_zero_identity :
  forall (draw : nat -> R) (g v : list R),
    length v = length g ->
    Agni.inject_noise 0 draw (of_reals g) (of_reals v) = Ok (of_reals g) /\
    forall magnitude : R,
      Agni.noise_scale 0 (of_reals v) (Fin magnitude) = zeros_like (of_reals v).
Proof.
  intros draw g v Hlen. split.
  - destruct (inject_noise_entries 0 draw g v Hlen) as (g' & E & Lg' & Hent).
    rewrite E. f_equal.
    apply (nth_ext _ _ NaN NaN).
    + unfold of_reals. now rewrite length_map.
    + intros j Hj. rewrite Lg' in Hj. rewrite (Hent j Hj), nth_of_reals by lia.
      unfold perturbed_entry. rewrite Rmult_0_l.
      destruct (Rlt_dec 0 0) as [H|_]; [lra|].
      rewrite sqrt_0. f_equal. ring.
  - intros magnitude. unfold Agni.noise_scale, zeros_like, of_reals.
    rewrite !map_map. apply map_ext. intros x. cbn [fmul lift2 fsqrt].
    rewrite Rmult_0_l. destruct (Rlt_dec 0 0) as [H|_]; [lra|].
    cbn [fmul lift2]. rewrite sqrt_0. f_equal. ring.
Qed.

(** Counterexample to claim C4 as stated for every gradient tensor: with
    [eta = 0], the gradient [[1; NaN]] and the variance [[0; 0]] the
    magnitude of the gradient is NaN, the noise scale [0 * NaN] is NaN, and
    the injection returns [[NaN; NaN]]: the entry 1 of the input is lost. *)
Lemma inject_noise_eta_zero_nan_gradient :
  Agni.inject_noise 0 (fun _ => 0) [Fin 1; NaN] [Fin 0; Fin 0]
  = Ok [NaN; NaN] /\
  Agni.inject_noise 0 (fun _ => 0) [Fin 1; NaN] [Fin 0; Fin 0]
  <> Ok [Fin 1; NaN].
Proof.
  assert (E : Agni.inject_noise 0 (fun _ => 0) [Fin 1; NaN] [Fin 0; Fin 0]
              = Ok [NaN; NaN]).
  { unfold Agni.inject_noise, Agni.noise_scale, Agni.view, norm, fsum.
    cbn. destruct (Rlt_dec (0 * 0) 0); reflexivity. }
  split; [exact E|]. rewrite E. discriminate.
Qed.

(** Counterexample to claim C3: with [eta = 1], gradient [[1]] and variance
    [[-1]] the injection raises nothing and returns the gradient [[NaN]]. *)
Lemma inject_noise_negative_variance_returns_nan :
  Agni.inject_noise 1 (fun _ => 0) (of_reals [1]) (of_reals [-1]) = Ok [NaN].
Proof.
  destruct (inject_noise_entries 1 (fun _ => 0) [1] [-1] eq_refl)
    as (g' & E & Lg' & Hent).
  rewrite E. f_equal.
  destruct g' as [|y [|? ?]]; try discriminate.
  f_equal. specialize (Hent 0%nat (Nat.lt_0_succ 0)). cbn [nth] in Hent.
  rewrite Hent. unfold perturbed_entry. cbn [nth].
  destruct (Rlt_dec (1 * -1) 0) as [_|H]; [reflexivity|lra].
Qed.

(** **** Claim C3 (amended).
    On a real-valued gradient and a real-valued variance tensor with as many
    entries, the injection raises no error for any [eta]: it returns a
    gradient of the same size in which every entry with [eta * variance < 0]
    is NaN and every other entry is
    [gradient + noise * sqrt (eta * variance) * norm gradient]. *)
Theorem inject_noise_never_raises :
  forall (eta : R) (draw : nat -> R) (g v : list R),
    length v = length g ->
    exists g' : tensor,
      Agni.inject_noise eta draw (of_reals g) (of_reals v) = Ok g' /\
      length g' = length g /\
      forall j, (j < length g)%nat ->
        (eta * nth j v 0 < 0 -> nth j g' NaN = NaN) /\
        (0 <= eta * nth j v 0 ->
         nth j g' NaN
         = Fin (nth j g 0 + draw j * (sqrt (eta * nth j v 0) * l2_norm g))).
Proof.
  intros eta draw g v Hlen.
  destruct (inject_noise_entries eta draw g v Hlen) as (g' & E & Lg' & Hent).
  exists g'. split; [exact E|]. split; [exact Lg'|].
  intros j Hj. rewrite (Hent j Hj). unfold perturbed_entry.
  destruct (Rlt_dec (eta * nth j v 0) 0) as [Hneg|Hpos]; split; intros H;
    try reflexivity; lra.
Qed.

(** ** Combining member logits *)

Lemma same_shape_cons (r1 r2 : list R) (a b : Glue.matrix) :
  Glue.same_shape (r1 :: a) (r2 :: b) = true ->
  length r1 = length r2 /\ Glue.same_shape a b = true.
Proof.
  unfold Glue.same_shape. cbn [length combine forallb fst snd].
  intros H. apply andb_prop in H. destruct H as [H1 H2].
  apply andb_prop in H2. destruct H2 as [H2 H3].
  apply Nat.eqb_eq in H2. split; [exact H2|].
  change (Nat.eqb (S (length a)) (S (length b)))
    with (Nat.eqb (length a) (length b)) in H1.
  now rewrite H1, H3.
Qed.

Lemma same_shape_length (a b : Glue.matrix) :
  Glue.same_shape a b = true -> length a = length b.
Proof.
  unfold Glue.same_shape. intros H. apply andb_prop in H.
  now apply Nat.eqb_eq.
Qed.

(** Mapping after zipping two mapped lists is one zip. *)
Lemma map_zip_with_map {A B : Type} (f g : A -> A) (op : A -> A -> A)
    (post : A -> B) (h : A -> A -> B) (a b : list A) :
  (forall x y, post (op (f x) (g y)) = h x y) ->
  map post (zip_with op (map f a) (map g b)) = zip_with h a b.
Proof.
  intros Hh. revert b. induction a as [|x a IH]; intros [|y b]; simpl;
    try reflexivity.
  now rewrite Hh, IH.
Qed.

(** Broadcasting two tensors of one shape is the entrywise operation. *)
Lemma broadcast2_same_shape (f : R -> R -> R) (a b : Glue.matrix) :
  Glue.same_shape a b = true ->
  Glue.broadcast2 f a b = Ok (zip_with (zip_with f) a b).
Proof.
  intros Hs. unfold Glue.broadcast2.
  rewrite broadcast_same by now apply same_shape_length.
  cbn [Glue.size_error Py.bind]. revert b Hs.
  induction a as [|r1 a IH]; intros [|r2 b] Hs; try reflexivity.
  apply same_shape_cons in Hs. destruct Hs as [Hr Hs].
  cbn [zip_with Glue.mapM fst snd].
  rewrite broadcast_same by exact Hr. cbn [Glue.size_error Py.bind].
  rewrite (IH b Hs). reflexivity.
Qed.

Lemma same_shape_scale (a b : Glue.matrix) (u w : R) :
  Glue.same_shape a b = true ->
  Glue.same_shape (Glue.scale a u) (Glue.scale b w) = true.
Proof.
  revert b. induction a as [|r1 a IH]; intros [|r2 b] Hs; try reflexivity;
    try discriminate.
  apply same_shape_cons in Hs. destruct Hs as [Hr Hs].
  specialize (IH b Hs). unfold Glue.same_shape, Glue.scale in *.
  cbn [map length combine forallb fst snd].
  rewrite !length_map in *. rewrite Hr, Nat.eqb_refl.
  apply andb_prop in IH. destruct IH as [IH1 IH2].
  change (Nat.eqb (S (length a)) (S (length b)))
    with (Nat.eqb (length a) (length b)).
  now rewrite IH1, IH2.
Qed.

(** The weighted sum of two scaled tensors, entry by entry. *)
Lemma zip_scaled (op : R -> R -> R) (post : R -> R) (h : R -> R -> R)
    (u w : R) (a b : Glue.matrix) :
  (forall x y, post (op (x * u) (y * w)) = h x y) ->
  map (map post) (zip_with (zip_with op) (Glue.scale a u) (Glue.scale b w))
  = zip_with (zip_with h) a b.
Proof.
  intros Hh. unfold Glue.scale. revert b.
  induction a as [|r1 a IH]; intros [|r2 b]; simpl; try reflexivity.
  rewrite IH. f_equal.
  apply (map_zip_with_map (fun x => x * u) (fun y => y * w) op post h).
  exact Hh.
Qed.

(** **** Claim C9.
    For every [alpha = [a0; a1]] the mixing weights
    [exp a_i / (exp a0 + exp a1)] lie strictly between 0 and 1 and sum to 1,
    and on member logits of one shape the combiner returns, entry by entry,
    the average of the member logits with these weights. *)
Theorem adaboost_weighted_average :
  forall (a0 a1 : R) (logits1 logits2 : Glue.matrix),
    Glue.same_shape logits1 logits2 = true ->
    let w0 := exp a0 / (exp a0 + exp a1) in
    let w1 := exp a1 / (exp a0 + exp a1) in
    0 < w0 < 1 /\ 0 < w1 < 1 /\ w0 + w1 = 1 /\
    Glue.AdaBoostCombiner_forward (Glue.mk_adaboost [a0; a1]) logits1 logits2
    = Ok (zip_with (zip_with (fun x y => w0 * x + w1 * y)) logits1 logits2).
Proof.
  intros a0 a1 logits1 logits2 Hs w0 w1.
  pose proof (exp_pos a0) as H0. pose proof (exp_pos a1) as H1.
  assert (Hsum : 0 < exp a0 + exp a1) by lra.
  assert (Hinv : 0 < / (exp a0 + exp a1)) by now apply Rinv_0_lt_compat.
  assert (E0 : w0 = exp a0 * / (exp a0 + exp a1)) by reflexivity.
  assert (E1 : w1 = exp a1 * / (exp a0 + exp a1)) by reflexivity.
  assert (Eone : w0 + w1 = 1) by (unfold w0, w1; field; lra).
  assert (P0 : 0 < w0) by (rewrite E0; now apply Rmult_lt_0_compat).
  assert (P1 : 0 < w1) by (rewrite E1; now apply Rmult_lt_0_compat).
  repeat split; try assumption; try lra.
  unfold Glue.AdaBoostCombiner_forward.
  cbn [Glue.alpha map Glue.index nth_error Py.bind].
  rewrite broadcast2_same_shape by now apply same_shape_scale.
  cbn [Py.bind]. f_equal.
  apply zip_scaled. intros x y. unfold w0, w1, Rsum. cbn [fold_right].
  field. lra.
Qed.

Lemma sum_scaled (h : R -> R -> R) (u w : R) (a b : Glue.matrix) :
  (forall x y, x * u + y * w = h x y) ->
  zip_with (zip_with Rplus) (Glue.scale a u) (Glue.scale b w)
  = zip_with (zip_with h) a b.
Proof.
  intros Hh. unfold Glue.scale. revert b.
  induction a as [|r1 a IH]; intros [|r2 b]; simpl; try reflexivity.
  rewrite IH. f_equal. clear IH. revert r2.
  induction r1 as [|x r1 IHr]; intros [|y r2]; simpl; try reflexivity.
  now rewrite Hh, IHr.
Qed.

(** Two members with the initial weights [1/2]: the combined logits are the
    mean of the member logits. *)
Lemma stack_sum_equal_weights (logits1 logits2 : Glue.matrix) :
  Glue.same_shape logits1 logits2 = true ->
  Glue.stack_sum [Glue.scale logits1 (1 / INR 2); Glue.scale logits2 (1 / INR 2)]
  = Ok (mean_logits logits1 logits2).
Proof.
  intros Hs. unfold Glue.stack_sum. cbn [for_each Py.bind].
  unfold Glue.add_stacked. rewrite same_shape_scale by exact Hs.
  cbn [Py.bind]. f_equal. apply sum_scaled. intros x y. simpl INR. field.
Qed.

Lemma shape_4_2_rows (m : Glue.matrix) :
  shape_4_2 m ->
  exists a b c d e f g h, m = [[a; b]; [c; d]; [e; f]; [g; h]].
Proof.
  intros [Hl Hr].
  destruct m as [|r1 [|r2 [|r3 [|r4 [|? ?]]]]]; try discriminate.
  repeat (apply Forall_cons_iff in Hr; destruct Hr as [? Hr]).
  repeat match goal with
         | H : length ?r = 2%nat |- _ =>
             destruct r as [|? [|? [|? ?]]]; try discriminate; clear H
         end.
  repeat eexists.
Qed.

(** **** Claim C5.
    Two members, [num_labels = 2], weights [1/2] and [1/2] as the
    constructor sets them, labels [[0;1;0;1]], problem type single-label
    classification (set, or unset and inferred): for all member logits of
    shape [4, 2] the forward pass returns a loss, and it is the
    cross-entropy loss of the arithmetic mean of the two logit tensors.
    The combined logits, and the output of the pairwise [WeightedSum] with
    its initial weights, are that mean. *)
Theorem ensemble_loss_is_cross_entropy_of_mean :
  forall (attention : Type)
         (MSELoss_squeezed MSELoss BCEWithLogitsLoss
            : Glue.matrix -> Glue.labels -> result scalar)
         (logits1 logits2 : Glue.matrix) (att1 att2 : attention)
         (pt : option Glue.problem_type),
    shape_4_2 logits1 -> shape_4_2 logits2 ->
    pt = None \/ pt = Some Glue.single_label_classification ->
    exists (self' : Glue.EnsembleModel) (out : Glue.forward_output attention)
           (ce : R),
      Glue.forward attention MSELoss_squeezed MSELoss BCEWithLogitsLoss
        (Glue.EnsembleModel_init 2 2 pt)
        [Glue.mk_output attention logits1 att1;
         Glue.mk_output attention logits2 att2]
        (Some (Glue.IntLabels [0; 1; 0; 1]%Z))
      = Ok (self', out) /\
      Glue.loss attention out = Some (Fin ce) /\
      Glue.combined_logits attention out = mean_logits logits1 logits2 /\
      Glue.WeightedSum_forward Glue.WeightedSum_init logits1 logits2
      = Ok (mean_logits logits1 logits2) /\
      Glue.CrossEntropyLoss (mean_logits logits1 logits2) [0; 1; 0; 1]%Z
      = Ok (Fin ce).
Proof.
  intros attention Msq M B logits1 logits2 att1 att2 pt H1 H2 Hpt.
  destruct (shape_4_2_rows logits1 H1)
    as (a1 & b1 & c1 & d1 & e1 & f1 & g1 & h1 & ->).
  destruct (shape_4_2_rows logits2 H2)
    as (a2 & b2 & c2 & d2 & e2 & f2 & g2 & h2 & ->).
  set (l1 := [[a1; b1]; [c1; d1]; [e1; f1]; [g1; h1]]).
  set (l2 := [[a2; b2]; [c2; d2]; [e2; f2]; [g2; h2]]).
  assert (Hs : Glue.same_shape l1 l2 = true) by reflexivity.
  assert (Hce : exists ce,
             Glue.CrossEntropyLoss (mean_logits l1 l2) [0; 1; 0; 1]%Z
             = Ok (Fin ce)).
  { eexists. unfold l1, l2, mean_logits, Glue.CrossEntropyLoss.
    cbn [zip_with length Nat.eqb negb combine Glue.mapM fst snd].
    unfold Glue.ce_example.
    cbn [Z.eqb Pos.eqb length Z.of_nat Z.leb Z.ltb Z.compare Pos.compare
         Pos.compare_cont Pos.of_succ_nat Pos.succ andb Py.bind
         Glue.keep_some].
    reflexivity. }
  destruct Hce as (ce & Hce).
  assert (Hview : Glue.view_rows (mean_logits l1 l2) 2 = Ok (mean_logits l1 l2))
    by reflexivity.
  assert (Hfw : forall self,
             Glue.weights self = [1 / INR 2; 1 / INR 2] ->
             Glue.weighted_outputs attention self 0
               [Glue.mk_output attention l1 att1;
                Glue.mk_output attention l2 att2]
             = Ok [Glue.scale l1 (1 / INR 2); Glue.scale l2 (1 / INR 2)]).
  { intros self Hw. cbn [Glue.weighted_outputs]. rewrite Hw.
    reflexivity. }
  unfold Glue.forward.
  rewrite Hfw by reflexivity. cbn [Py.bind].
  rewrite stack_sum_equal_weights by exact Hs. cbn [Py.bind].
  assert (Ept : Glue.infer_problem_type
                  (Glue.EnsembleModel_init 2 2 pt)
                  (Glue.IntLabels [0; 1; 0; 1]%Z)
                = Glue.single_label_classification).
  { destruct Hpt as [-> | ->]; reflexivity. }
  rewrite Ept.
  change (Glue.num_labels (Glue.EnsembleModel_init 2 2 pt)) with 2%Z.
  rewrite Hview. cbn [Py.bind]. rewrite Hce. cbn [Py.bind].
  eexists _, _, ce. split; [reflexivity|]. split; [reflexivity|].
  split; [reflexivity|]. split; [|reflexivity].
  unfold Glue.WeightedSum_forward.
  cbn [Glue.ws_weights Glue.WeightedSum_init Glue.index nth_error Py.bind].
  rewrite broadcast2_same_shape by now apply same_shape_scale.
  apply f_equal. apply sum_scaled. intros x y. field.
Qed.

(** ** Retrying the metric computation *)

Lemma starts_with_app (p s : string) :
  Glue.starts_with p (p ++ s)%string = true.
Proof.
  induction p as [|c p IH]; [reflexivity|].
  cbn [String.append Glue.starts_with]. now rewrite Ascii.eqb_refl, IH.
Qed.

Lemma contains_app (needle pre post : string) :
  Glue.contains needle (pre ++ needle ++ post)%string = true.
Proof.
  induction pre as [|c pre IH].
  - cbn [String.append].
    destruct (needle ++ post)%string eqn:E; cbn [Glue.contains];
      rewrite <- E, starts_with_app; reflexivity.
  - cbn [String.append Glue.contains]. rewrite IH. apply orb_true_r.
Qed.

(** One attempt decides the loop: a value is returned, an exception other
    than the awaited ValueError is raised again, and the awaited one leads
    to [time.sleep], which raises NameError. *)
Lemma retry_loop_first_attempt {A : Type} (compute : nat -> Glue.outcome A)
    (uniform : nat -> R) (max_retries : nat) (initial_wait : R)
    (attempt : nat) (rest : list nat) (slept : list R) :
  Glue.retry_loop compute uniform max_retries initial_wait (attempt :: rest)
    slept
  = (match compute attempt with
     | Glue.Returns a => Ok a
     | Glue.Throws e =>
         if Glue.is_ValueError e
            && Glue.contains "Please specify an experiment_id" (msg e)
         then Raise (mk_exn NameError "name 'time' is not defined")
         else Raise e
     end, slept).
Proof.
  cbn [Glue.retry_loop]. destruct (compute attempt) as [a|e]; [reflexivity|].
  destruct (Glue.is_ValueError e); [|reflexivity].
  destruct (Glue.contains _ (msg e)); reflexivity.
Qed.

(** **** Claim C6 (the wrapper at a transient failure).
    [time] is not imported, so the wrapper never reaches a second attempt.
    On the metric that fails twice with the awaited ValueError and would
    return 7 at the third call, with the defaults [max_retries = 10] and
    [initial_wait = 1], it raises NameError after the first call, having
    slept not at all.  The same holds for every metric whose first call
    fails with a ValueError whose message contains the awaited phrase,
    whatever its later calls would do, for every positive [max_retries]. *)
Theorem compute_with_retry_transient_failure_raises_NameError :
  (forall uniform : nat -> R,
     Glue.compute_with_retry flaky_metric uniform 10 1
     = (Raise (mk_exn NameError "name 'time' is not defined"), [])) /\
  (forall (A : Type) (pre post : string) (later : nat -> Glue.outcome A)
          (uniform : nat -> R) (max_retries : nat) (initial_wait : R),
     Glue.compute_with_retry (fails_first pre post later) uniform
       (S max_retries) initial_wait
     = (Raise (mk_exn NameError "name 'time' is not defined"), [])).
Proof.
  split.
  - intros uniform. reflexivity.
  - intros A pre post later uniform max_retries initial_wait.
    unfold Glue.compute_with_retry. cbn [seq].
    rewrite retry_loop_first_attempt.
    cbn [fails_first Glue.is_ValueError cls msg andb].
    now rewrite contains_app.
Qed.

(** ** The optimizer-step condition of [main] *)

(** Once the loop does not raise, the log of optimizer steps only grows. *)
Lemma train_batches_log (G : Z) (len_train : nat) (max_train_steps : Z)
    (steps : list nat) (s : Glue.loop_state) :
  G <> 0%Z ->
  exists s' more,
    Glue.train_batches G len_train max_train_steps None steps s = Ok s' /\
    Glue.optimizer_log s' = Glue.optimizer_log s ++ more.
Proof.
  intros HG. apply Z.eqb_neq in HG.
  revert s. induction steps as [|step rest IH]; intros s.
  - exists s, []. now rewrite app_nil_r.
  - cbn [Glue.train_batches]. rewrite HG.
    set (s1 := if (_ || _)%bool then _ else _).
    assert (Hs1 : exists more1,
               Glue.optimizer_log s1 = Glue.optimizer_log s ++ more1).
    { unfold s1. destruct (_ || _)%bool; cbn [Glue.optimizer_log].
      - now eexists.
      - exists []. now rewrite app_nil_r. }
    destruct Hs1 as (more1 & E1).
    destruct (max_train_steps <=? Glue.completed_steps s1)%Z.
    + now exists s1, more1.
    + destruct (IH s1) as (s' & more & E & El).
      exists s', (more1 ++ more). split; [exact E|].
      now rewrite El, E1, app_assoc.
Qed.

(** The first batch of an epoch always triggers an optimizer step, after a
    single micro-batch: [0 % gradient_accumulation_steps == 0]. *)
Lemma main_steps_at_first_batch (G : Z) (len_train : nat) (max_train_steps : Z) :
  G <> 0%Z -> (1 <= len_train)%nat ->
  exists s' more,
    Glue.train_epoch G len_train max_train_steps None (Glue.mk_loop 0 0 [])
    = Ok s' /\
    Glue.optimizer_log s' = (0%nat, 1%nat) :: more.
Proof.
  intros HG Hlen. unfold Glue.train_epoch.
  destruct len_train as [|len]; [lia|].
  cbn [seq Glue.train_batches]. rewrite (proj2 (Z.eqb_neq G 0) HG).
  rewrite Zmod_0_l. cbn [Z.eqb orb Glue.accumulated Glue.completed_steps
                         Glue.optimizer_log app].
  destruct (max_train_steps <=? 0 + 1)%Z.
  - now eexists _, [].
  - destruct (train_batches_log G (S len) max_train_steps (seq 1 len)
                (Glue.mk_loop 0 (0 + 1) [(0%nat, 1%nat)]) HG)
      as (s' & more & E & El).
    exists s', more. split; [exact E|exact El].
Qed.

(** **** Claim C2 (the training loop of [main] at the claim's scenario).
    With [gradient_accumulation_steps = 4] and an epoch of 4 batches,
    [main] plans one optimizer step per epoch, hence [max_train_steps = 3]
    for the default 3 epochs.  Its first epoch makes two optimizer steps:
    one at batch 0 after 1 micro-batch and one at batch 3 after 3
    micro-batches; none is made after 4 accumulated micro-batches. *)
Theorem main_steps_accumulation_4_batches_4 :
  Glue.num_update_steps_per_epoch 4 4 = Ok 1%Z /\
  Glue.train_epoch 4 4 (3 * 1) None (Glue.mk_loop 0 0 [])
  = Ok (Glue.mk_loop 0 2 [(0, 1); (3, 3)]%nat).
Proof. split; reflexivity. Qed.

(** ** The training loop of [run_experiment] *)

(** *** Gradient buffers *)

Lemma extends_refl (h : Agni.heap) : extends h h.
Proof. intros a d H. exact H. Qed.

Lemma extends_trans (h1 h2 h3 : Agni.heap) :
  extends h1 h2 -> extends h2 h3 -> extends h1 h3.
Proof. intros H12 H23 a d H. apply H23, H12, H. Qed.

Lemma extends_alloc (h : Agni.heap) (t : tensor) : extends h (h ++ [t]).
Proof.
  intros a d (u & E & L). exists u. split; [|exact L].
  rewrite nth_error_app1; [exact E|].
  apply nth_error_Some. congruence.
Qed.

Lemma nth_error_write_same (h : Agni.heap) (a : nat) (t : tensor) :
  (a < length h)%nat -> nth_error (Agni.write h a t) a = Some t.
Proof.
  revert a. induction h as [|x h IH]; intros [|a] Ha; simpl in *; try lia.
  - reflexivity.
  - apply IH. lia.
Qed.

Lemma nth_error_write_other (h : Agni.heap) (a b : nat) (t : tensor) :
  a <> b -> nth_error (Agni.write h a t) b = nth_error h b.
Proof.
  revert a b. induction h as [|x h IH]; intros [|a] [|b] Hab; simpl;
    try reflexivity; try congruence.
  apply IH. congruence.
Qed.

Lemma has_shape_lt (h : Agni.heap) (a d : nat) :
  has_shape h a d -> (a < length h)%nat.
Proof. intros (t & E & _). apply nth_error_Some. congruence. Qed.

Lemma read_has_shape (h : Agni.heap) (a d : nat) :
  has_shape h a d -> exists t, Agni.read h a = Ok t /\ length t = d.
Proof.
  intros (t & E & L). exists t. unfold Agni.read. now rewrite E.
Qed.

(** Overwriting a buffer with a tensor of its size keeps every size. *)
Lemma extends_write (h : Agni.heap) (a d : nat) (t : tensor) :
  has_shape h a d -> length t = d -> extends h (Agni.write h a t).
Proof.
  intros Ha Lt b e (u & E & L).
  destruct (Nat.eq_dec a b) as [<-|Hne].
  - exists t. split; [apply nth_error_write_same; eapply has_shape_lt; eauto|].
    destruct Ha as (u' & E' & L'). congruence.
  - exists u. now rewrite nth_error_write_other.
Qed.

Lemma wf_param_extends (h h' : Agni.heap) (i : nat) (p : Agni.param) :
  extends h h' -> wf_param h i p -> wf_param h' i p.
Proof.
  intros He [Hg Hs]. split; intros a Ha; apply He; auto.
Qed.

Lemma each_param_impl (P P' : nat -> Agni.param -> Prop) (ps : list Agni.param) :
  forall i, (forall j p, P j p -> P' j p) ->
  each_param P i ps -> each_param P' i ps.
Proof.
  induction ps as [|p ps IH]; intros i HPP' H; cbn in *; [exact I|].
  destruct H as [Hp Hrest]. split; [now apply HPP'|now apply IH].
Qed.

Lemma each_param_and (P P' : nat -> Agni.param -> Prop) (ps : list Agni.param) :
  forall i, each_param P i ps -> each_param P' i ps ->
  each_param (fun j p => P j p /\ P' j p) i ps.
Proof.
  induction ps as [|p ps IH]; intros i H H'; cbn in *; [exact I|].
  destruct H, H'. split; [now split|now apply IH].
Qed.

(** What holds of every parameter and is carried by the pairing holds of
    every new parameter. *)
Lemma each_pair_transport (P P' : nat -> Agni.param -> Prop)
    (Q : nat -> Agni.param -> Agni.param -> Prop) (ps : list Agni.param) :
  forall ps' i,
    (forall j p p', P j p -> Q j p p' -> P' j p') ->
    each_param P i ps -> each_pair Q i ps ps' -> each_param P' i ps'.
Proof.
  induction ps as [|p ps IH]; intros [|p' ps'] i HT HP HQ; cbn in *;
    try contradiction; try exact I.
  destruct HP as [Hp HP], HQ as [Hq HQ].
  split; [now apply (HT i p p')|now apply (IH ps' (S i))].
Qed.

Lemma each_pair_map (Q : nat -> Agni.param -> Agni.param -> Prop)
    (f : Agni.param -> Agni.param) (ps : list Agni.param) :
  forall i, (forall j p, Q j p (f p)) -> each_pair Q i ps (map f ps).
Proof.
  induction ps as [|p ps IH]; intros i HQ; cbn; [exact I|].
  split; [apply HQ|now apply IH].
Qed.

Lemma each_pair_length (Q : nat -> Agni.param -> Agni.param -> Prop)
    (ps : list Agni.param) :
  forall ps' i, each_pair Q i ps ps' -> length ps' = length ps.
Proof.
  induction ps as [|p ps IH]; intros [|p' ps'] i H; cbn in *;
    try contradiction; try reflexivity.
  destruct H as [_ H]. f_equal. now apply (IH ps' (S i)).
Qed.

(** A loop over the parameters whose body keeps the buffers well-formed. *)
Lemma for_params_spec
    (body : nat -> Agni.heap -> Agni.param -> result (Agni.heap * Agni.param))
    (Pre : nat -> Agni.param -> Prop)
    (Post : nat -> Agni.param -> Agni.param -> Prop) :
  (forall i h p, wf_param h i p -> Pre i p ->
     exists h' p', body i h p = Ok (h', p') /\ extends h h' /\
                   wf_param h' i p' /\ Post i p p') ->
  forall ps i h,
    each_param (wf_param h) i ps -> each_param Pre i ps ->
    exists h' ps', Agni.for_params body i ps h = Ok (h', ps') /\
      extends h h' /\ each_param (wf_param h') i ps' /\
      each_pair Post i ps ps'.
Proof.
  intros Hbody. induction ps as [|p ps IH]; intros i h Hwf Hpre.
  - exists h, []. cbn. repeat split. apply extends_refl.
  - cbn in Hwf, Hpre. destruct Hwf as [Hwp Hwf], Hpre as [Hpp Hpre].
    destruct (Hbody i h p Hwp Hpp) as (h1 & p1 & E1 & X1 & W1 & Q1).
    assert (Hwf1 : each_param (wf_param h1) (S i) ps).
    { revert Hwf. apply each_param_impl. intros j q.
      now apply wf_param_extends. }
    destruct (IH (S i) h1 Hwf1 Hpre) as (h2 & ps2 & E2 & X2 & W2 & Q2).
    exists h2, (p1 :: ps2). cbn [Agni.for_params]. rewrite E1.
    cbn [Py.bind]. rewrite E2. cbn [Py.bind].
    split; [reflexivity|]. split; [now apply (extends_trans h h1 h2)|].
    split; cbn; split; try assumption.
    now apply (wf_param_extends h1 h2).
Qed.

Lemma each_pair_trans (Q1 Q2 Q3 : nat -> Agni.param -> Agni.param -> Prop)
    (ps1 : list Agni.param) :
  forall ps2 ps3 i,
    (forall j a b c, Q1 j a b -> Q2 j b c -> Q3 j a c) ->
    each_pair Q1 i ps1 ps2 -> each_pair Q2 i ps2 ps3 -> each_pair Q3 i ps1 ps3.
Proof.
  induction ps1 as [|a ps1 IH]; intros [|b ps2] [|c ps3] i HT H12 H23;
    cbn in *; try contradiction; try exact I.
  destruct H12 as [Ha H12], H23 as [Hb H23].
  split; [now apply (HT i a b c)|now apply (IH ps2 ps3 (S i))].
Qed.

Lemma each_pair_refl (Q : nat -> Agni.param -> Agni.param -> Prop)
    (ps : list Agni.param) :
  forall i, (forall j p, Q j p p) -> each_pair Q i ps ps.
Proof.
  induction ps as [|p ps IH]; intros i HQ; cbn; [exact I|].
  split; [apply HQ|now apply IH].
Qed.

Lemma each_param_index (P : nat -> Prop) (ps : list Agni.param) :
  forall i, (forall j, (i <= j < i + length ps)%nat -> P j) ->
  each_param (fun j _ => P j) i ps.
Proof.
  induction ps as [|p ps IH]; intros i HP; cbn in *; [exact I|].
  split; [apply HP; lia|]. apply IH. intros j Hj. apply HP. lia.
Qed.

(** *** The shape of the variance, for arbitrary entries *)

Lemma update_shape (d : nat) (st : Agni.VarianceState) (m q x : tensor) :
  Agni.mean st = Some m -> Agni.M2 st = Some q ->
  length m = d -> length q = d -> length x = d ->
  exists m' q',
    Agni.update st x = Ok (Agni.mk_state (S (Agni.n st)) (Some m') (Some q')) /\
    length m' = d /\ length q' = d.
Proof.
  intros Hm Hq Lm Lq Lx. unfold Agni.update. rewrite Hm, Hq.
  rewrite (broadcast_same fsub) by congruence. cbn [Py.bind].
  set (delta := zip_with fsub x m).
  assert (Ld : length delta = d)
    by (unfold delta; rewrite zip_with_length; congruence).
  rewrite iadd_same by (rewrite length_map; congruence).
  cbn [Py.bind].
  set (mean' := zip_with fadd m _).
  assert (Lm' : length mean' = d).
  { unfold mean'. rewrite zip_with_length; [congruence|].
    rewrite length_map. congruence. }
  rewrite (broadcast_same fsub) by congruence. cbn [Py.bind].
  set (delta2 := zip_with fsub x mean').
  assert (Ld2 : length delta2 = d)
    by (unfold delta2; rewrite zip_with_length; congruence).
  rewrite (broadcast_same fmul) by congruence. cbn [Py.bind].
  assert (Li : length (zip_with fmul delta delta2) = d)
    by (rewrite zip_with_length; congruence).
  rewrite iadd_same by congruence.
  cbn [Py.bind]. eexists _, _. split; [reflexivity|]. split; [exact Lm'|].
  rewrite zip_with_length; congruence.
Qed.

Lemma for_each_update_shape (d : nat) (xs : list tensor) :
  forall (st : Agni.VarianceState) (m q : tensor),
    Agni.mean st = Some m -> Agni.M2 st = Some q ->
    length m = d -> length q = d ->
    Forall (fun x => length x = d) xs ->
    exists st' q',
      for_each Agni.update xs st = Ok st' /\
      Agni.M2 st' = Some q' /\ length q' = d.
Proof.
  induction xs as [|x xs IH]; intros st m q Hm Hq Lm Lq Hall.
  - exists st, q. now repeat split.
  - apply Forall_cons_iff in Hall. destruct Hall as [Lx Hall].
    destruct (update_shape d st m q x Hm Hq Lm Lq Lx) as (m' & q' & E & Lm' & Lq').
    cbn [for_each]. rewrite E. cbn [Py.bind].
    apply (IH _ m' q'); auto.
Qed.

(** The variance of a non-empty list of tensors of one size has that size,
    whatever the entries. *)
Lemma compute_variance_online_shape (d : nat) (xs : list tensor) :
  xs <> [] -> Forall (fun x => length x = d) xs ->
  exists v, Agni.compute_variance_online xs = Ok v /\ length v = d.
Proof.
  intros Hne Hall. destruct xs as [|x xs]; [congruence|].
  pose proof Hall as Hall0. apply Forall_cons_iff in Hall0.
  destruct Hall0 as [Lx _].
  unfold Agni.compute_variance_online. cbn [for_each].
  rewrite update_empty_state, Lx.
  destruct (for_each_update_shape d (x :: xs) (zero_state d)
              (repeat (Fin 0) d) (repeat (Fin 0) d) eq_refl eq_refl
              (repeat_length _ _) (repeat_length _ _) Hall)
    as (st' & q' & E & Hq' & Lq').
  cbn [for_each] in E. rewrite E. cbn [Py.bind].
  unfold Agni.finalize. rewrite Hq'.
  eexists. split; [reflexivity|].
  destruct (Nat.ltb 1 (Agni.n st')); [rewrite length_map|]; exact Lq'.
Qed.

Lemma inject_noise_shape (eta : R) (draw : nat -> R) (g v : tensor) :
  length v = length g ->
  exists g', Agni.inject_noise eta draw g v = Ok g' /\ length g' = length g.
Proof.
  intros Hlen. unfold Agni.inject_noise, Agni.view.
  rewrite Hlen, Nat.eqb_refl. cbn [Py.bind].
  assert (Lr : length (Agni.randn_like draw g) = length g).
  { unfold Agni.randn_like. now rewrite length_map, length_seq. }
  assert (Ls : length (Agni.noise_scale eta v (norm g)) = length g).
  { unfold Agni.noise_scale. now rewrite length_map. }
  rewrite (broadcast_same fmul) by congruence. cbn [Py.bind].
  rewrite iadd_same by (rewrite zip_with_length; congruence).
  eexists. split; [reflexivity|].
  rewrite zip_with_length; [reflexivity|].
  rewrite zip_with_length; congruence.
Qed.

(** *** The bodies of the loops over the parameters *)

Lemma backward_param_spec (d : tensor) (i : nat) (h : Agni.heap)
    (p : Agni.param) :
  wf_param h i p -> length d = shape i ->
  exists h' p', Agni.backward_param d h p = Ok (h', p') /\ extends h h' /\
    wf_param h' i p' /\
    (Agni.grad p' <> None /\ Agni.snapshots p' = Agni.snapshots p).
Proof.
  intros [Hg Hs] Ld. unfold Agni.backward_param.
  destruct (Agni.grad p) as [a|] eqn:Eg.
  - destruct (read_has_shape h a (shape i) (Hg a eq_refl)) as (g & Er & Lg).
    rewrite Er. cbn [Py.bind]. rewrite iadd_same by congruence.
    cbn [Py.bind]. eexists _, _. split; [reflexivity|].
    assert (X : extends h (Agni.write h a (zip_with fadd g d))).
    { apply (extends_write h a (shape i)); [now apply Hg|].
      rewrite zip_with_length; congruence. }
    split; [exact X|]. split.
    + apply (wf_param_extends h); [exact X|]. split; [|exact Hs].
      intros b Hb. apply Hg. congruence.
    + split; [congruence|reflexivity].
  - eexists _, _. split; [reflexivity|].
    split; [apply extends_alloc|]. split.
    + split; cbn [Agni.grad Agni.snapshots].
      * intros a Ha. inversion Ha; subst a. exists d. split; [|exact Ld].
        rewrite nth_error_app2 by lia. now rewrite Nat.sub_diag.
      * intros a Ha. apply (extends_alloc h d). now apply Hs.
    + split; [discriminate|reflexivity].
Qed.

Lemma collect_spec (h : Agni.heap) (i : nat) (p : Agni.param) :
  wf_param h i p -> Agni.grad p <> None ->
  wf_param h i (Agni.collect p) /\
  Agni.grad (Agni.collect p) = Agni.grad p /\
  Agni.snapshots (Agni.collect p) <> [] /\
  length (Agni.snapshots (Agni.collect p)) = S (length (Agni.snapshots p)).
Proof.
  intros [Hg Hs] Hne. unfold Agni.collect.
  destruct (Agni.grad p) as [a|] eqn:Eg; [|congruence].
  cbn [Agni.grad Agni.snapshots]. repeat split.
  - intros b Hb. cbn in Hb. apply Hg. exact Hb.
  - intros b Hb. cbn in Hb. apply in_app_or in Hb.
    destruct Hb as [Hb|[<-|[]]].
    + now apply Hs.
    + now apply Hg.
  - intros C. apply app_eq_nil in C. destruct C as [_ C]. discriminate C.
  - rewrite length_app. simpl. lia.
Qed.

Lemma read_all_spec (h : Agni.heap) (d : nat) (addrs : list nat) :
  (forall a, In a addrs -> has_shape h a d) ->
  exists ts, Agni.read_all h addrs = Ok ts /\
    length ts = length addrs /\ Forall (fun t => length t = d) ts.
Proof.
  induction addrs as [|a addrs IH]; intros Hall.
  - exists []. repeat split. constructor.
  - destruct (read_has_shape h a d (Hall a (or_introl eq_refl)))
      as (t & Er & Lt).
    destruct IH as (ts & E & Lts & Hts);
      [intros b Hb; apply Hall; now right|].
    exists (t :: ts). cbn [Agni.read_all]. rewrite Er. cbn [Py.bind].
    rewrite E. cbn [Py.bind]. repeat split.
    + simpl. now rewrite Lts.
    + now constructor.
Qed.

Lemma inject_param_spec (eta : R) (draw : nat -> R) (i : nat) (h : Agni.heap)
    (p : Agni.param) :
  wf_param h i p -> Agni.grad p <> None /\ Agni.snapshots p <> [] ->
  exists h' p', Agni.inject_param eta draw h p = Ok (h', p') /\ extends h h' /\
    wf_param h' i p' /\ Agni.snapshots p' = [].
Proof.
  intros [Hg Hs] [Hne Hsn]. unfold Agni.inject_param.
  destruct (Agni.grad p) as [a|] eqn:Eg; [|congruence].
  destruct (read_all_spec h (shape i) (Agni.snapshots p) Hs)
    as (ts & Ea & Lts & Hts).
  rewrite Ea. cbn [Py.bind].
  assert (Hts_ne : ts <> []).
  { destruct ts; [|discriminate]. destruct (Agni.snapshots p);
      [congruence|discriminate]. }
  destruct (compute_variance_online_shape (shape i) ts Hts_ne Hts)
    as (v & Ev & Lv).
  rewrite Ev. cbn [Py.bind].
  destruct (read_has_shape h a (shape i) (Hg a eq_refl)) as (g & Er & Lg).
  rewrite Er. cbn [Py.bind].
  destruct (inject_noise_shape eta draw g v ltac:(congruence))
    as (g' & Ei & Lg').
  rewrite Ei. cbn [Py.bind].
  eexists _, _. split; [reflexivity|].
  assert (X : extends h (Agni.write h a g')).
  { apply (extends_write h a (shape i)); [now apply Hg|congruence]. }
  split; [exact X|]. split; [|reflexivity].
  split; cbn [Agni.grad Agni.snapshots].
  - intros b Hb. apply X, Hg. exact Hb.
  - intros b [].
Qed.

Lemma zero_grad_param_spec (flag : bool) (i : nat) (h : Agni.heap)
    (p : Agni.param) :
  wf_param h i p ->
  exists h' p', Agni.zero_grad_param flag h p = Ok (h', p') /\ extends h h' /\
    wf_param h' i p' /\ Agni.snapshots p' = Agni.snapshots p.
Proof.
  intros [Hg Hs]. unfold Agni.zero_grad_param.
  destruct (Agni.grad p) as [a|] eqn:Eg.
  - destruct flag.
    + eexists _, _. split; [reflexivity|]. split; [apply extends_refl|].
      split; [|reflexivity]. split; cbn [Agni.grad Agni.snapshots].
      * discriminate.
      * exact Hs.
    + destruct (read_has_shape h a (shape i) (Hg a eq_refl)) as (g & Er & Lg).
      rewrite Er. cbn [Py.bind]. eexists _, _. split; [reflexivity|].
      assert (X : extends h (Agni.write h a (zeros_like g))).
      { apply (extends_write h a (shape i)); [now apply Hg|].
        unfold zeros_like. now rewrite length_map. }
      split; [exact X|]. split; [|reflexivity].
      apply (wf_param_extends h); [exact X|]. split; [|exact Hs].
      intros b Hb. apply Hg. congruence.
  - eexists _, _. split; [reflexivity|]. split; [apply extends_refl|].
    split; [|reflexivity]. split; [|exact Hs].
    intros b Hb. congruence.
Qed.

(** The effective step size is computed without an error, and the state it
    returns differs from its argument in the record only. *)
Lemma record_effective_step_total (rate : R) (s : Agni.train_state) :
  each_param (wf_param (Agni.buffers s)) 0 (Agni.parameters s) ->
  exists x, Agni.record_effective_step rate s
    = Ok (x, Agni.mk_train (Agni.buffers s) (Agni.parameters s)
               (Agni.effective_step_sizes s ++ [x]) (Agni.optimizer_steps s)).
Proof.
  intros Hwf. unfold Agni.record_effective_step.
  assert (H : forall ps i acc, each_param (wf_param (Agni.buffers s)) i ps ->
            exists x, for_each (Agni.add_effective_step rate (Agni.buffers s))
                        ps acc = Ok x).
  { induction ps as [|p ps IH]; intros i acc Hps.
    - now exists acc.
    - destruct Hps as [[Hg _] Hps]. cbn [for_each].
      unfold Agni.add_effective_step at 1.
      destruct (Agni.grad p) as [a|].
      + destruct (read_has_shape _ a _ (Hg a eq_refl)) as (g & Er & _).
        rewrite Er. cbn [Py.bind]. now apply (IH (S i)).
      + cbn [Py.bind]. now apply (IH (S i)). }
  destruct (H (Agni.parameters s) 0%nat (Fin 0) Hwf) as (x & E).
  exists x. rewrite E. reflexivity.
Qed.

Lemma each_param_map (P P' : nat -> Agni.param -> Prop)
    (f : Agni.param -> Agni.param) (ps : list Agni.param) :
  forall i, (forall j p, P j p -> P' j (f p)) ->
  each_param P i ps -> each_param P' i (map f ps).
Proof.
  induction ps as [|p ps IH]; intros i Hf H; cbn in *; [exact I|].
  destruct H as [Hp H]. split; [now apply Hf|now apply IH].
Qed.

Lemma each_pair_map_if (P : nat -> Agni.param -> Prop)
    (Q : nat -> Agni.param -> Agni.param -> Prop)
    (f : Agni.param -> Agni.param) (ps : list Agni.param) :
  forall i, (forall j p, P j p -> Q j p (f p)) ->
  each_param P i ps -> each_pair Q i ps (map f ps).
Proof.
  induction ps as [|p ps IH]; intros i Hf H; cbn in *; [exact I|].
  destruct H as [Hp H]. split; [now apply Hf|now apply IH].
Qed.

(** *** One iteration *)

Lemma iteration_spec (env : Agni.environment) (mode : bool) (G : Z) (eta : R)
    (s : Agni.train_state) (epoch : nat) :
  well_shaped env -> G <> 0%Z -> run_inv s ->
  exists s', Agni.iteration env mode G eta s epoch = Ok s' /\ run_inv s' /\
    (exists more,
       Agni.effective_step_sizes s' = Agni.effective_step_sizes s ++ more /\
       length more = if boundary G epoch then 1%nat else 0%nat) /\
    Agni.optimizer_steps s'
    = (Agni.optimizer_steps s + if boundary G epoch then 1 else 0)%nat /\
    (mode = false ->
     each_pair grows_by_one 0 (Agni.parameters s) (Agni.parameters s')) /\
    (mode = true -> boundary G epoch = true ->
     each_param (fun _ p => Agni.snapshots p = []) 0 (Agni.parameters s')).
Proof.
  intros Hshape HG [Hlen Hwf]. unfold Agni.iteration.
  (* loss.backward() *)
  destruct (for_params_spec
              (fun i => Agni.backward_param (Agni.dloss env epoch i))
              (fun i _ => length (Agni.dloss env epoch i) = shape i)
              (fun _ p p' => Agni.grad p' <> None
                             /\ Agni.snapshots p' = Agni.snapshots p))
    with (ps := Agni.parameters s) (i := 0%nat) (h := Agni.buffers s)
    as (h1 & ps1 & E1 & X1 & W1 & Q1).
  { intros i h p Hw Hd. now apply backward_param_spec. }
  { exact Hwf. }
  { apply (each_param_index
             (fun i => length (Agni.dloss env epoch i) = shape i)).
    intros j Hj. apply Hshape. lia. }
  rewrite E1. cbn [Py.bind].
  assert (L1 : length ps1 = length Agni.model_parameters).
  { rewrite (each_pair_length _ _ _ _ Q1). exact Hlen. }
  assert (G1 : each_param (fun j p => wf_param h1 j p /\ Agni.grad p <> None)
                 0 ps1).
  { apply each_param_and; [exact W1|].
    apply (each_pair_transport (fun _ _ => True) _ _ _ _ 0%nat) with (3 := Q1).
    - intros j p p' _ [Hn _]. exact Hn.
    - apply (each_param_index (fun _ => True)). intros; exact I. }
  (* the snapshots *)
  set (ps2 := map Agni.collect ps1).
  assert (W2 : each_param (wf_param h1) 0 ps2).
  { apply (each_param_map _ _ _ _ 0%nat) with (2 := G1).
    intros j p [Hw Hn]. now apply collect_spec. }
  assert (N2 : each_param (fun _ p => Agni.grad p <> None
                                      /\ Agni.snapshots p <> []) 0 ps2).
  { apply (each_param_map _ _ _ _ 0%nat) with (2 := G1).
    intros j p [Hw Hn]. destruct (collect_spec h1 j p Hw Hn) as (_ & Eg & Hs & _).
    split; [congruence|exact Hs]. }
  assert (Q2 : each_pair grows_by_one 0 (Agni.parameters s) ps2).
  { apply (each_pair_trans _ grows_by_one _ _ ps1 ps2 0%nat) with (2 := Q1).
    - intros j a b c [_ Hab] Hbc. unfold grows_by_one in *. congruence.
    - apply (each_pair_map_if _ _ _ _ 0%nat) with (2 := G1).
      intros j p [Hw Hn]. apply (collect_spec h1 j p Hw Hn). }
  assert (L2 : length ps2 = length Agni.model_parameters)
    by (unfold ps2; now rewrite length_map).
  rewrite (proj2 (Z.eqb_neq G 0) HG).
  fold (boundary G epoch). destruct (boundary G epoch) eqn:Eb.
  - (* an accumulation boundary *)
    assert (Hinj : exists h3 ps3,
               (if mode
                then Agni.for_params
                       (fun i => Agni.inject_param eta (Agni.randn env epoch i))
                       0 ps2 h1
                else Ok (h1, ps2)) = Ok (h3, ps3) /\
               each_param (wf_param h3) 0 ps3 /\
               length ps3 = length Agni.model_parameters /\
               (mode = false -> ps3 = ps2) /\
               (mode = true ->
                each_param (fun _ p => Agni.snapshots p = []) 0 ps3)).
    { destruct mode.
      - destruct (for_params_spec
                    (fun i => Agni.inject_param eta (Agni.randn env epoch i))
                    (fun _ p => Agni.grad p <> None /\ Agni.snapshots p <> [])
                    (fun _ _ p' => Agni.snapshots p' = []))
          with (ps := ps2) (i := 0%nat) (h := h1)
          as (h3 & ps3 & E3 & X3 & W3 & Q3).
        { intros i h p Hw Hp. now apply inject_param_spec. }
        { exact W2. }
        { exact N2. }
        exists h3, ps3. split; [exact E3|]. split; [exact W3|].
        split; [rewrite (each_pair_length _ _ _ _ Q3); exact L2|].
        split; [discriminate|]. intros _.
        apply (each_pair_transport (fun _ _ => True) _ _ _ _ 0%nat)
          with (3 := Q3).
        + intros j p p' _ Hp. exact Hp.
        + apply (each_param_index (fun _ => True)). intros; exact I.
      - exists h1, ps2. repeat split; try assumption. discriminate. }
    destruct Hinj as (h3 & ps3 & E3 & W3 & L3 & M3f & M3t).
    rewrite E3. cbn [Py.bind].
    destruct (record_effective_step_total (Agni.lr env)
                (Agni.mk_train h3 ps3 (Agni.effective_step_sizes s)
                   (Agni.optimizer_steps s)) W3) as (x & E4).
    rewrite E4.
    cbn [Py.bind Agni.buffers Agni.parameters Agni.effective_step_sizes
         Agni.optimizer_steps].
    destruct (for_params_spec
                (fun _ => Agni.zero_grad_param (Agni.set_to_none env))
                (fun _ _ => True) same_snapshots)
      with (ps := ps3) (i := 0%nat) (h := h3)
      as (h5 & ps5 & E5 & X5 & W5 & Q5).
    { intros i h p Hw _. now apply zero_grad_param_spec. }
    { exact W3. }
    { apply (each_param_index (fun _ => True)). intros; exact I. }
    rewrite E5. cbn [Py.bind].
    eexists. split; [reflexivity|].
    cbn [Agni.buffers Agni.parameters Agni.effective_step_sizes
         Agni.optimizer_steps].
    split; [split; cbn [Agni.buffers Agni.parameters]; [|exact W5]|].
    { rewrite (each_pair_length _ _ _ _ Q5). exact L3. }
    split; [exists [x]; now split|]. split; [lia|]. split.
    + intros Hm. rewrite (M3f Hm) in Q5.
      apply (each_pair_trans grows_by_one same_snapshots _ _ ps2 ps5 0%nat)
        with (2 := Q2) (3 := Q5).
      intros j a b c Hab Hbc. unfold grows_by_one, same_snapshots in *.
      congruence.
    + intros Hm _.
      apply (each_pair_transport _ _ same_snapshots _ _ 0%nat)
        with (2 := M3t Hm) (3 := Q5).
      intros j p p' Hp Hq. unfold same_snapshots in Hq. congruence.
  - (* inside a window *)
    eexists. split; [reflexivity|].
    cbn [Agni.buffers Agni.parameters Agni.effective_step_sizes
         Agni.optimizer_steps].
    split; [split; cbn [Agni.buffers Agni.parameters]; assumption|].
    split; [exists []; split; [now rewrite app_nil_r|reflexivity]|].
    split; [lia|]. split; [intros _; exact Q2|discriminate].
Qed.

(** *** The whole run *)

Lemma for_each_app {S A : Type} (body : S -> A -> result S) (xs ys : list A)
    (s : S) :
  for_each body (xs ++ ys) s
  = (s' <- for_each body xs s ;; for_each body ys s').
Proof.
  revert s. induction xs as [|x xs IH]; intros s; cbn [app for_each Py.bind].
  - reflexivity.
  - destruct (body s x) as [s1|e]; cbn [Py.bind]; [apply IH|reflexivity].
Qed.

Lemma run_inv_initial : run_inv Agni.initial_state.
Proof.
  split; [reflexivity|]. cbn.
  repeat split; intros a Ha; try discriminate Ha; destruct Ha.
Qed.

Lemma each_param_Forall (P : Agni.param -> Prop) (ps : list Agni.param) :
  forall i, each_param (fun _ p => P p) i ps -> Forall P ps.
Proof.
  induction ps as [|p ps IH]; intros i H; [constructor|].
  destruct H as [Hp H]. constructor; [exact Hp|now apply (IH (S i))].
Qed.

(** For a non-zero accumulation length and gradients of the right sizes the
    loop raises nothing, with or without noise injection.  After [k]
    micro-batches the record has one entry per optimizer step, one step was
    made per closed window, and without noise injection every snapshot list
    has [k] entries. *)
Lemma run_spec (env : Agni.environment) (mode : bool) (G : Z) (eta : R) :
  well_shaped env -> G <> 0%Z ->
  forall k, exists s,
    Agni.run env mode k G eta = Ok s /\ run_inv s /\
    length (Agni.effective_step_sizes s) = boundaries G k /\
    Agni.optimizer_steps s = boundaries G k /\
    (mode = false ->
     each_param (fun _ p => length (Agni.snapshots p) = k) 0
       (Agni.parameters s)).
Proof.
  intros Hshape HG. induction k as [|k (s & E & Hinv & Hrec & Hsteps & Hsnap)].
  - exists Agni.initial_state. split; [reflexivity|].
    split; [apply run_inv_initial|]. repeat split.
  - destruct (iteration_spec env mode G eta s k Hshape HG Hinv)
      as (s' & E' & Hinv' & (more & Emore & Lmore) & Hsteps' & Hgrow & _).
    exists s'. unfold Agni.run in *. rewrite seq_S, for_each_app, E.
    cbn [Py.bind Nat.add for_each]. rewrite E'. cbn [Py.bind].
    split; [reflexivity|]. split; [exact Hinv'|].
    cbn [boundaries]. split; [|split].
    + rewrite Emore, length_app, Hrec, Lmore. reflexivity.
    + rewrite Hsteps', Hsteps. reflexivity.
    + intros Hm.
      apply (each_pair_transport _ _ grows_by_one _ _ 0%nat)
        with (2 := Hsnap Hm) (3 := Hgrow Hm).
      intros j p p' Hp Hq. unfold grows_by_one in Hq. congruence.
Qed.

(** With a positive accumulation length, [k] micro-batches close
    [k / gradient_accumulation_steps] windows. *)
Lemma boundaries_div (G : Z) (k : nat) :
  (0 < G)%Z -> Z.of_nat (boundaries G k) = (Z.of_nat k / G)%Z.
Proof.
  intros HG. induction k as [|k IH].
  - reflexivity.
  - cbn [boundaries]. rewrite Nat2Z.inj_add, IH. unfold boundary.
    replace (Z.of_nat (k + 1)) with (Z.of_nat k + 1)%Z by lia.
    replace (Z.of_nat (S k)) with (Z.of_nat k + 1)%Z by lia.
    pose proof (Z.div_mod (Z.of_nat k) G ltac:(lia)) as Hk.
    pose proof (Z.mod_pos_bound (Z.of_nat k) G HG) as Hr.
    set (q := (Z.of_nat k / G)%Z) in *. set (r := (Z.of_nat k mod G)%Z) in *.
    destruct (Z.eqb_spec ((Z.of_nat k + 1) mod G) 0) as [Hz|Hnz].
    + apply (Z.div_unique_pos _ _ _ 0); [lia|].
      assert (Hr1 : r = (G - 1)%Z).
      { assert (H1 : ((r + 1) mod G = 0)%Z).
        { rewrite <- Hz. rewrite Hk.
          replace (G * q + r + 1)%Z with ((r + 1) + q * G)%Z by ring.
          now rewrite Z.mod_add by lia. }
        destruct (Z.eq_dec (r + 1) G) as [|Hne]; [lia|].
        rewrite Z.mod_small in H1 by lia. lia. }
      cbn [Z.of_nat]. nia.
    + apply (Z.div_unique_pos _ _ _ (r + 1)); [|cbn [Z.of_nat]; nia].
      destruct (Z.eq_dec (r + 1) G) as [He|Hne]; [|lia].
      exfalso. apply Hnz. rewrite Hk.
      replace (G * q + r + 1)%Z with (0 + (q + 1) * G)%Z by nia.
      now rewrite Z.mod_add by lia.
Qed.

(** **** Claim C10.
    Without noise injection, for every non-zero accumulation length and
    every number [k] of micro-batches, the loop reaches the state after [k]
    micro-batches and the snapshot list of each of the four parameters has
    exactly [k] entries there: the lists are never cleared. *)
Theorem snapshots_never_cleared_without_noise :
  forall (env : Agni.environment) (G : Z) (eta : R) (k : nat),
    well_shaped env -> G <> 0%Z ->
    exists s,
      Agni.run env false k G eta = Ok s /\
      length (Agni.parameters s) = 4%nat /\
      Forall (fun p => length (Agni.snapshots p) = k) (Agni.parameters s).
Proof.
  intros env G eta k Hshape HG.
  destruct (run_spec env false G eta Hshape HG k)
    as (s & E & [Hlen _] & _ & _ & Hsnap).
  exists s. split; [exact E|]. split; [exact Hlen|].
  apply (each_param_Forall _ _ 0%nat). now apply Hsnap.
Qed.

(** With 4 micro-batches, accumulation length 4 and no noise injection the
    loop of [run_experiment] makes one optimizer step and returns a record
    of exactly one entry. *)
Lemma run_experiment_one_step (env : Agni.environment) (eta : R) :
  well_shaped env ->
  exists x : scalar,
    Agni.run_experiment env false 4 4 eta = Ok [x] /\
    exists s, Agni.run env false 4 4 eta = Ok s /\
              Agni.optimizer_steps s = 1%nat.
Proof.
  intros Hshape.
  destruct (run_spec env false 4 eta Hshape ltac:(discriminate) 4)
    as (s & E & _ & Hrec & Hsteps & _).
  change (boundaries 4 4) with 1%nat in *.
  unfold Agni.run_experiment. rewrite E. cbn [Py.bind].
  destruct (Agni.effective_step_sizes s) as [|x [|? ?]]; try discriminate.
  exists x. split; [reflexivity|]. now exists s.
Qed.

(** ** The effective step size *)

Lemma add_effective_steps (rate : R) (h : Agni.heap) (ps : list Agni.param)
    (gs : list (option (list R))) :
  Forall2 (fun p og =>
             match Agni.grad p, og with
             | None, None => True
             | Some a, Some g => nth_error h a = Some (of_reals g)
             | _, _ => False
             end) ps gs ->
  forall acc : R,
    for_each (Agni.add_effective_step rate h) ps (Fin acc)
    = Ok (Fin (acc + effective_step rate gs)).
Proof.
  induction 1 as [|p og ps gs Hp Hrest IH]; intros acc.
  - cbn. unfold effective_step, Rsum. cbn. now rewrite Rplus_0_r.
  - cbn [for_each]. unfold Agni.add_effective_step at 1.
    destruct (Agni.grad p) as [a|], og as [g|]; try contradiction.
    + unfold Agni.read. rewrite Hp. cbn [Py.bind].
      rewrite norm_of_reals. cbn [fmul fadd lift2]. rewrite IH.
      unfold effective_step, Rsum. cbn [non_null map fold_right].
      do 2 f_equal. ring.
    + cbn [Py.bind]. rewrite IH. reflexivity.
Qed.

(** **** Claim C7.
    On real-valued gradients, recording the effective step size returns the
    sum over the parameters with a gradient of [lr] times the L2 norm of
    the gradient, appends exactly this scalar to the record, and leaves the
    gradient buffers, the parameters and the step count as they were.  In a
    run of [k] micro-batches, with or without noise injection, the record
    has exactly one entry per optimizer step made. *)
Theorem record_effective_step_spec :
  forall (rate : R) (s : Agni.train_state) (gs : list (option (list R)))
         (env : Agni.environment) (mode : bool) (G : Z) (eta : R) (k : nat),
    gradients_are s gs -> well_shaped env -> G <> 0%Z ->
    Agni.record_effective_step rate s
    = Ok (Fin (effective_step rate gs),
          Agni.mk_train (Agni.buffers s) (Agni.parameters s)
            (Agni.effective_step_sizes s ++ [Fin (effective_step rate gs)])
            (Agni.optimizer_steps s)) /\
    exists s_k,
      Agni.run env mode k G eta = Ok s_k /\
      length (Agni.effective_step_sizes s_k) = Agni.optimizer_steps s_k.
Proof.
  intros rate s gs env mode G eta k Hgs Hshape HG. split.
  - unfold Agni.record_effective_step.
    rewrite (add_effective_steps rate _ _ gs Hgs 0). cbn [Py.bind].
    now rewrite Rplus_0_l.
  - destruct (run_spec env mode G eta Hshape HG k)
      as (s_k & E & _ & Hrec & Hsteps & _).
    exists s_k. split; [exact E|congruence].
Qed.

(** ** Instances *)

Lemma example_env_well_shaped : well_shaped example_env.
Proof. intros epoch i Hi. apply repeat_length. Defined.


Lemma reachable_variance_state_invariant_witness :
  reachable 1 Agni.empty_state /\
  exists st', Agni.update Agni.empty_state (of_reals [2]) = Ok st' /\
              reachable 1 st' /\ Agni.n st' = 1%nat.
Proof.
  split; [apply reach_empty|].
  destruct (proj2 (proj2 (reachable_variance_state_invariant 1
                            Agni.empty_state (reach_empty 1)))
              [2] eq_refl) as (st' & E & Hr & Hn & _).
  exists st'. split; [exact E|]. split; [exact Hr|exact Hn].
Defined.

Lemma inject_noise_eta_zero_identity_witness :
  length [4; 9] = length [1; 2] /\
  Agni.inject_noise 0 (fun _ => 1) (of_reals [1; 2]) (of_reals [4; 9])
  = Ok (of_reals [1; 2]).
Proof.
  split; [reflexivity|].
  exact (proj1 (inject_noise_eta_zero_identity (fun _ => 1) [1; 2] [4; 9]
                  eq_refl)).
Defined.

Lemma inject_noise_never_raises_witness :
  length [-1] = length [1] /\
  exists g' : tensor,
    Agni.inject_noise 1 (fun _ => 0) (of_reals [1]) (of_reals [-1]) = Ok g' /\
    length g' = 1%nat.
Proof.
  split; [reflexivity|].
  destruct (inject_noise_never_raises 1 (fun _ => 0) [1] [-1] eq_refl)
    as (g' & E & L & _).
  exists g'. split; [exact E|exact L].
Defined.

Lemma ensemble_loss_is_cross_entropy_of_mean_witness :
  shape_4_2 [[1; 0]; [0; 1]; [2; 0]; [0; 2]] /\
  shape_4_2 [[3; 1]; [1; 3]; [0; 0]; [1; 1]] /\
  exists ce : R,
    Glue.CrossEntropyLoss
      (mean_logits [[1; 0]; [0; 1]; [2; 0]; [0; 2]]
         [[3; 1]; [1; 3]; [0; 0]; [1; 1]])
      [0; 1; 0; 1]%Z
    = Ok (Fin ce).
Proof.
  assert (H1 : shape_4_2 [[1; 0]; [0; 1]; [2; 0]; [0; 2]])
    by (split; [reflexivity|repeat constructor]).
  assert (H2 : shape_4_2 [[3; 1]; [1; 3]; [0; 0]; [1; 1]])
    by (split; [reflexivity|repeat constructor]).
  split; [exact H1|]. split; [exact H2|].
  destruct (ensemble_loss_is_cross_entropy_of_mean unit
              (fun _ _ => Ok NaN) (fun _ _ => Ok NaN) (fun _ _ => Ok NaN)
              _ _ tt tt None H1 H2 (or_introl eq_refl))
    as (self' & out & ce & _ & _ & _ & _ & E).
  exists ce. exact E.
Defined.

Lemma record_effective_step_spec_witness :
  let s := Agni.mk_train [of_reals [3; 4]]
             [Agni.mk_param (Some 0%nat) []; Agni.mk_param None []] [] 0 in
  gradients_are s [Some [3; 4]; None] /\
  well_shaped example_env /\ 4%Z <> 0%Z /\
  Agni.record_effective_step (1 / 1000) s
  = Ok (Fin (effective_step (1 / 1000) [Some [3; 4]; None]),
        Agni.mk_train (Agni.buffers s) (Agni.parameters s)
          [Fin (effective_step (1 / 1000) [Some [3; 4]; None])] 0).
Proof.
  intros s.
  assert (H1 : gradients_are s [Some [3; 4]; None]).
  { unfold gradients_are. cbn. constructor; [reflexivity|].
    constructor; [exact I|constructor]. }
  assert (H3 : 4%Z <> 0%Z) by discriminate.
  split; [exact H1|]. split; [exact example_env_well_shaped|].
  split; [exact H3|].
  exact (proj1 (record_effective_step_spec (1 / 1000) s [Some [3; 4]; None]
                  example_env true 4 (1 / 100) 8
                  H1 example_env_well_shaped H3)).
Defined.

Lemma adaboost_weighted_average_witness :
  Glue.same_shape [[1; 2]] [[3; 4]] = true /\
  exp 0 / (exp 0 + exp 0) + exp 0 / (exp 0 + exp 0) = 1.
Proof.
  split; [reflexivity|].
  exact (proj1 (proj2 (proj2 (adaboost_weighted_average 0 0 [[1; 2]] [[3; 4]]
                                eq_refl)))).
Defined.

Lemma snapshots_never_cleared_without_noise_witness :
  well_shaped example_env /\ 4%Z <> 0%Z /\
  exists s,
    Agni.run example_env false 8 4 (1 / 100) = Ok s /\
    length (Agni.parameters s) = 4%nat /\
    Forall (fun p => length (Agni.snapshots p) = 8%nat) (Agni.parameters s).
Proof.
  assert (H2 : 4%Z <> 0%Z) by discriminate.
  split; [exact example_env_well_shaped|]. split; [exact H2|].
  exact (snapshots_never_cleared_without_noise example_env 4 (1 / 100) 8
           example_env_well_shaped H2).
Defined.

(** * Further properties of the code *)

(** ** The online variance *)

(** A tensor whose entries are all reals is the image of a list of reals. *)
Lemma tensor_of_entries (P : R -> Prop) (t : tensor) :
  (forall j, (j < length t)%nat -> exists r, nth j t NaN = Fin r /\ P r) ->
  exists v : list R, t = of_reals v /\ Forall P v.
Proof.
  induction t as [|x t IH]; intros H.
  - exists []. split; [reflexivity|constructor].
  - destruct (H 0%nat ltac:(simpl; lia)) as (r & Er & Pr). cbn in Er.
    destruct IH as (v & Ev & Pv).
    { intros j Hj. apply (H (S j)). simpl. lia. }
    exists (r :: v). split; [|now constructor].
    unfold of_reals in *. cbn [map]. now rewrite Er, Ev.
Qed.

(** The loop over a non-empty list of real-valued samples of one shape ends
    in the Welford state of these samples. *)
Lemma welford_run (d : nat) (samples : list (list R)) :
  samples <> [] -> Forall (fun x => length x = d) samples ->
  exists st,
    for_each Agni.update (map of_reals samples) Agni.empty_state = Ok st /\
    welford_inv d samples st.
Proof.
  intros Hne Hall. destruct samples as [|x0 rest]; [congruence|].
  pose proof Hall as Hall0.
  apply Forall_cons_iff in Hall0. destruct Hall0 as [Lx0 _].
  destruct (for_each_update d (x0 :: rest) [] (zero_state d)
              (welford_inv_zero _) Hall) as (st & E & Hinv).
  exists st. split; [|exact Hinv].
  cbn [map for_each] in *. rewrite update_empty_state.
  assert (Lx' : length (of_reals x0) = d)
    by (unfold of_reals; now rewrite length_map).
  now rewrite Lx'.
Qed.

(** **** X1.
    On tensors of one shape, whatever their entries, the online variance
    has that shape; on the empty list it raises TypeError. *)
Theorem compute_variance_online_shape_or_type_error :
  forall (d : nat) (gradients : list tensor),
    Forall (fun x => length x = d) gradients ->
    match gradients with
    | [] =>
        Agni.compute_variance_online gradients
        = Raise (mk_exn TypeError "expected np.ndarray (got NoneType)")
    | _ :: _ =>
        exists v, Agni.compute_variance_online gradients = Ok v /\ length v = d
    end.
Proof.
  intros d gradients Hall. destruct gradients as [|x xs]; [reflexivity|].
  apply compute_variance_online_shape; [discriminate|exact Hall].
Qed.

Lemma variance_of_reals (d : nat) (samples : list (list R)) :
  samples <> [] ->
  Forall (fun x => length x = d) samples ->
  exists v : list R,
    Agni.compute_variance_online (map of_reals samples) = Ok (of_reals v) /\
    length v = d /\ Forall (fun r => 0 <= r) v.
Proof.
  intros Hne Hall.
  destruct (welford_run d samples Hne Hall)
    as (st & E & Hn & m & q & Hm & Hq & Lm & Lq & Hent).
  unfold Agni.compute_variance_online. rewrite E. cbn [Py.bind].
  unfold Agni.finalize. rewrite Hq, Hn.
  set (out := if Nat.ltb 1 (length samples)
             then map (fun v => fdivn v (length samples - 1)) q else q).
  assert (Lout : length out = d).
  { unfold out. destruct (Nat.ltb 1 (length samples));
      [rewrite length_map|]; exact Lq. }
  destruct (tensor_of_entries (fun r => 0 <= r) out) as (v & Ev & Pv).
  { intros j Hj. rewrite Lout in Hj.
    destruct (Hent j Hj) as (mu & s2 & _ & E2 & _ & _ & Hpos).
    unfold out. destruct (Nat.ltb_spec 1 (length samples)) as [Hgt|Hle].
    - rewrite nth_map_lt by lia. rewrite E2. cbn [fdivn].
      eexists. split; [reflexivity|].
      apply Rmult_le_pos; [exact Hpos|]. left. apply Rinv_0_lt_compat.
      apply lt_0_INR. lia.
    - now exists s2. }
  exists v. split; [now rewrite <- Ev|]. split; [|exact Pv].
  rewrite <- Lout, Ev. unfold of_reals. now rewrite length_map.
Qed.

(** **** X2.
    On a non-empty list of real-valued samples of one shape the online
    variance is real-valued and no entry is negative. *)
Theorem compute_variance_online_nonnegative :
  forall (d : nat) (samples : list (list R)),
    samples <> [] ->
    Forall (fun x => length x = d) samples ->
    exists v : list R,
      Agni.compute_variance_online (map of_reals samples) = Ok (of_reals v) /\
      length v = d /\ Forall (fun r => 0 <= r) v.
Proof. exact variance_of_reals. Qed.

(** **** X3.
    With [eta >= 0], the variance of real-valued snapshots followed by the
    injection into a real-valued gradient of the same shape raises nothing
    and yields a real-valued gradient: no NaN is produced. *)
Theorem variance_then_injection_is_real :
  forall (eta : R) (draw : nat -> R) (g : list R) (samples : list (list R)),
    0 <= eta ->
    samples <> [] ->
    Forall (fun x => length x = length g) samples ->
    exists (variance : tensor) (g' : list R),
      Agni.compute_variance_online (map of_reals samples) = Ok variance /\
      Agni.inject_noise eta draw (of_reals g) variance = Ok (of_reals g') /\
      length g' = length g.
Proof.
  intros eta draw g samples Heta Hne Hall.
  destruct (variance_of_reals (length g) samples Hne Hall)
    as (v & Ev & Lv & Pv).
  destruct (inject_noise_entries eta draw g v Lv) as (t & Et & Lt & Hent).
  destruct (tensor_of_entries (fun _ => True) t) as (g' & Eg' & _).
  { intros j Hj. rewrite Lt in Hj. rewrite (Hent j Hj).
    unfold perturbed_entry.
    assert (Hv : 0 <= nth j v 0).
    { rewrite Forall_forall in Pv. apply Pv, nth_In. lia. }
    destruct (Rlt_dec (eta * nth j v 0) 0) as [Hneg|_]; [nra|].
    eexists. now split. }
  exists (of_reals v), g'. split; [exact Ev|]. split; [congruence|].
  rewrite <- Lt, Eg'. unfold of_reals. now rewrite length_map.
Qed.

Lemma Rsum_repeat (c : R) (k : nat) : Rsum (repeat c k) = INR k * c.
Proof.
  induction k as [|k IH]; [cbn; lra|].
  rewrite S_INR. cbn [repeat]. unfold Rsum in *. cbn [fold_right].
  rewrite IH. lra.
Qed.

Lemma column_repeat (j : nat) (x : list R) (k : nat) :
  column j (repeat x k) = repeat (nth j x 0) k.
Proof. unfold column. now rewrite map_repeat. Qed.

(** The variance of copies of one real-valued tensor is the zero tensor. *)
Lemma variance_of_copies (x : list R) (k : nat) :
  Agni.compute_variance_online (repeat (of_reals x) (S k))
  = Ok (of_reals (repeat 0 (length x))).
Proof.
  rewrite <- (map_repeat x (S k) of_reals).
  assert (Hall : Forall (fun y : list R => length y = length x)
                   (repeat x (S k))).
  { apply Forall_forall. intros y Hy. apply repeat_spec in Hy. now subst. }
  destruct (welford_run (length x) (repeat x (S k)) ltac:(discriminate) Hall)
    as (st & E & Hn & m & q & Hm & Hq & Lm & Lq & Hent).
  unfold Agni.compute_variance_online. rewrite E. cbn [Py.bind].
  unfold Agni.finalize. rewrite Hq, Hn, repeat_length.
  assert (Hq0 : forall j, (j < length x)%nat -> nth j q NaN = Fin 0).
  { intros j Hj. destruct (Hent j Hj) as (mu & s2 & _ & E2 & E3 & E4 & _).
    rewrite E2. f_equal.
    rewrite column_repeat, repeat_length in *.
    rewrite map_repeat, Rsum_repeat in E4. rewrite Rsum_repeat in E3.
    assert (Hpos : 0 < INR (S k)) by (apply lt_0_INR; lia).
    assert (Emu : mu = nth j x 0) by nra.
    rewrite E4, Emu. ring. }
  apply f_equal. apply (nth_ext _ _ NaN NaN).
  - unfold of_reals. rewrite length_map, repeat_length.
    destruct (Nat.ltb 1 (S k)); [rewrite length_map|]; exact Lq.
  - intros j Hj.
    assert (Hj' : (j < length x)%nat).
    { destruct (Nat.ltb 1 (S k)); [rewrite length_map in Hj|]; lia. }
    rewrite nth_of_reals by (rewrite repeat_length; exact Hj').
    rewrite nth_repeat_lt by exact Hj'.
    destruct (Nat.ltb 1 (S k)).
    + rewrite nth_map_lt by lia. rewrite (Hq0 j Hj'). cbn [fdivn].
      f_equal. unfold Rdiv. ring.
    + now apply Hq0.
Qed.

(** With a zero variance the injection adds nothing, for every [eta]. *)
Lemma inject_zero_variance (eta : R) (draw : nat -> R) (g : list R) :
  Agni.inject_noise eta draw (of_reals g) (of_reals (repeat 0 (length g)))
  = Ok (of_reals g).
Proof.
  destruct (inject_noise_entries eta draw g (repeat 0 (length g))
              ltac:(now rewrite repeat_length))
    as (g' & E & Lg' & Hent).
  rewrite E. apply f_equal. apply (nth_ext _ _ NaN NaN).
  - unfold of_reals. now rewrite length_map.
  - intros j Hj. rewrite Lg' in Hj. rewrite (Hent j Hj), nth_of_reals by lia.
    unfold perturbed_entry. rewrite nth_repeat_lt by lia.
    rewrite Rmult_0_r. destruct (Rlt_dec 0 0) as [H|_]; [lra|].
    rewrite sqrt_0. f_equal. ring.
Qed.

(** **** X4.
    When every snapshot holds the same real-valued tensor, the online
    variance is the zero tensor and the injection, for every [eta] and
    every noise draw, returns the gradient unchanged. *)
Theorem identical_snapshots_give_no_noise :
  forall (eta : R) (draw : nat -> R) (x g : list R) (k : nat),
    length x = length g ->
    Agni.compute_variance_online (repeat (of_reals x) (S k))
    = Ok (zeros_like (of_reals x)) /\
    Agni.inject_noise eta draw (of_reals g) (zeros_like (of_reals x))
    = Ok (of_reals g).
Proof.
  intros eta draw x g k Hlen.
  assert (Ez : zeros_like (of_reals x) = of_reals (repeat 0 (length x))).
  { rewrite zeros_like_repeat. unfold of_reals.
    now rewrite length_map, map_repeat. }
  rewrite Ez. split; [apply variance_of_copies|].
  rewrite Hlen. apply inject_zero_variance.
Qed.

(** ** Snapshots are views: the injection of [run_experiment] adds nothing *)

Lemma write_same (h : Agni.heap) (a : nat) (t : tensor) :
  nth_error h a = Some t -> Agni.write h a t = h.
Proof.
  revert a. induction h as [|x h IH]; intros [|a] H; cbn in *;
    try discriminate; try reflexivity.
  - congruence.
  - f_equal. now apply IH.
Qed.

Lemma real_heap_write (h : Agni.heap) (a : nat) (x : list R) :
  real_heap h -> real_heap (Agni.write h a (of_reals x)).
Proof.
  unfold real_heap. revert a.
  induction h as [|t h IH]; intros a Hh; [constructor|].
  apply Forall_cons_iff in Hh. destruct Hh as [Ht Hh].
  destruct a as [|a]; cbn; constructor; auto. now exists x.
Qed.

Lemma real_heap_read (h : Agni.heap) (a : nat) (t : tensor) :
  real_heap h -> Agni.read h a = Ok t -> exists x, t = of_reals x.
Proof.
  intros Hh. unfold Agni.read.
  destruct (nth_error h a) as [u|] eqn:E; [|discriminate].
  intros H. inversion H; subst u.
  unfold real_heap in Hh. rewrite Forall_forall in Hh.
  apply Hh. eapply nth_error_In. exact E.
Qed.

Lemma iadd_reals (x y : list R) (t : tensor) :
  iadd (of_reals x) (of_reals y) = Ok t -> exists z, t = of_reals z.
Proof.
  unfold iadd, of_reals. destruct (Nat.eqb _ _).
  - intros H. inversion H; subst t. clear H.
    revert y. induction x as [|a x IH]; intros [|b y]; cbn;
      try (now exists []).
    destruct (IH y) as (z & Ez). exists (a + b :: z). cbn. now rewrite Ez.
  - destruct y as [|b [|? ?]]; cbn; try discriminate.
    intros H. inversion H; subst t. exists (map (fun a => a + b) x).
    rewrite !map_map. reflexivity.
Qed.

(** Loops over the parameters, when they return. *)
Lemma for_params_heap_inv (Hp : Agni.heap -> Prop)
    (body : nat -> Agni.heap -> Agni.param -> result (Agni.heap * Agni.param)) :
  (forall i h p h' p', Hp h -> body i h p = Ok (h', p') -> Hp h') ->
  forall ps i h h' ps',
    Hp h -> Agni.for_params body i ps h = Ok (h', ps') -> Hp h'.
Proof.
  intros Hbody. induction ps as [|p ps IH]; intros i h h' ps' Hh E.
  - cbn in E. now inversion E; subst.
  - cbn [Agni.for_params] in E.
    destruct (body i h p) as [[h1 p1]|e] eqn:E1; [|discriminate].
    cbn [Py.bind] in E.
    destruct (Agni.for_params body (S i) ps h1) as [[h2 ps2]|e] eqn:E2;
      [|discriminate].
    cbn [Py.bind] in E. inversion E; subst.
    apply (IH (S i) h1 h' ps2); [|exact E2]. now apply (Hbody i h p h1 p1).
Qed.

Lemma for_params_Forall2 (Q : Agni.param -> Agni.param -> Prop)
    (body : nat -> Agni.heap -> Agni.param -> result (Agni.heap * Agni.param)) :
  (forall i h p h' p', body i h p = Ok (h', p') -> Q p p') ->
  forall ps i h h' ps',
    Agni.for_params body i ps h = Ok (h', ps') -> Forall2 Q ps ps'.
Proof.
  intros Hbody. induction ps as [|p ps IH]; intros i h h' ps' E.
  - cbn in E. inversion E; subst. constructor.
  - cbn [Agni.for_params] in E.
    destruct (body i h p) as [[h1 p1]|e] eqn:E1; [|discriminate].
    cbn [Py.bind] in E.
    destruct (Agni.for_params body (S i) ps h1) as [[h2 ps2]|e] eqn:E2;
      [|discriminate].
    cbn [Py.bind] in E. inversion E; subst.
    constructor; [now apply (Hbody i h p h1)|now apply (IH (S i) h1 h')].
Qed.

(** A body that looks at the gradient of the parameter only does the same
    to the buffers on parameters with the same gradients. *)
Lemma for_params_same_grads
    (body : nat -> Agni.heap -> Agni.param -> result (Agni.heap * Agni.param)) :
  (forall i h p q h' p',
     Agni.grad q = Agni.grad p -> body i h p = Ok (h', p') ->
     exists q', body i h q = Ok (h', q') /\ Agni.grad q' = Agni.grad p') ->
  forall ps qs i h h' ps',
    map Agni.grad qs = map Agni.grad ps ->
    Agni.for_params body i ps h = Ok (h', ps') ->
    exists qs', Agni.for_params body i qs h = Ok (h', qs') /\
                map Agni.grad qs' = map Agni.grad ps'.
Proof.
  intros Hbody. induction ps as [|p ps IH]; intros [|q qs] i h h' ps' Hg E;
    try discriminate.
  - cbn in E. inversion E; subst. now exists [].
  - cbn [map] in Hg. inversion Hg as [[Hq Hqs]].
    cbn [Agni.for_params] in E.
    destruct (body i h p) as [[h1 p1]|e] eqn:E1; [|discriminate].
    cbn [Py.bind] in E.
    destruct (Agni.for_params body (S i) ps h1) as [[h2 ps2]|e] eqn:E2;
      [|discriminate].
    cbn [Py.bind] in E. inversion E; subst.
    destruct (Hbody i h p q h1 p1 Hq E1) as (q1 & Eq1 & Hq1).
    destruct (IH qs (S i) h1 h' ps2 Hqs E2) as (qs2 & Eqs2 & Hqs2).
    exists (q1 :: qs2). cbn [Agni.for_params]. rewrite Eq1. cbn [Py.bind].
    rewrite Eqs2. cbn [Py.bind map]. split; [reflexivity|congruence].
Qed.

Lemma backward_param_same_grads (d : tensor) (h : Agni.heap)
    (p q : Agni.param) (h' : Agni.heap) (p' : Agni.param) :
  Agni.grad q = Agni.grad p -> Agni.backward_param d h p = Ok (h', p') ->
  exists q', Agni.backward_param d h q = Ok (h', q') /\
             Agni.grad q' = Agni.grad p'.
Proof.
  unfold Agni.backward_param. intros Hq. rewrite Hq.
  destruct (Agni.grad p) as [a|] eqn:Eg.
  - destruct (Agni.read h a) as [g|]; cbn [Py.bind]; [|discriminate].
    destruct (iadd g d) as [g'|]; cbn [Py.bind]; [|discriminate].
    intros H. inversion H; subst. exists q. split; [reflexivity|congruence].
  - intros H. inversion H; subst. eexists. split; reflexivity.
Qed.

Lemma zero_grad_param_same_grads (flag : bool) (h : Agni.heap)
    (p q : Agni.param) (h' : Agni.heap) (p' : Agni.param) :
  Agni.grad q = Agni.grad p -> Agni.zero_grad_param flag h p = Ok (h', p') ->
  exists q', Agni.zero_grad_param flag h q = Ok (h', q') /\
             Agni.grad q' = Agni.grad p'.
Proof.
  unfold Agni.zero_grad_param. intros Hq. rewrite Hq.
  destruct (Agni.grad p) as [a|] eqn:Eg.
  - destruct flag.
    + intros H. inversion H; subst. eexists. split; reflexivity.
    + destruct (Agni.read h a) as [g|]; cbn [Py.bind]; [|discriminate].
      intros H. inversion H; subst. exists q. split; [reflexivity|congruence].
  - intros H. inversion H; subst. exists q. split; [reflexivity|congruence].
Qed.

Lemma add_effective_steps_same_grads (rate : R) (h : Agni.heap)
    (ps : list Agni.param) :
  forall qs acc, map Agni.grad qs = map Agni.grad ps ->
    for_each (Agni.add_effective_step rate h) qs acc
    = for_each (Agni.add_effective_step rate h) ps acc.
Proof.
  induction ps as [|p ps IH]; intros [|q qs] acc Hg; try discriminate;
    [reflexivity|].
  cbn [map] in Hg. inversion Hg as [[Hq Hqs]]. cbn [for_each].
  assert (E : Agni.add_effective_step rate h acc q
              = Agni.add_effective_step rate h acc p)
    by (unfold Agni.add_effective_step; now rewrite Hq).
  rewrite E. destruct (Agni.add_effective_step rate h acc p); cbn [Py.bind];
    [now apply IH|reflexivity].
Qed.

Lemma backward_param_noisy (d : tensor) (h : Agni.heap) (p : Agni.param)
    (h' : Agni.heap) (p' : Agni.param) :
  (exists x : list R, d = of_reals x) -> real_heap h ->
  Agni.backward_param d h p = Ok (h', p') ->
  real_heap h' /\ (aliased p -> aliased p') /\ Agni.grad p' <> None.
Proof.
  intros (x & ->) Hh. unfold Agni.backward_param.
  destruct (Agni.grad p) as [a|] eqn:Eg.
  - destruct (Agni.read h a) as [g|] eqn:Er; cbn [Py.bind]; [|discriminate].
    destruct (real_heap_read h a g Hh Er) as (y & ->).
    destruct (iadd (of_reals y) (of_reals x)) as [g'|] eqn:Ei;
      cbn [Py.bind]; [|discriminate].
    destruct (iadd_reals y x g' Ei) as (z & ->).
    intros H. inversion H; subst.
    split; [now apply real_heap_write|]. split; [auto|congruence].
  - intros H. inversion H; subst. split; [|split].
    + unfold real_heap in *. apply Forall_app. split; [exact Hh|].
      constructor; [now exists x|constructor].
    + intros Hal a Ha. cbn in Ha. specialize (Hal a Ha). congruence.
    + discriminate.
Qed.

Lemma collect_aliased (p : Agni.param) : aliased p -> aliased (Agni.collect p).
Proof.
  unfold aliased, Agni.collect. intros Hal.
  destruct (Agni.grad p) as [a|] eqn:Eg; [|now rewrite Eg].
  cbn [Agni.grad Agni.snapshots]. intros b Hb.
  apply in_app_or in Hb. destruct Hb as [Hb|[<-|[]]]; [|reflexivity].
  now apply Hal.
Qed.

Lemma read_all_repeat (h : Agni.heap) (a : nat) (g : tensor) (k : nat) :
  Agni.read h a = Ok g -> Agni.read_all h (repeat a k) = Ok (repeat g k).
Proof.
  intros Er. induction k as [|k IH]; [reflexivity|].
  cbn [repeat Agni.read_all]. rewrite Er. cbn [Py.bind]. rewrite IH.
  reflexivity.
Qed.

(** The injection on a parameter whose snapshots are views of its
    real-valued gradient: the buffers are what they were. *)
Lemma inject_param_noop (eta : R) (draw : nat -> R) (h : Agni.heap)
    (p : Agni.param) (h' : Agni.heap) (p' : Agni.param) :
  real_heap h -> aliased p ->
  Agni.inject_param eta draw h p = Ok (h', p') ->
  h' = h /\ Agni.grad p' = Agni.grad p /\ Agni.snapshots p' = [].
Proof.
  intros Hh Hal. unfold Agni.inject_param.
  destruct (Agni.grad p) as [a|] eqn:Eg.
  - assert (Hsn : Agni.snapshots p = repeat a (length (Agni.snapshots p))).
    { apply Forall_eq_repeat. apply Forall_forall. intros b Hb.
      specialize (Hal b Hb). congruence. }
    rewrite Hsn. set (k := length (Agni.snapshots p)).
    destruct (Agni.read h a) as [g|e] eqn:Er.
    + destruct (real_heap_read h a g Hh Er) as (x & ->).
      rewrite (read_all_repeat h a (of_reals x) k Er). cbn [Py.bind].
      destruct k as [|k]; [discriminate|].
      rewrite variance_of_copies. cbn [Py.bind].
      rewrite inject_zero_variance. cbn [Py.bind].
      intros H. inversion H; subst. split; [|split; reflexivity].
      apply write_same. unfold Agni.read in Er.
      destruct (nth_error h a); [congruence|discriminate].
    + destruct k as [|k]; [discriminate|].
      cbn [repeat Agni.read_all]. rewrite Er. discriminate.
  - intros H. inversion H; subst. split; [reflexivity|].
    split; [exact Eg|].
    destruct (Agni.snapshots p') as [|b ?] eqn:Es; [reflexivity|].
    assert (Hb : In b (Agni.snapshots p')) by (rewrite Es; now left).
    specialize (Hal b Hb). congruence.
Qed.

Lemma for_params_inject_noop (eta : R) (draw : nat -> nat -> R)
    (ps : list Agni.param) :
  forall i h h' ps',
    real_heap h -> Forall aliased ps ->
    Agni.for_params (fun j => Agni.inject_param eta (draw j)) i ps h
    = Ok (h', ps') ->
    h' = h /\ map Agni.grad ps' = map Agni.grad ps /\
    Forall (fun p => Agni.snapshots p = []) ps'.
Proof.
  induction ps as [|p ps IH]; intros i h h' ps' Hh Hal E.
  - cbn in E. inversion E; subst. repeat split. constructor.
  - apply Forall_cons_iff in Hal. destruct Hal as [Hp Hal].
    cbn [Agni.for_params] in E.
    destruct (Agni.inject_param eta (draw i) h p) as [[h1 p1]|e] eqn:E1;
      [|discriminate].
    cbn [Py.bind] in E.
    destruct (inject_param_noop eta (draw i) h p h1 p1 Hh Hp E1)
      as (-> & Hg1 & Hs1).
    destruct (Agni.for_params _ (S i) ps h) as [[h2 ps2]|e] eqn:E2;
      [|discriminate].
    cbn [Py.bind] in E. inversion E; subst.
    destruct (IH (S i) h h' ps2 Hh Hal E2) as (-> & Hg2 & Hs2).
    split; [reflexivity|]. cbn [map]. split; [congruence|now constructor].
Qed.

Lemma Forall2_transport {A : Type} (P P' : A -> Prop) (Q : A -> A -> Prop)
    (l l' : list A) :
  (forall a b, P a -> Q a b -> P' b) ->
  Forall P l -> Forall2 Q l l' -> Forall P' l'.
Proof.
  intros HT HP HQ. induction HQ as [|a b l l' Hab HQ IH]; [constructor|].
  apply Forall_cons_iff in HP. destruct HP as [Ha HP].
  constructor; [now apply (HT a b)|now apply IH].
Qed.

Lemma collect_grad (p : Agni.param) :
  Agni.grad (Agni.collect p) = Agni.grad p.
Proof.
  unfold Agni.collect. destruct (Agni.grad p) eqn:E; [reflexivity|exact E].
Qed.

Lemma map_grad_collect (ps : list Agni.param) :
  map Agni.grad (map Agni.collect ps) = map Agni.grad ps.
Proof. rewrite map_map. apply map_ext. apply collect_grad. Qed.

Lemma zero_grad_param_noisy (flag : bool) (h : Agni.heap) (p : Agni.param)
    (h' : Agni.heap) (p' : Agni.param) :
  real_heap h -> Agni.zero_grad_param flag h p = Ok (h', p') ->
  real_heap h' /\ Agni.snapshots p' = Agni.snapshots p.
Proof.
  intros Hh. unfold Agni.zero_grad_param.
  destruct (Agni.grad p) as [a|].
  - destruct flag.
    + intros H. inversion H; subst. now split.
    + destruct (Agni.read h a) as [g|] eqn:Er; cbn [Py.bind]; [|discriminate].
      intros H. inversion H; subst. split; [|reflexivity].
      rewrite zeros_like_repeat.
      replace (repeat (Fin 0) (length g))
        with (of_reals (repeat 0 (length g)))
        by (unfold of_reals; now rewrite map_repeat).
      now apply real_heap_write.
  - intros H. inversion H; subst. now split.
Qed.

Lemma backward_param_aliased (d : tensor) (h : Agni.heap) (p : Agni.param)
    (h' : Agni.heap) (p' : Agni.param) :
  Agni.backward_param d h p = Ok (h', p') -> aliased p -> aliased p'.
Proof.
  unfold Agni.backward_param.
  destruct (Agni.grad p) as [a|] eqn:Eg.
  - destruct (Agni.read h a) as [g|]; cbn [Py.bind]; [|discriminate].
    destruct (iadd g d) as [g'|]; cbn [Py.bind]; [|discriminate].
    intros H. inversion H; subst. auto.
  - intros H Hal. inversion H; subst. intros a Ha. cbn in Ha.
    specialize (Hal a Ha). congruence.
Qed.

Lemma zero_grad_param_snapshots (flag : bool) (h : Agni.heap) (p : Agni.param)
    (h' : Agni.heap) (p' : Agni.param) :
  Agni.zero_grad_param flag h p = Ok (h', p') ->
  Agni.snapshots p' = Agni.snapshots p.
Proof.
  unfold Agni.zero_grad_param.
  destruct (Agni.grad p) as [a|].
  - destruct flag.
    + intros H. now inversion H; subst.
    + destruct (Agni.read h a) as [g|]; cbn [Py.bind]; [|discriminate].
      intros H. now inversion H; subst.
  - intros H. now inversion H; subst.
Qed.

(** One iteration with noise injection from a state whose snapshots are
    views of real-valued gradients: the snapshots stay views, and the
    iteration without noise injection, from a state with the same buffers
    and gradients, ends with the same buffers and gradients. *)
Lemma noisy_iteration (env : Agni.environment) (G : Z) (eta : R)
    (s sf s' : Agni.train_state) (epoch : nat) :
  real_valued env ->
  real_heap (Agni.buffers s) -> Forall aliased (Agni.parameters s) ->
  same_grads s sf ->
  Agni.iteration env true G eta s epoch = Ok s' ->
  real_heap (Agni.buffers s') /\ Forall aliased (Agni.parameters s') /\
  exists sf', Agni.iteration env false G eta sf epoch = Ok sf' /\
              same_grads s' sf'.
Proof.
  intros Henv Hh Hal (Eb & Eg & Er & Es) E.
  unfold Agni.iteration in *. rewrite <- Eb, <- Er, <- Es.
  (* loss.backward() *)
  destruct (Agni.for_params
              (fun i => Agni.backward_param (Agni.dloss env epoch i)) 0
              (Agni.parameters s) (Agni.buffers s))
    as [[h1 ps1]|e] eqn:E1; [|discriminate].
  cbn [Py.bind] in E.
  destruct (for_params_same_grads
              (fun i => Agni.backward_param (Agni.dloss env epoch i))
              (fun i h p q h' p' => backward_param_same_grads _ h p q h' p')
              _ (Agni.parameters sf) _ _ _ _ (eq_sym Eg) E1)
    as (qs1 & F1 & Hg1).
  rewrite F1. cbn [Py.bind].
  assert (Hh1 : real_heap h1).
  { apply (for_params_heap_inv real_heap _
             (fun i h p h' p' Hr Eq =>
                proj1 (backward_param_noisy _ h p h' p' (Henv epoch i) Hr Eq))
             _ _ _ _ _ Hh E1). }
  assert (Hal1 : Forall aliased ps1).
  { apply (Forall2_transport aliased aliased
             (fun p p' => aliased p -> aliased p')
             (Agni.parameters s) ps1); [auto|exact Hal|].
    apply (for_params_Forall2 _
             (fun i => Agni.backward_param (Agni.dloss env epoch i))
             (fun i h p h' p' Eq => backward_param_aliased _ h p h' p' Eq)
             _ _ _ _ _ E1). }
  assert (Hal2 : Forall aliased (map Agni.collect ps1)).
  { apply Forall_map. revert Hal1. apply Forall_impl.
    intros p. apply collect_aliased. }
  assert (Hg2 : map Agni.grad (map Agni.collect qs1)
                = map Agni.grad (map Agni.collect ps1))
    by (rewrite !map_grad_collect; exact Hg1).
  destruct (Z.eqb G 0); [discriminate|].
  destruct (Z.eqb (Z.of_nat (epoch + 1) mod G) 0).
  - (* an accumulation boundary: the injection *)
    destruct (Agni.for_params
                (fun i => Agni.inject_param eta (Agni.randn env epoch i)) 0
                (map Agni.collect ps1) h1)
      as [[h3 ps3]|e] eqn:E3; [|discriminate].
    cbn [Py.bind] in E.
    destruct (for_params_inject_noop eta (Agni.randn env epoch)
                (map Agni.collect ps1) 0 h1 h3 ps3 Hh1 Hal2 E3)
      as (-> & Hg3 & Hs3).
    cbn [Py.bind].
    unfold Agni.record_effective_step in *.
    cbn [Agni.buffers Agni.parameters Agni.effective_step_sizes
         Agni.optimizer_steps] in *.
    rewrite (add_effective_steps_same_grads (Agni.lr env) h1 ps3
               (map Agni.collect qs1) (Fin 0)) by congruence.
    destruct (for_each (Agni.add_effective_step (Agni.lr env) h1) ps3 (Fin 0))
      as [x|e]; [|discriminate].
    cbn [Py.bind Agni.buffers Agni.parameters Agni.effective_step_sizes
         Agni.optimizer_steps] in *.
    destruct (Agni.for_params
                (fun _ => Agni.zero_grad_param (Agni.set_to_none env)) 0
                ps3 h1)
      as [[h5 ps5]|e] eqn:E5; [|discriminate].
    cbn [Py.bind] in E. inversion E; subst s'. clear E.
    destruct (for_params_same_grads
                (fun _ => Agni.zero_grad_param (Agni.set_to_none env))
                (fun i h p q h' p' =>
                   zero_grad_param_same_grads _ h p q h' p')
                ps3 (map Agni.collect qs1) 0%nat h1 h5 ps5
                ltac:(congruence) E5)
      as (qs5 & F5 & Hg5).
    rewrite F5. cbn [Py.bind].
    cbn [Agni.buffers Agni.parameters].
    split; [|split].
    + apply (for_params_heap_inv real_heap _
               (fun i h p h' p' Hr Eq =>
                  proj1 (zero_grad_param_noisy _ h p h' p' Hr Eq))
               _ _ _ _ _ Hh1 E5).
    + apply (Forall2_transport (fun p => Agni.snapshots p = []) aliased
               (fun p p' => Agni.snapshots p' = Agni.snapshots p) ps3 ps5);
        [|exact Hs3|].
      * intros p p' Hp Hpp a Ha. rewrite Hpp, Hp in Ha. destruct Ha.
      * apply (for_params_Forall2 _
                 (fun _ => Agni.zero_grad_param (Agni.set_to_none env))
                 (fun i h p h' p' Eq =>
                    zero_grad_param_snapshots _ h p h' p' Eq)
                 _ _ _ _ _ E5).
    + eexists. split; [reflexivity|].
      repeat split; cbn [Agni.buffers Agni.parameters
                         Agni.effective_step_sizes Agni.optimizer_steps];
        congruence.
  - (* inside a window *)
    inversion E; subst s'. clear E. cbn [Agni.buffers Agni.parameters].
    split; [exact Hh1|]. split; [exact Hal2|].
    eexists. split; [reflexivity|].
    repeat split; cbn [Agni.buffers Agni.parameters
                       Agni.effective_step_sizes Agni.optimizer_steps];
      congruence.
Qed.

Lemma noisy_run (env : Agni.environment) (G : Z) (eta : R) :
  real_valued env ->
  forall k s,
    Agni.run env true k G eta = Ok s ->
    real_heap (Agni.buffers s) /\ Forall aliased (Agni.parameters s) /\
    exists sf, Agni.run env false k G eta = Ok sf /\ same_grads s sf.
Proof.
  intros Henv. induction k as [|k IH]; intros s E.
  - cbn in E. inversion E; subst s. split; [constructor|]. split.
    + cbn. repeat constructor; intros a [].
    + exists Agni.initial_state. split; [reflexivity|]. now repeat split.
  - unfold Agni.run in *. rewrite seq_S, for_each_app in E.
    destruct (for_each _ (seq 0 k) Agni.initial_state) as [s0|e] eqn:E0;
      [|discriminate].
    destruct (IH s0 eq_refl) as (Hh & Hal & sf & Ef & Hsame).
    cbn [Py.bind Nat.add for_each] in E.
    destruct (Agni.iteration env true G eta s0 k) as [s1|e] eqn:E1;
      [|discriminate].
    cbn [Py.bind] in E. inversion E; subst s1.
    destruct (noisy_iteration env G eta s0 sf s k Henv Hh Hal Hsame E1)
      as (Hh' & Hal' & sf' & Ef' & Hsame').
    split; [exact Hh'|]. split; [exact Hal'|].
    exists sf'. rewrite seq_S, for_each_app, Ef.
    cbn [Py.bind Nat.add for_each]. rewrite Ef'. now split.
Qed.

(** **** X5.
    On NaN-free gradients of the sizes of the parameters, the run with noise
    injection and the run without it, over the same gradients, end with the
    same gradient buffers, the same gradients and the same record of
    effective step sizes, for every [eta] and every noise draw: every
    snapshot is a view of the gradient buffer, so the variance is zero. *)
Theorem noise_injection_changes_nothing :
  forall (env : Agni.environment) (G : Z) (eta : R) (k : nat),
    well_shaped env -> real_valued env -> G <> 0%Z ->
    exists s_noise s_plain,
      Agni.run env true k G eta = Ok s_noise /\
      Agni.run env false k G eta = Ok s_plain /\
      same_grads s_noise s_plain /\
      Agni.run_experiment env true k G eta
      = Agni.run_experiment env false k G eta.
Proof.
  intros env G eta k Hshape Hreal HG.
  destruct (run_spec env true G eta Hshape HG k) as (s & E & _).
  destruct (noisy_run env G eta Hreal k s E) as (_ & _ & sf & Ef & Hsame).
  exists s, sf. split; [exact E|]. split; [exact Ef|]. split; [exact Hsame|].
  unfold Agni.run_experiment. rewrite E, Ef. cbn [Py.bind].
  destruct Hsame as (_ & _ & Hrec & _). now rewrite Hrec.
Qed.

(** ** The loop of [run_experiment]: edge cases and counts *)

Lemma iteration_inside_window (env : Agni.environment) (G : Z) (eta : R)
    (s : Agni.train_state) (epoch : nat) :
  boundary G epoch = false ->
  Agni.iteration env true G eta s epoch
  = Agni.iteration env false G eta s epoch.
Proof.
  intros Hb. unfold Agni.iteration.
  destruct (Agni.for_params _ 0 (Agni.parameters s) (Agni.buffers s))
    as [[h1 ps1]|e]; [|reflexivity].
  cbn [Py.bind]. destruct (Z.eqb G 0); [reflexivity|].
  fold (boundary G epoch). now rewrite Hb.
Qed.

Lemma mod_succ (a G : Z) :
  (0 < G)%Z -> ((a + 1) mod G <> 0)%Z -> ((a + 1) mod G = a mod G + 1)%Z.
Proof.
  intros HG Hne.
  pose proof (Z.div_mod a G ltac:(lia)) as Ha.
  pose proof (Z.mod_pos_bound a G HG) as Hr.
  destruct (Z.eq_dec (a mod G + 1) G) as [He|Hlt].
  - exfalso. apply Hne.
    replace (a + 1)%Z with (0 + (a / G + 1) * G)%Z by nia.
    now rewrite Z.mod_add by lia.
  - symmetry. apply (Z.mod_unique_pos _ _ (a / G)); [lia|nia].
Qed.

(** **** X6.
    With noise injection and a positive accumulation length, the snapshot
    lists are emptied at every accumulation boundary: after [k]
    micro-batches each of them has [k mod gradient_accumulation_steps]
    entries. *)
Theorem snapshots_reset_with_noise :
  forall (env : Agni.environment) (G : Z) (eta : R) (k : nat),
    well_shaped env -> (0 < G)%Z ->
    exists s,
      Agni.run env true k G eta = Ok s /\
      Forall (fun p => Z.of_nat (length (Agni.snapshots p))
                       = (Z.of_nat k mod G)%Z)
        (Agni.parameters s).
Proof.
  intros env G eta k Hshape HG.
  assert (HG0 : G <> 0%Z) by lia.
  assert (H : exists s,
             Agni.run env true k G eta = Ok s /\ run_inv s /\
             each_param (fun _ p => Z.of_nat (length (Agni.snapshots p))
                                    = (Z.of_nat k mod G)%Z)
               0 (Agni.parameters s)).
  { induction k as [|k (s & E & Hinv & Hlen)].
    - exists Agni.initial_state. split; [reflexivity|].
      split; [apply run_inv_initial|]. cbn. now repeat split.
    - unfold Agni.run in *. rewrite seq_S, for_each_app, E.
      cbn [Py.bind Nat.add for_each].
      assert (Ek : Z.of_nat (S k) = Z.of_nat (k + 1)) by lia.
      destruct (boundary G k) eqn:Eb.
      + destruct (iteration_spec env true G eta s k Hshape HG0 Hinv)
          as (s' & E' & Hinv' & _ & _ & _ & Hclear).
        exists s'. rewrite E'. split; [reflexivity|]. split; [exact Hinv'|].
        specialize (Hclear eq_refl Eb). revert Hclear.
        apply each_param_impl. intros j p Hp. rewrite Hp, Ek.
        unfold boundary in Eb. apply Z.eqb_eq in Eb. now rewrite Eb.
      + destruct (iteration_spec env false G eta s k Hshape HG0 Hinv)
          as (s' & E' & Hinv' & _ & _ & Hgrow & _).
        exists s'. rewrite (iteration_inside_window _ _ _ _ _ Eb), E'.
        split; [reflexivity|]. split; [exact Hinv'|].
        apply (each_pair_transport _ _ grows_by_one _ _ 0%nat)
          with (2 := Hlen) (3 := Hgrow eq_refl).
        intros j p p' Hp Hq. unfold grows_by_one in Hq.
        rewrite Hq, Nat2Z.inj_succ, Hp, Ek.
        unfold boundary in Eb. apply Z.eqb_neq in Eb.
        replace (Z.of_nat (k + 1)) with (Z.of_nat k + 1)%Z in * by lia.
        rewrite (mod_succ _ _ HG Eb). lia. }
  destruct H as (s & E & _ & Hlen). exists s. split; [exact E|].
  now apply (each_param_Forall _ _ 0%nat).
Qed.

(** **** X7.
    With [gradient_accumulation_steps = 0] the first micro-batch ends the
    run with ZeroDivisionError, in both modes. *)
Theorem run_experiment_zero_accumulation_raises :
  forall (env : Agni.environment) (mode : bool) (eta : R) (k : nat),
    Agni.run_experiment env mode (S k) 0 eta
    = Raise (mk_exn ZeroDivisionError "integer modulo by zero").
Proof.
  intros env mode eta k. unfold Agni.run_experiment, Agni.run.
  cbn [seq for_each]. reflexivity.
Qed.

(** **** X8.
    With a positive accumulation length and gradients of the sizes of the
    parameters, [run_experiment] returns, in both modes, a record of
    [num_epochs // gradient_accumulation_steps] effective step sizes. *)
Theorem run_experiment_record_length :
  forall (env : Agni.environment) (mode : bool) (G : Z) (eta : R) (k : nat),
    well_shaped env -> (0 < G)%Z ->
    exists record,
      Agni.run_experiment env mode k G eta = Ok record /\
      Z.of_nat (length record) = (Z.of_nat k / G)%Z.
Proof.
  intros env mode G eta k Hshape HG.
  destruct (run_spec env mode G eta Hshape ltac:(lia) k)
    as (s & E & _ & Hrec & _).
  exists (Agni.effective_step_sizes s). unfold Agni.run_experiment.
  rewrite E. split; [reflexivity|]. rewrite Hrec. now apply boundaries_div.
Qed.

(** ** Snapshots of different sizes *)

Lemma broadcast_singleton_left {A B C : Type} (f : A -> B -> C) (x : A)
    (b : list B) :
  length b <> 1%nat -> broadcast f [x] b = Ok (map (f x) b).
Proof.
  intros Hb. unfold broadcast. cbn [length].
  destruct (Nat.eqb_spec 1 (length b)) as [E|_]; [congruence|reflexivity].
Qed.

Lemma broadcast_singleton_right {A B C : Type} (f : A -> B -> C) (a : list A)
    (y : B) :
  length a <> 1%nat -> broadcast f a [y] = Ok (map (fun x => f x y) a).
Proof.
  intros Ha. unfold broadcast. cbn [length].
  destruct (Nat.eqb_spec (length a) 1) as [E|_]; [congruence|].
  destruct a as [|x [|x' a]]; reflexivity.
Qed.

Lemma broadcast_mismatch {A B C : Type} (f : A -> B -> C) (a : list A)
    (b : list B) :
  length a <> length b -> length a <> 1%nat -> length b <> 1%nat ->
  broadcast f a b
  = raise ValueError "operands could not be broadcast together".
Proof.
  intros Hab Ha Hb. unfold broadcast.
  destruct (Nat.eqb_spec (length a) (length b)) as [E|_]; [congruence|].
  destruct a as [|x [|x' a]], b as [|y [|y' b]]; cbn in *;
    try reflexivity; congruence.
Qed.

Lemma iadd_mismatch (a v : tensor) :
  length v <> length a -> length v <> 1%nat ->
  iadd a v = raise ValueError "non-broadcastable output operand".
Proof.
  intros Hva Hv. unfold iadd.
  destruct (Nat.eqb_spec (length v) (length a)) as [E|_]; [congruence|].
  destruct v as [|y [|y' v]]; cbn in *; try reflexivity; congruence.
Qed.

(** **** X9.
    A second snapshot whose size differs from the first one's is rejected
    with ValueError, unless it has exactly one entry: a one-entry snapshot
    is broadcast against the running mean and the variance keeps the size
    of the first snapshot. *)
Theorem second_snapshot_of_other_size :
  forall x1 x2 : tensor,
    length x2 <> length x1 ->
    if Nat.eqb (length x2) 1
    then exists v, Agni.compute_variance_online [x1; x2] = Ok v /\
                   length v = length x1
    else exists m, Agni.compute_variance_online [x1; x2]
                   = Raise (mk_exn ValueError m).
Proof.
  intros x1 x2 Hne. unfold Agni.compute_variance_online. cbn [for_each].
  rewrite update_empty_state.
  destruct (update_shape (length x1) (zero_state (length x1))
              (repeat (Fin 0) (length x1)) (repeat (Fin 0) (length x1)) x1
              eq_refl eq_refl (repeat_length _ _) (repeat_length _ _) eq_refl)
    as (m1 & q1 & E1 & Lm1 & Lq1).
  rewrite E1. cbn [Py.bind]. unfold Agni.update.
  cbn [Agni.mean Agni.M2 Agni.n zero_state].
  destruct (Nat.eqb_spec (length x2) 1) as [L2|L2].
  - destruct x2 as [|y [|? ?]]; try discriminate. cbn [length] in Hne.
    rewrite (broadcast_singleton_left fsub) by congruence. cbn [Py.bind].
    rewrite iadd_same by (rewrite !length_map; reflexivity).
    cbn [Py.bind].
    set (mean' := zip_with fadd m1 _).
    assert (Lm' : length mean' = length x1).
    { unfold mean'. rewrite zip_with_length; [exact Lm1|].
      now rewrite !length_map. }
    rewrite (broadcast_singleton_left fsub) by congruence. cbn [Py.bind].
    rewrite (broadcast_same fmul) by (rewrite !length_map; congruence).
    cbn [Py.bind].
    rewrite iadd_same
      by (rewrite zip_with_length; rewrite !length_map; congruence).
    cbn [Py.bind Agni.finalize Agni.M2 Agni.n Nat.ltb Nat.leb].
    eexists. split; [reflexivity|].
    rewrite length_map, zip_with_length; [exact Lq1|].
    rewrite zip_with_length; rewrite !length_map; congruence.
  - destruct (Nat.eq_dec (length x1) 1) as [L1|L1].
    + destruct m1 as [|c [|? ?]]; cbn [length] in Lm1; try congruence.
      rewrite (broadcast_singleton_right fsub) by exact L2.
      cbn [Py.bind].
      rewrite iadd_mismatch by (rewrite !length_map; cbn; congruence).
      cbn [Py.bind]. now eexists.
    + rewrite (broadcast_mismatch fsub) by congruence.
      cbn [Py.bind]. now eexists.
Qed.

(** ** Combiners *)

Lemma adaboost_forward_same_shape (a0 a1 : R) (h : R -> R -> R)
    (logits1 logits2 : Glue.matrix) :
  Glue.same_shape logits1 logits2 = true ->
  (forall x y, (x * exp a0 + y * exp a1) / (exp a0 + (exp a1 + 0)) = h x y) ->
  Glue.AdaBoostCombiner_forward (Glue.mk_adaboost [a0; a1]) logits1 logits2
  = Ok (zip_with (zip_with h) logits1 logits2).
Proof.
  intros Hs Hh. unfold Glue.AdaBoostCombiner_forward.
  cbn [Glue.alpha map Glue.index nth_error Py.bind].
  rewrite broadcast2_same_shape by now apply same_shape_scale.
  cbn [Py.bind]. apply f_equal. apply zip_scaled. exact Hh.
Qed.

(** **** X10.
    The output of the AdaBoost combiner depends on the difference of the
    two log-weights only: adding one constant to both changes nothing.
    With the initial log-weights [0, 0] the output is the arithmetic mean
    of the member logits. *)
Theorem adaboost_shift_invariant :
  forall (a0 a1 c : R) (logits1 logits2 : Glue.matrix),
    Glue.same_shape logits1 logits2 = true ->
    Glue.AdaBoostCombiner_forward (Glue.mk_adaboost [a0 + c; a1 + c])
      logits1 logits2
    = Glue.AdaBoostCombiner_forward (Glue.mk_adaboost [a0; a1])
        logits1 logits2 /\
    Glue.AdaBoostCombiner_forward Glue.AdaBoostCombiner_init logits1 logits2
    = Ok (mean_logits logits1 logits2).
Proof.
  intros a0 a1 c logits1 logits2 Hs.
  pose proof (exp_pos a0) as H0. pose proof (exp_pos a1) as H1.
  pose proof (exp_pos c) as Hc.
  split.
  - rewrite (adaboost_forward_same_shape a0 a1
               (fun x y => (x * exp a0 + y * exp a1) / (exp a0 + (exp a1 + 0)))
               _ _ Hs) by reflexivity.
    apply adaboost_forward_same_shape; [exact Hs|].
    intros x y. rewrite !exp_plus.
    assert (P0 : 0 < exp a0 * exp c) by now apply Rmult_lt_0_compat.
    assert (P1 : 0 < exp a1 * exp c) by now apply Rmult_lt_0_compat.
    field. split; lra.
  - unfold Glue.AdaBoostCombiner_init.
    apply adaboost_forward_same_shape; [exact Hs|].
    intros x y. rewrite exp_0. field.
Qed.

Lemma index_repeat {A : Type} (w : A) (n i : nat) :
  (i < n)%nat -> Glue.index (repeat w n) i = Ok w.
Proof.
  intros Hi. unfold Glue.index.
  rewrite (nth_error_nth' (repeat w n) w) by (rewrite repeat_length; exact Hi).
  now rewrite nth_repeat.
Qed.

(** With the constructor's weights the loop over the members scales every
    member by [1 / num_models]. *)
Lemma weighted_outputs_init (attention : Type) (n : nat) (nl : Z)
    (pt : option Glue.problem_type)
    (members : list (Glue.member_output attention)) :
  forall i, (i + length members <= n)%nat ->
    Glue.weighted_outputs attention (Glue.EnsembleModel_init n nl pt) i members
    = Ok (map (fun o => Glue.scale (Glue.logits attention o) (1 / INR n))
            members).
Proof.
  induction members as [|o members IH]; intros i Hi; [reflexivity|].
  cbn [Glue.weighted_outputs length map] in *.
  unfold Glue.EnsembleModel_init at 1. cbn [Glue.weights].
  rewrite index_repeat by lia. cbn [Py.bind].
  rewrite IH by lia. reflexivity.
Qed.

Lemma same_shape_refl (m : Glue.matrix) : Glue.same_shape m m = true.
Proof.
  unfold Glue.same_shape. rewrite Nat.eqb_refl. cbn [andb].
  induction m as [|r m IH]; [reflexivity|].
  cbn [combine forallb fst snd]. now rewrite Nat.eqb_refl, IH.
Qed.

Lemma add_scaled (m : Glue.matrix) (c w : R) :
  zip_with (zip_with Rplus) (Glue.scale m c) (Glue.scale m w)
  = Glue.scale m (c + w).
Proof.
  unfold Glue.scale. induction m as [|r m IH]; [reflexivity|].
  cbn [map zip_with]. rewrite IH. f_equal. clear IH.
  induction r as [|x r IHr]; [reflexivity|].
  cbn [map zip_with]. rewrite IHr. f_equal. ring.
Qed.

Lemma stack_copies (m : Glue.matrix) (w : R) (k : nat) :
  forall c, for_each Glue.add_stacked (repeat (Glue.scale m w) k)
              (Glue.scale m c)
            = Ok (Glue.scale m (c + INR k * w)).
Proof.
  induction k as [|k IH]; intros c.
  - cbn. f_equal. f_equal. lra.
  - cbn [repeat for_each]. unfold Glue.add_stacked at 1.
    rewrite (same_shape_scale m m c w (same_shape_refl m)).
    cbn [Py.bind]. rewrite add_scaled, IH. f_equal. f_equal.
    rewrite S_INR. ring.
Qed.

Lemma scale_one (m : Glue.matrix) : Glue.scale m 1 = m.
Proof.
  unfold Glue.scale. induction m as [|r m IH]; [reflexivity|].
  cbn [map]. rewrite IH. f_equal.
  induction r as [|x r IHr]; [reflexivity|].
  cbn [map]. rewrite IHr. f_equal. ring.
Qed.

(** **** X11.
    An ensemble of [N >= 1] members that all return the same logits, with
    the weights [1 / N] that the constructor sets, returns these logits
    (as [main] builds it: [N] deep copies of one model). *)
Theorem ensemble_of_copies_returns_member :
  forall (attention : Type)
         (MSELoss_squeezed MSELoss BCEWithLogitsLoss
            : Glue.matrix -> Glue.labels -> result scalar)
         (n : nat) (nl : Z) (pt : option Glue.problem_type)
         (m : Glue.matrix) (att : attention),
    Glue.forward attention MSELoss_squeezed MSELoss BCEWithLogitsLoss
      (Glue.EnsembleModel_init (S n) nl pt)
      (repeat (Glue.mk_output attention m att) (S n)) None
    = Ok (Glue.EnsembleModel_init (S n) nl pt,
          Glue.mk_forward attention None m (repeat att (S n))).
Proof.
  intros attention Msq M B n nl pt m att. unfold Glue.forward.
  rewrite weighted_outputs_init by (rewrite repeat_length; lia).
  cbn [Py.bind]. rewrite !map_repeat. cbn [Glue.logits Glue.attentions].
  cbn [repeat Glue.stack_sum]. rewrite stack_copies. cbn [Py.bind].
  replace (1 / INR (S n) + INR n * (1 / INR (S n))) with 1.
  - now rewrite scale_one.
  - rewrite S_INR. field. pose proof (pos_INR n). lra.
Qed.

Lemma same_shape_scale_false (a b : Glue.matrix) (u w : R) :
  Glue.same_shape a b = false ->
  Glue.same_shape (Glue.scale a u) (Glue.scale b w) = false.
Proof.
  unfold Glue.same_shape, Glue.scale. rewrite !length_map.
  destruct (Nat.eqb (length a) (length b)); [|reflexivity].
  cbn [andb]. revert b.
  induction a as [|r a IH]; intros [|s b]; cbn [map combine forallb fst snd];
    try discriminate.
  rewrite !length_map. destruct (Nat.eqb (length r) (length s));
    [cbn [andb]; apply IH|reflexivity].
Qed.

(** **** X12.
    The forward pass of the ensemble raises RuntimeError when there is no
    member, and when the logits of the first two members differ in shape,
    whatever the labels. *)
Theorem ensemble_forward_shape_errors :
  forall (attention : Type)
         (MSELoss_squeezed MSELoss BCEWithLogitsLoss
            : Glue.matrix -> Glue.labels -> result scalar)
         (nl : Z) (pt : option Glue.problem_type)
         (o1 o2 : Glue.member_output attention)
         (rest : list (Glue.member_output attention))
         (batch_labels : option Glue.labels),
    Glue.same_shape (Glue.logits attention o1) (Glue.logits attention o2)
    = false ->
    (exists m,
       Glue.forward attention MSELoss_squeezed MSELoss BCEWithLogitsLoss
         (Glue.EnsembleModel_init (2 + length rest) nl pt) (o1 :: o2 :: rest)
         batch_labels
       = Raise (mk_exn RuntimeError m)) /\
    (exists m,
       Glue.forward attention MSELoss_squeezed MSELoss BCEWithLogitsLoss
         (Glue.EnsembleModel_init 0 nl pt) [] batch_labels
       = Raise (mk_exn RuntimeError m)).
Proof.
  intros attention Msq M B nl pt o1 o2 rest batch_labels Hs.
  split; [|eexists; reflexivity].
  eexists. unfold Glue.forward.
  rewrite weighted_outputs_init by (cbn [length]; lia).
  cbn [Py.bind map Glue.stack_sum for_each]. unfold Glue.add_stacked at 1.
  rewrite same_shape_scale_false by exact Hs. reflexivity.
Qed.

(** **** X13.
    A forward pass with labels that returns fixes the problem type: the
    returned model carries the type used for this batch, keeps weights and
    [num_labels], and infers the same type for every later batch, whatever
    the dtype of its labels.  A forward pass without labels returns the
    model as it was, with no loss. *)
Theorem forward_caches_problem_type :
  forall (attention : Type)
         (MSELoss_squeezed MSELoss BCEWithLogitsLoss
            : Glue.matrix -> Glue.labels -> result scalar)
         (self self' : Glue.EnsembleModel)
         (members : list (Glue.member_output attention))
         (batch_labels : option Glue.labels)
         (out : Glue.forward_output attention),
    Glue.forward attention MSELoss_squeezed MSELoss BCEWithLogitsLoss
      self members batch_labels = Ok (self', out) ->
    match batch_labels with
    | Some l =>
        Glue.config_problem_type self'
        = Some (Glue.infer_problem_type self l) /\
        Glue.weights self' = Glue.weights self /\
        Glue.num_labels self' = Glue.num_labels self /\
        forall l', Glue.infer_problem_type self' l'
                   = Glue.infer_problem_type self l
    | None => self' = self /\ Glue.loss attention out = None
    end.
Proof.
  intros attention Msq M B self self' members batch_labels out.
  unfold Glue.forward.
  destruct (Glue.weighted_outputs attention self 0 members) as [outs|];
    cbn [Py.bind]; [|discriminate].
  destruct (Glue.stack_sum outs) as [combined|]; cbn [Py.bind];
    [|discriminate].
  destruct batch_labels as [l|].
  - set (pt := Glue.infer_problem_type self l).
    assert (Hdone : forall o, Ok (Glue.mk_ensemble (Glue.weights self)
                                    (Glue.num_labels self) (Some pt), o)
                              = Ok (self', out) ->
              Glue.config_problem_type self' = Some pt /\
              Glue.weights self' = Glue.weights self /\
              Glue.num_labels self' = Glue.num_labels self /\
              forall l', Glue.infer_problem_type self' l' = pt).
    { intros o H. inversion H; subst self'. repeat split. }
    destruct pt.
    + destruct (if (Glue.num_labels self =? 1)%Z
                then Msq combined l else M combined l);
        cbn [Py.bind]; [apply Hdone|discriminate].
    + destruct (Glue.view_rows combined (Glue.num_labels self)) as [input|];
        cbn [Py.bind]; [|discriminate].
      destruct l as [target|target|]; [| |discriminate].
      * destruct (Glue.CrossEntropyLoss input target); cbn [Py.bind];
          [apply Hdone|discriminate].
      * destruct (negb (Nat.eqb (length input) (length target)));
          discriminate.
    + destruct (B combined l); cbn [Py.bind]; [apply Hdone|discriminate].
    + apply Hdone.
  - intros H. inversion H; subst. now split.
Qed.

(** ** soft_voting *)

Lemma Rsum_map_exp_pos (r : list R) : r <> [] -> 0 < Rsum (map exp r).
Proof.
  intros Hne. destruct r as [|x r]; [congruence|]. clear Hne.
  revert x. induction r as [|y r IH]; intros x; unfold Rsum in *;
    cbn [map fold_right] in *.
  - pose proof (exp_pos x). lra.
  - pose proof (exp_pos x). specialize (IH y). lra.
Qed.

Lemma exp_le_Rsum (r : list R) (x : R) : In x r -> exp x <= Rsum (map exp r).
Proof.
  induction r as [|y r IH]; intros Hx; [destruct Hx|].
  unfold Rsum in *. cbn [map fold_right].
  destruct Hx as [->|Hx].
  - destruct r as [|z r]; [cbn; lra|].
    pose proof (Rsum_map_exp_pos (z :: r) ltac:(discriminate)) as Hp.
    unfold Rsum in Hp. lra.
  - specialize (IH Hx). pose proof (exp_pos y). lra.
Qed.

Lemma Rsum_map_div (f : R -> R) (s : R) (r : list R) :
  Rsum (map (fun x => f x / s) r) = Rsum (map f r) / s.
Proof.
  induction r as [|x r IH]; unfold Rsum in *; cbn [map fold_right].
  - unfold Rdiv. ring.
  - rewrite IH. unfold Rdiv. ring.
Qed.

Lemma Rsum_zip_plus (a b : list R) :
  length a = length b -> Rsum (zip_with Rplus a b) = Rsum a + Rsum b.
Proof.
  revert b. induction a as [|x a IH]; intros [|y b] H; try discriminate;
    unfold Rsum in *; cbn [zip_with fold_right].
  - lra.
  - rewrite IH by (cbn in H; lia). lra.
Qed.

(** One example of [softmax]: positive entries, at most 1, that sum to 1. *)
Lemma softmax_row_distribution (r : list R) :
  r <> [] ->
  Rsum (Glue.softmax_row r) = 1 /\
  Forall (fun p => 0 < p <= 1) (Glue.softmax_row r).
Proof.
  intros Hne. pose proof (Rsum_map_exp_pos r Hne) as Hpos.
  unfold Glue.softmax_row. split.
  - rewrite (Rsum_map_div exp). field. lra.
  - apply Forall_forall. intros p Hp. apply in_map_iff in Hp.
    destruct Hp as (x & <- & Hx). pose proof (exp_pos x) as Hx0.
    pose proof (exp_le_Rsum r x Hx) as Hle. split.
    + now apply Rdiv_lt_0_compat.
    + apply (Rmult_le_reg_r (Rsum (map exp r))); [exact Hpos|].
      unfold Rdiv. rewrite Rmult_assoc, Rinv_l by lra. lra.
Qed.

Lemma Forall_half_sum (a b : list R) :
  length a = length b ->
  Forall (fun p => 0 < p <= 1) a -> Forall (fun p => 0 < p <= 1) b ->
  Forall (fun p => 0 < p <= 1) (map (fun x => x / 2) (zip_with Rplus a b)).
Proof.
  revert b. induction a as [|x a IH]; intros [|y b] H Ha Hb;
    try discriminate; [constructor|].
  apply Forall_cons_iff in Ha. destruct Ha as [Hx Ha].
  apply Forall_cons_iff in Hb. destruct Hb as [Hy Hb].
  cbn [zip_with map]. constructor; [lra|].
  apply IH; auto.
Qed.

Lemma same_shape_map (f g : list R -> list R) (a b : Glue.matrix) :
  (forall r, length (f r) = length r) ->
  (forall r, length (g r) = length r) ->
  Glue.same_shape a b = true ->
  Glue.same_shape (map f a) (map g b) = true.
Proof.
  intros Hf Hg. revert b.
  induction a as [|r1 a IH]; intros [|r2 b] Hs; try reflexivity;
    try discriminate.
  apply same_shape_cons in Hs. destruct Hs as [Hr Hs].
  specialize (IH b Hs). unfold Glue.same_shape in *.
  cbn [map length combine forallb fst snd].
  rewrite Hf, Hg, Hr, Nat.eqb_refl.
  apply andb_prop in IH. destruct IH as [I1 I2].
  change (Nat.eqb (S (length (map f a))) (S (length (map g b))))
    with (Nat.eqb (length (map f a)) (length (map g b))).
  now rewrite I1, I2.
Qed.

(** **** X14.
    On logits of one shape with at least one label, soft voting returns,
    for every example, a probability distribution: entries in (0, 1] that
    sum to 1. *)
Theorem soft_voting_distributions :
  forall logits1 logits2 : Glue.matrix,
    Glue.same_shape logits1 logits2 = true ->
    Forall (fun row => row <> []) logits1 ->
    exists out,
      Glue.soft_voting logits1 logits2 = Ok out /\
      length out = length logits1 /\
      Forall (fun row => Rsum row = 1 /\ Forall (fun p => 0 < p <= 1) row) out.
Proof.
  intros logits1 logits2 Hs Hne. unfold Glue.soft_voting.
  assert (Hs' : Glue.same_shape (Glue.softmax logits1) (Glue.softmax logits2)
                = true).
  { apply same_shape_map; [| |exact Hs]; intros r;
      unfold Glue.softmax_row; now rewrite length_map. }
  rewrite broadcast2_same_shape by exact Hs'. cbn [Py.bind].
  eexists. split; [reflexivity|].
  clear Hs'. unfold Glue.softmax. revert logits2 Hs.
  induction logits1 as [|r1 l1 IH]; intros [|r2 l2] Hs; try discriminate.
  - split; [reflexivity|constructor].
  - apply same_shape_cons in Hs. destruct Hs as [Hr Hs].
    apply Forall_cons_iff in Hne. destruct Hne as [Hr1 Hne].
    destruct (IH Hne l2 Hs) as (Hlen & Hall).
    cbn [map zip_with length]. split; [now rewrite Hlen|].
    constructor; [|exact Hall].
    assert (Hr2 : r2 <> []) by (destruct r1, r2; cbn in *; congruence).
    destruct (softmax_row_distribution r1 Hr1) as (S1 & P1).
    destruct (softmax_row_distribution r2 Hr2) as (S2 & P2).
    assert (Hl : length (Glue.softmax_row r1) = length (Glue.softmax_row r2))
      by (unfold Glue.softmax_row; now rewrite !length_map).
    split.
    + rewrite (Rsum_map_div (fun x => x)), map_id, Rsum_zip_plus by exact Hl.
      rewrite S1, S2. field.
    + now apply Forall_half_sum.
Qed.

(** ** GatedMixtureOfExperts *)

Lemma mapM_ok {A B : Type} (F : A -> result B) (G : A -> B) (l : list A) :
  (forall x, In x l -> F x = Ok (G x)) -> Glue.mapM F l = Ok (map G l).
Proof.
  induction l as [|x l IH]; intros H; [reflexivity|].
  cbn [Glue.mapM map]. rewrite (H x (or_introl eq_refl)). cbn [Py.bind].
  rewrite IH by (intros y Hy; apply H; now right). reflexivity.
Qed.

Lemma zip_with_maps {A B C D : Type} (f : B -> C -> D) (a : A -> B)
    (b : A -> C) (l : list A) :
  zip_with f (map a l) (map b l) = map (fun p => f (a p) (b p)) l.
Proof.
  induction l as [|x l IH]; [reflexivity|]. cbn [map zip_with].
  now rewrite IH.
Qed.

(** A binary operator on two tensors that are given row by row over one
    list. *)
Lemma broadcast2_maps {A : Type} (f : R -> R -> R) (a b : A -> list R)
    (G : A -> list R) (l : list A) :
  (forall p, In p l -> broadcast f (a p) (b p) = Ok (G p)) ->
  Glue.broadcast2 f (map a l) (map b l) = Ok (map G l).
Proof.
  intros H. unfold Glue.broadcast2.
  rewrite broadcast_same by now rewrite !length_map.
  cbn [Glue.size_error Py.bind]. rewrite zip_with_maps.
  induction l as [|p l IH]; [reflexivity|].
  cbn [map Glue.mapM fst snd]. rewrite (H p (or_introl eq_refl)).
  cbn [Glue.size_error Py.bind].
  rewrite IH by (intros q Hq; apply H; now right).
  reflexivity.
Qed.

Lemma mapM_map {A B C : Type} (F : B -> result C) (h : A -> B) (l : list A) :
  Glue.mapM F (map h l) = Glue.mapM (fun p => F (h p)) l.
Proof.
  induction l as [|x l IH]; [reflexivity|]. cbn [map Glue.mapM].
  now rewrite IH.
Qed.

(** Two tensors of one shape, as the list of their pairs of rows. *)
Lemma same_shape_pairs (a b : Glue.matrix) :
  Glue.same_shape a b = true ->
  a = map fst (combine a b) /\ b = map snd (combine a b) /\
  Forall (fun p => length (fst p) = length (snd p)) (combine a b).
Proof.
  revert b. induction a as [|r1 a IH]; intros [|r2 b] Hs; try discriminate.
  - repeat split. constructor.
  - apply same_shape_cons in Hs. destruct Hs as [Hr Hs].
    destruct (IH b Hs) as (Ea & Eb & Hall).
    cbn [combine map fst snd]. repeat split; [congruence|congruence|].
    now constructor.
Qed.

Lemma broadcast_scalar_right (f : R -> R -> R) (r : list R) (c : R) :
  broadcast f r [c] = Ok (map (fun x => f x c) r).
Proof.
  destruct (Nat.eq_dec (length r) 1) as [E|E].
  - destruct r as [|x [|? ?]]; try discriminate. reflexivity.
  - now apply broadcast_singleton_right.
Qed.

Lemma zip_gated (g0 g1 : R) (r1 r2 : list R) :
  g1 = 1 - g0 ->
  zip_with Rplus (map (fun x => x * g0) r1) (map (fun x => x * g1) r2)
  = mix_rows g0 r1 r2.
Proof.
  intros ->. unfold mix_rows. revert r2.
  induction r1 as [|x r1 IH]; intros [|y r2]; cbn [map zip_with];
    try reflexivity.
  rewrite IH. f_equal. ring.
Qed.

Lemma softmax_gate_range (z0 z1 : R) :
  0 < exp z0 / Rsum (map exp [z0; z1]) < 1 /\
  exp z1 / Rsum (map exp [z0; z1]) = 1 - exp z0 / Rsum (map exp [z0; z1]).
Proof.
  unfold Rsum. cbn [map fold_right].
  pose proof (exp_pos z0) as H0. pose proof (exp_pos z1) as H1.
  assert (Hs : 0 < exp z0 + (exp z1 + 0)) by lra.
  split; [split|].
  - now apply Rdiv_lt_0_compat.
  - apply (Rmult_lt_reg_r (exp z0 + (exp z1 + 0))); [exact Hs|].
    unfold Rdiv. rewrite Rmult_assoc, Rinv_l by lra. lra.
  - field. lra.
Qed.

(** **** X15.
    For member logits of one shape [B, C] and a gate over [2 * C] inputs,
    the gated mixture returns, for every example, the combination
    [g * logits1 + (1 - g) * logits2] of the two members' rows, with a gate
    [g] of that example strictly between 0 and 1: every combined logit lies
    between the two member logits. *)
Theorem gated_mixture_is_convex :
  forall (d : nat) (w0 w1 : list R) (b0 b1 : R)
         (logits1 logits2 : Glue.matrix),
    Glue.same_shape logits1 logits2 = true ->
    Forall (fun row => (2 * length row)%nat = d) logits1 ->
    exists out,
      Glue.GatedMixtureOfExperts_forward
        (Glue.mk_moe (Glue.mk_linear d [w0; w1] [b0; b1])) logits1 logits2
      = Ok out /\
      mixed logits1 logits2 out.
Proof.
  intros d w0 w1 b0 b1 logits1 logits2 Hs Hd.
  pose proof (same_shape_length _ _ Hs) as Hl.
  destruct (same_shape_pairs logits1 logits2 Hs) as (E1 & E2 & Hlen).
  set (ps := combine logits1 logits2) in *. clearbody ps.
  rewrite Forall_forall in Hlen.
  assert (Hd' : forall p, In p ps -> (2 * length (fst p))%nat = d).
  { rewrite E1, Forall_map, Forall_forall in Hd. exact Hd. }
  pose (z0 := fun p : list R * list R => Glue.dot (fst p ++ snd p) w0 + b0).
  pose (z1 := fun p : list R * list R => Glue.dot (fst p ++ snd p) w1 + b1).
  pose (g0 := fun p => exp (z0 p) / Rsum (map exp [z0 p; z1 p])).
  pose (g1 := fun p => exp (z1 p) / Rsum (map exp [z0 p; z1 p])).
  unfold Glue.GatedMixtureOfExperts_forward, Glue.cat_columns.
  rewrite Hl, Nat.eqb_refl. cbn [Py.bind Glue.gate].
  rewrite E1, E2. clear E1 E2 Hs Hd Hl logits1 logits2.
  rewrite zip_with_maps.
  unfold Glue.Linear_forward. cbn [Glue.in_features Glue.weight Glue.bias].
  rewrite mapM_map. rewrite (mapM_ok _ (fun p => [z0 p; z1 p])).
  2:{ intros p Hp. rewrite length_app, <- (Hlen p Hp).
      replace (length (fst p) + length (fst p))%nat with d
        by (rewrite <- (Hd' p Hp); lia).
      now rewrite Nat.eqb_refl. }
  cbn [Py.bind]. unfold Glue.softmax, Glue.columns. rewrite !map_map.
  rewrite (broadcast2_maps Rmult fst _
             (fun p => map (fun x => x * g0 p) (fst p))).
  2:{ intros p _. apply broadcast_scalar_right. }
  cbn [Py.bind].
  rewrite (broadcast2_maps Rmult snd _
             (fun p => map (fun x => x * g1 p) (snd p))).
  2:{ intros p _. apply broadcast_scalar_right. }
  cbn [Py.bind].
  rewrite (broadcast2_maps Rplus _ _
             (fun p => mix_rows (g0 p) (fst p) (snd p))).
  2:{ intros p Hp. rewrite broadcast_same by (rewrite !length_map; auto).
      f_equal. apply zip_gated. apply softmax_gate_range. }
  eexists. split; [reflexivity|].
  clear Hlen Hd'. induction ps as [|p ps IH]; cbn [map]; constructor.
  - apply softmax_gate_range.
  - exact IH.
Qed.

(** ** get_gradient_norm *)

Lemma gradient_norm_fold (gs : list (option (list R))) (acc : R) :
  fold_left (fun total g =>
               match g with
               | None => total
               | Some t => fadd total (fmul (norm t) (norm t))
               end)
    (map (option_map of_reals) gs) (Fin acc)
  = Fin (acc + Rsum (map (fun x => x * x) (concat (non_null gs)))).
Proof.
  revert acc. induction gs as [|[g|] gs IH]; intros acc;
    cbn [map option_map fold_left non_null concat].
  - f_equal. unfold Rsum. cbn. lra.
  - rewrite norm_of_reals. cbn [fmul fadd lift2]. rewrite IH. f_equal.
    rewrite map_app, Rsum_app. unfold l2_norm.
    rewrite sqrt_sqrt by apply Rsum_squares_nonneg. ring.
  - apply IH.
Qed.

(** **** X16.
    On real-valued gradients, [get_gradient_norm] is the L2 norm of all
    entries of all gradients taken together; parameters without gradient
    are skipped. *)
Theorem get_gradient_norm_is_global_norm :
  forall gs : list (option (list R)),
    Glue.get_gradient_norm (map (option_map of_reals) gs)
    = Fin (l2_norm (concat (non_null gs))).
Proof.
  intros gs. unfold Glue.get_gradient_norm. rewrite gradient_norm_fold.
  unfold fsqrt, l2_norm. rewrite Rplus_0_l.
  pose proof (Rsum_squares_nonneg (concat (non_null gs))) as Hpos.
  destruct (Rlt_dec _ 0) as [Hneg|_]; [lra|reflexivity].
Qed.

(** ** [compute_with_retry] makes one call *)

(** **** X17.
    [compute_with_retry] never sleeps and never calls [metric.compute()] a
    second time: its outcome is fixed by the first call alone, whatever the
    later calls would return, the jitter and the initial wait. *)
Theorem compute_with_retry_first_call_decides :
  forall (A : Type) (compute compute' : nat -> Glue.outcome A)
         (uniform uniform' : nat -> R) (max_retries : nat)
         (initial_wait initial_wait' : R),
    compute 0%nat = compute' 0%nat ->
    Glue.compute_with_retry compute uniform max_retries initial_wait
    = Glue.compute_with_retry compute' uniform' max_retries initial_wait' /\
    snd (Glue.compute_with_retry compute uniform max_retries initial_wait)
    = [].
Proof.
  intros A compute compute' uniform uniform' max_retries initial_wait
    initial_wait' H0.
  unfold Glue.compute_with_retry. destruct max_retries as [|n].
  - split; reflexivity.
  - cbn [seq]. rewrite !retry_loop_first_attempt, H0. split; reflexivity.
Qed.

(** ** The training loop of [main]: bounds and counts *)

(** **** X18.
    Started below [max_train_steps], the loop over the batches of an epoch
    never lets [completed_steps] exceed [max_train_steps], and never
    decreases it. *)
Theorem train_batches_respects_max_train_steps :
  forall (G : Z) (len_train : nat) (max_train_steps : Z) (steps : list nat)
         (s : Glue.loop_state),
    G <> 0%Z ->
    (Glue.completed_steps s < max_train_steps)%Z ->
    exists s',
      Glue.train_batches G len_train max_train_steps None steps s = Ok s' /\
      (Glue.completed_steps s <= Glue.completed_steps s' <= max_train_steps)%Z.
Proof.
  intros G len_train max_train_steps steps s HG. apply Z.eqb_neq in HG.
  revert s. induction steps as [|step rest IH]; intros s Hlt.
  - exists s. split; [reflexivity|lia].
  - cbn [Glue.train_batches]. rewrite HG.
    set (s1 := if (_ || _)%bool then _ else _).
    assert (Hs1 : (Glue.completed_steps s <= Glue.completed_steps s1
                   <= Glue.completed_steps s + 1)%Z).
    { unfold s1. destruct (_ || _)%bool; cbn [Glue.completed_steps]; lia. }
    destruct (Z.leb_spec max_train_steps (Glue.completed_steps s1)) as [Hge|Hlt1].
    + exists s1. split; [reflexivity|lia].
    + destruct (IH s1 Hlt1) as (s' & E & Hb). exists s'. split; [exact E|lia].
Qed.

Lemma train_batches_consumed (G : Z) (len_train : nat) (max_train_steps : Z) :
  (0 < G)%Z ->
  forall n a s,
    (1 <= a)%nat -> (a + n <= len_train)%nat ->
    (n = 0%nat \/
     Z.of_nat (Glue.accumulated s) = ((Z.of_nat a - 1) mod G)%Z) ->
    Forall (fun e => (1 <= snd e)%nat /\ (Z.of_nat (snd e) <= G)%Z)
      (Glue.optimizer_log s) ->
    exists s',
      Glue.train_batches G len_train max_train_steps None (seq a n) s = Ok s' /\
      Forall (fun e => (1 <= snd e)%nat /\ (Z.of_nat (snd e) <= G)%Z)
        (Glue.optimizer_log s').
Proof.
  intros HG. induction n as [|n IH]; intros a s Ha Hlen Hacc Hlog.
  - exists s. now split.
  - destruct Hacc as [Hacc|Hacc]; [discriminate|].
    cbn [seq Glue.train_batches].
    rewrite (proj2 (Z.eqb_neq G 0) ltac:(lia)).
    pose proof (Z.mod_pos_bound (Z.of_nat a - 1) G HG) as Hr.
    set (s1 := if (_ || _)%bool then _ else _).
    assert (Hs1 : Forall (fun e => (1 <= snd e)%nat /\ (Z.of_nat (snd e) <= G)%Z)
                    (Glue.optimizer_log s1) /\
                  (n = 0%nat \/
                   Z.of_nat (Glue.accumulated s1)
                   = ((Z.of_nat (S a) - 1) mod G)%Z)).
    { unfold s1.
      replace (Z.of_nat (S a) - 1)%Z with (Z.of_nat a - 1 + 1)%Z by lia.
      destruct (Z.eqb_spec (Z.of_nat a mod G) 0) as [Hm|Hm];
        [|destruct (Z.eqb_spec (Z.of_nat a) (Z.of_nat len_train - 1))
            as [Hl|Hl]];
        cbn [orb Glue.optimizer_log Glue.accumulated].
      - split.
        + apply Forall_app. split; [exact Hlog|].
          constructor; [|constructor]. cbn [snd]. lia.
        + right. replace (Z.of_nat a - 1 + 1)%Z with (Z.of_nat a) by lia.
          now rewrite Hm.
      - split.
        + apply Forall_app. split; [exact Hlog|].
          constructor; [|constructor]. cbn [snd]. lia.
        + left. lia.
      - split; [exact Hlog|]. right.
        rewrite mod_succ; [lia|exact HG|].
        now replace (Z.of_nat a - 1 + 1)%Z with (Z.of_nat a) by lia. }
    destruct Hs1 as [Hlog1 Hacc1].
    destruct (max_train_steps <=? Glue.completed_steps s1)%Z.
    + exists s1. now split.
    + apply IH; try assumption; lia.
Qed.

(** **** X19.
    In an epoch of [main] with a positive accumulation length, started
    with no pending micro-batch, every optimizer step consumes at least 1
    and at most [gradient_accumulation_steps] micro-batches. *)
Theorem optimizer_steps_consume_bounded :
  forall (G : Z) (len_train : nat) (max_train_steps completed : Z),
    (0 < G)%Z ->
    exists s',
      Glue.train_epoch G len_train max_train_steps None
        (Glue.mk_loop 0 completed [])
      = Ok s' /\
      Forall (fun e => (1 <= snd e)%nat /\ (Z.of_nat (snd e) <= G)%Z)
        (Glue.optimizer_log s').
Proof.
  intros G len_train max_train_steps completed HG. unfold Glue.train_epoch.
  destruct len_train as [|len].
  - exists (Glue.mk_loop 0 completed []). split; [reflexivity|constructor].
  - cbn [seq Glue.train_batches].
    rewrite (proj2 (Z.eqb_neq G 0) ltac:(lia)), Zmod_0_l.
    cbn [Z.eqb orb Glue.accumulated Glue.completed_steps Glue.optimizer_log
         app].
    set (s1 := Glue.mk_loop 0 (completed + 1) [(0%nat, 1%nat)]).
    assert (Hlog1 : Forall (fun e => (1 <= snd e)%nat /\ (Z.of_nat (snd e) <= G)%Z)
                      (Glue.optimizer_log s1)).
    { constructor; [|constructor]. cbn [snd]. lia. }
    destruct (max_train_steps <=? completed + 1)%Z.
    + exists s1. now split.
    + apply (train_batches_consumed G (S len) max_train_steps HG len 1 s1);
        [lia|lia| |exact Hlog1].
      right. cbn [s1 Glue.accumulated]. change (Z.of_nat 1 - 1)%Z with 0%Z.
      now rewrite Zmod_0_l.
Qed.


Lemma ceil_positive (a G : Z) :
  (0 < G)%Z -> (- ((- a) / G) = (a - 1) / G + 1)%Z.
Proof.
  intros HG.
  pose proof (Z.div_mod (a - 1) G ltac:(lia)) as Ha.
  pose proof (Z.mod_pos_bound (a - 1) G HG) as Hr.
  assert (H : (- ((a - 1) / G) - 1 = (- a) / G)%Z).
  { apply (Z.div_unique_pos (- a) G _ (G - 1 - (a - 1) mod G)); lia. }
  lia.
Qed.



(** ** The plan of the training steps and the resumption of a run *)

Lemma ceil_div_bounds (a b : Z) :
  (0 < b)%Z ->
  Glue.ceil_div a b = Ok (- ((- a) / b))%Z /\
  ((- ((- a) / b) - 1) * b < a <= - ((- a) / b) * b)%Z.
Proof.
  intros Hb. unfold Glue.ceil_div.
  rewrite (proj2 (Z.eqb_neq b 0) ltac:(lia)). split; [reflexivity|].
  pose proof (Z.div_mod (- a) b ltac:(lia)) as Ha.
  pose proof (Z.mod_pos_bound (- a) b Hb) as Hr. nia.
Qed.

(** **** X21.
    With a positive accumulation length and a non-empty prepared
    dataloader, [main] raises nothing while planning the training; the
    number of epochs it ends with is the least whose planned optimizer
    steps reach [max_train_steps], and when [max_train_steps] was not given
    the number of epochs is left as it was. *)
Theorem plan_training_epochs :
  forall (len_before len_after : nat) (G : Z) (max_train_steps : option Z)
         (num_train_epochs : Z),
    (0 < G)%Z -> (1 <= len_after)%nat ->
    exists per_epoch max_steps epochs,
      Glue.num_update_steps_per_epoch len_after G = Ok per_epoch /\
      Glue.plan_training len_before len_after G max_train_steps
        num_train_epochs
      = Ok (max_steps, epochs) /\
      ((epochs - 1) * per_epoch < max_steps <= epochs * per_epoch)%Z /\
      match max_train_steps with
      | None =>
          max_steps = (num_train_epochs * per_epoch)%Z /\
          epochs = num_train_epochs
      | Some m => max_steps = m
      end.
Proof.
  intros len_before len_after G max_train_steps num_train_epochs HG Hlen.
  unfold Glue.num_update_steps_per_epoch, Glue.plan_training.
  rewrite (proj2 (Z.eqb_neq G 0) ltac:(lia)).
  destruct (ceil_div_bounds (Z.of_nat len_before) G HG) as [E0 _].
  destruct (ceil_div_bounds (Z.of_nat len_after) G HG) as [E1 _].
  rewrite E0, E1. cbn [Py.bind].
  set (u := (- (- Z.of_nat len_after / G))%Z).
  assert (Hu : (0 < u)%Z).
  { unfold u. rewrite (ceil_positive _ G HG).
    assert (0 <= (Z.of_nat len_after - 1) / G)%Z by (apply Z.div_pos; lia).
    lia. }
  destruct max_train_steps as [m|]; cbn [Py.bind].
  - destruct (ceil_div_bounds m u Hu) as [E2 B2]. rewrite E2. cbn [Py.bind].
    exists u, m, (- (- m / u))%Z.
    split; [reflexivity|]. split; [reflexivity|]. split; [exact B2|reflexivity].
  - destruct (ceil_div_bounds (num_train_epochs * u) u Hu) as [E2 B2].
    rewrite E2. cbn [Py.bind].
    assert (He : (- (- (num_train_epochs * u) / u) = num_train_epochs)%Z).
    { replace (- (num_train_epochs * u))%Z with ((- num_train_epochs) * u)%Z
        by ring.
      rewrite Z.div_mul by lia. lia. }
    rewrite He in *.
    exists u, (num_train_epochs * u)%Z, num_train_epochs.
    split; [reflexivity|]. split; [reflexivity|]. split; [exact B2|].
    split; reflexivity.
Qed.

(** **** X22.
    Resuming from a checkpoint [step_N] restores [completed_steps = N] and
    places the run at the micro-batch [N * gradient_accumulation_steps],
    counted through whole epochs: the batch to resume at lies inside the
    dataloader.  An empty dataloader raises [ZeroDivisionError]. *)
Theorem resume_from_step_checkpoint :
  forall (N G len_train per_epoch : Z),
    G <> 0%Z -> (0 <= len_train)%Z ->
    match Glue.resume_from (Glue.step_checkpoint N) G len_train per_epoch with
    | Ok r =>
        (0 < len_train)%Z /\
        Glue.resumed_completed_steps r = N /\
        exists step,
          Glue.resume_step r = Some step /\
          (0 <= step < len_train)%Z /\
          (Glue.starting_epoch r * len_train + step = N * G)%Z
    | Raise e => len_train = 0%Z /\ Py.cls e = Py.ZeroDivisionError
    end.
Proof.
  intros N G len_train per_epoch HG Hlen. unfold Glue.resume_from.
  destruct (Z.eqb_spec len_train 0) as [Hz|Hnz].
  - split; [exact Hz|reflexivity].
  - rewrite (proj2 (Z.eqb_neq G 0) HG).
    cbn [Glue.resumed_completed_steps Glue.resume_step Glue.starting_epoch].
    split; [lia|]. split; [now apply Z.div_mul|].
    eexists. split; [reflexivity|].
    pose proof (Z.div_mod (N * G) len_train Hnz) as Hd.
    pose proof (Z.mod_pos_bound (N * G) len_train ltac:(lia)) as Hr.
    split; nia.
Qed.

(** ** fix_jsons.py *)

Lemma ends_with_longer (c d e : ascii) (s : string) :
  String.eqb (String c EmptyString) (String d (String e s)) = false.
Proof. cbn. now destruct (Ascii.eqb c d). Qed.

Lemma rstrip_spec (c : ascii) (s : string) :
  exists k,
    s = (Jsons.rstrip c s ++ copies k c)%string /\
    Jsons.ends_with (String c EmptyString) (Jsons.rstrip c s) = false.
Proof.
  induction s as [|d s IH].
  - exists 0%nat. split; reflexivity.
  - destruct IH as (k & Es & En). cbn [Jsons.rstrip].
    destruct (Jsons.rstrip c s) as [|e r] eqn:Er.
    + destruct (Ascii.eqb_spec c d) as [->|Hcd].
      * exists (S k). split; [|reflexivity].
        cbn [String.append copies] in *. now rewrite Es at 1.
      * exists k. split.
        { cbn [String.append] in *. now rewrite Es at 1. }
        cbn [Jsons.ends_with]. cbn [String.eqb].
        rewrite (proj2 (Ascii.eqb_neq c d) Hcd). reflexivity.
    + exists k. split.
      * cbn [String.append] in *. now rewrite Es at 1.
      * cbn [Jsons.ends_with]. rewrite ends_with_longer.
        cbn [orb]. exact En.
Qed.

(** **** X23.
    The content that [check_and_fix_json_files] writes back is the content
    read without ALL of its trailing closing braces, of which there is at
    least one: the fixed file never ends with a closing brace. *)
Theorem fixed_content_drops_every_trailing_brace :
  forall (content out : string),
    Jsons.fixed_content content = Some out ->
    Jsons.ends_with "}" out = false /\
    exists k, (1 <= k)%nat /\ content = (out ++ copies k "}"%char)%string.
Proof.
  intros content out H. unfold Jsons.fixed_content in H.
  destruct (Jsons.ends_with "}" content) eqn:Ee; [|discriminate].
  destruct (Nat.ltb _ _); [|discriminate].
  cbn [andb] in H. injection H as <-.
  destruct (rstrip_spec "}"%char content) as (k & Es & En).
  split; [exact En|].
  exists k. split; [|exact Es].
  destruct k as [|k]; [|lia].
  cbn [copies] in Es.
  assert (Hs : Jsons.rstrip "}" content = content).
  { rewrite Es at 2. clear. induction (Jsons.rstrip "}" content) as [|a s IH];
      [reflexivity|]. cbn [String.append]. now rewrite <- IH. }
  rewrite Hs in En. congruence.
Qed.

(** ** WeightedSum *)

(** **** X24.
    With the weights [0.5, 0.5] that its constructor sets, [WeightedSum]
    returns the arithmetic mean of the two members' logits, which is also
    what [AdaBoostCombiner] returns with its initial log-weights. *)
Theorem weighted_sum_initially_the_mean :
  forall logits1 logits2 : Glue.matrix,
    Glue.same_shape logits1 logits2 = true ->
    Glue.WeightedSum_forward Glue.WeightedSum_init logits1 logits2
    = Ok (mean_logits logits1 logits2) /\
    Glue.WeightedSum_forward Glue.WeightedSum_init logits1 logits2
    = Glue.AdaBoostCombiner_forward Glue.AdaBoostCombiner_init logits1 logits2.
Proof.
  intros logits1 logits2 Hs.
  assert (E : Glue.WeightedSum_forward Glue.WeightedSum_init logits1 logits2
              = Ok (mean_logits logits1 logits2)).
  { unfold Glue.WeightedSum_forward, Glue.WeightedSum_init.
    cbn [Glue.ws_weights Glue.index nth_error Py.bind].
    rewrite broadcast2_same_shape by now apply same_shape_scale.
    apply f_equal. unfold mean_logits. apply sum_scaled.
    intros x y. field. }
  split; [exact E|]. rewrite E. symmetry.
  unfold Glue.AdaBoostCombiner_init, mean_logits.
  apply adaboost_forward_same_shape; [exact Hs|].
  intros x y. rewrite exp_0. field.
Qed.

(** ** Instances of the further properties *)

Lemma example_env_real_valued : real_valued example_env.
Proof.
  intros epoch i. exists (repeat 1 (shape i)).
  unfold of_reals. now rewrite map_repeat.
Defined.

Lemma compute_variance_online_shape_or_type_error_witness :
  Forall (fun x : tensor => length x = 1%nat) [[Fin 1]; [NaN]] /\
  exists v,
    Agni.compute_variance_online [[Fin 1]; [NaN]] = Ok v /\ length v = 1%nat.
Proof.
  assert (H : Forall (fun x : tensor => length x = 1%nat) [[Fin 1]; [NaN]])
    by (repeat constructor).
  split; [exact H|].
  exact (compute_variance_online_shape_or_type_error 1 [[Fin 1]; [NaN]] H).
Defined.

Lemma compute_variance_online_nonnegative_witness :
  [[1]; [3]] <> [] /\
  Forall (fun x : list R => length x = 1%nat) [[1]; [3]] /\
  exists v : list R,
    Agni.compute_variance_online (map of_reals [[1]; [3]]) = Ok (of_reals v) /\
    length v = 1%nat /\ Forall (fun r => 0 <= r) v.
Proof.
  assert (H1 : [[1]; [3]] <> ([] : list (list R))) by discriminate.
  assert (H2 : Forall (fun x : list R => length x = 1%nat) [[1]; [3]])
    by (repeat constructor).
  split; [exact H1|]. split; [exact H2|].
  exact (compute_variance_online_nonnegative 1 [[1]; [3]] H1 H2).
Defined.

Lemma variance_then_injection_is_real_witness :
  0 <= 1 /\ [[1]; [3]] <> [] /\
  Forall (fun x : list R => length x = length [5]) [[1]; [3]] /\
  exists (variance : tensor) (g' : list R),
    Agni.compute_variance_online (map of_reals [[1]; [3]]) = Ok variance /\
    Agni.inject_noise 1 (fun _ => 1) (of_reals [5]) variance
    = Ok (of_reals g') /\
    length g' = length [5].
Proof.
  assert (H0 : 0 <= 1) by lra.
  assert (H1 : [[1]; [3]] <> ([] : list (list R))) by discriminate.
  assert (H2 : Forall (fun x : list R => length x = length [5]) [[1]; [3]])
    by (repeat constructor).
  split; [exact H0|]. split; [exact H1|]. split; [exact H2|].
  exact (variance_then_injection_is_real 1 (fun _ => 1) [5] [[1]; [3]]
           H0 H1 H2).
Defined.

Lemma identical_snapshots_give_no_noise_witness :
  length [1; 2] = length [3; 4] /\
  Agni.compute_variance_online (repeat (of_reals [1; 2]) 3)
  = Ok (zeros_like (of_reals [1; 2])) /\
  Agni.inject_noise 1 (fun _ => 1) (of_reals [3; 4])
    (zeros_like (of_reals [1; 2]))
  = Ok (of_reals [3; 4]).
Proof.
  split; [reflexivity|].
  exact (identical_snapshots_give_no_noise 1 (fun _ => 1) [1; 2] [3; 4] 2
           eq_refl).
Defined.

Lemma noise_injection_changes_nothing_witness :
  well_shaped example_env /\ real_valued example_env /\ 4%Z <> 0%Z /\
  Agni.run_experiment example_env true 8 4 (1 / 100)
  = Agni.run_experiment example_env false 8 4 (1 / 100).
Proof.
  assert (H : 4%Z <> 0%Z) by discriminate.
  split; [exact example_env_well_shaped|].
  split; [exact example_env_real_valued|]. split; [exact H|].
  destruct (noise_injection_changes_nothing example_env 4 (1 / 100) 8
              example_env_well_shaped example_env_real_valued H)
    as (s_noise & s_plain & _ & _ & _ & E).
  exact E.
Defined.

Lemma snapshots_reset_with_noise_witness :
  well_shaped example_env /\ (0 < 4)%Z /\
  exists s,
    Agni.run example_env true 6 4 (1 / 100) = Ok s /\
    Forall (fun p => Z.of_nat (length (Agni.snapshots p))
                     = (Z.of_nat 6 mod 4)%Z)
      (Agni.parameters s).
Proof.
  assert (H : (0 < 4)%Z) by lia.
  split; [exact example_env_well_shaped|]. split; [exact H|].
  exact (snapshots_reset_with_noise example_env 4 (1 / 100) 6
           example_env_well_shaped H).
Defined.

Lemma run_experiment_record_length_witness :
  well_shaped example_env /\ (0 < 4)%Z /\
  exists record,
    Agni.run_experiment example_env true 10 4 (1 / 100) = Ok record /\
    Z.of_nat (length record) = (Z.of_nat 10 / 4)%Z.
Proof.
  assert (H : (0 < 4)%Z) by lia.
  split; [exact example_env_well_shaped|]. split; [exact H|].
  exact (run_experiment_record_length example_env true 4 (1 / 100) 10
           example_env_well_shaped H).
Defined.

Lemma second_snapshot_of_other_size_witness :
  length [Fin 3] <> length [Fin 1; Fin 2] /\
  exists v,
    Agni.compute_variance_online [[Fin 1; Fin 2]; [Fin 3]] = Ok v /\
    length v = length [Fin 1; Fin 2].
Proof.
  assert (H : length [Fin 3] <> length [Fin 1; Fin 2]) by discriminate.
  split; [exact H|].
  exact (second_snapshot_of_other_size [Fin 1; Fin 2] [Fin 3] H).
Defined.

Lemma adaboost_shift_invariant_witness :
  Glue.same_shape [[1; 2]] [[3; 4]] = true /\
  Glue.AdaBoostCombiner_forward (Glue.mk_adaboost [0 + 1; 0 + 1])
    [[1; 2]] [[3; 4]]
  = Glue.AdaBoostCombiner_forward (Glue.mk_adaboost [0; 0])
      [[1; 2]] [[3; 4]].
Proof.
  split; [reflexivity|].
  exact (proj1 (adaboost_shift_invariant 0 0 1 [[1; 2]] [[3; 4]] eq_refl)).
Defined.

Lemma ensemble_forward_shape_errors_witness :
  Glue.same_shape [[1; 2]] [[1]] = false /\
  exists m,
    Glue.forward unit (fun _ _ => Ok NaN) (fun _ _ => Ok NaN)
      (fun _ _ => Ok NaN) (Glue.EnsembleModel_init 2 2 None)
      [Glue.mk_output unit [[1; 2]] tt; Glue.mk_output unit [[1]] tt] None
    = Raise (mk_exn RuntimeError m).
Proof.
  split; [reflexivity|].
  exact (proj1 (ensemble_forward_shape_errors unit (fun _ _ => Ok NaN)
                  (fun _ _ => Ok NaN) (fun _ _ => Ok NaN) 2 None
                  (Glue.mk_output unit [[1; 2]] tt)
                  (Glue.mk_output unit [[1]] tt) [] None eq_refl)).
Defined.

Lemma forward_caches_problem_type_witness :
  exists (self' : Glue.EnsembleModel) (out : Glue.forward_output unit),
    Glue.forward unit (fun _ _ => Ok (Fin 0)) (fun _ _ => Ok NaN)
      (fun _ _ => Ok NaN) (Glue.mk_ensemble [1] 1 None)
      [Glue.mk_output unit [[2]] tt] (Some (Glue.FloatLabels [[2]]))
    = Ok (self', out) /\
    Glue.config_problem_type self' = Some Glue.regression /\
    forall l', Glue.infer_problem_type self' l' = Glue.regression.
Proof.
  assert (H : { p : Glue.EnsembleModel * Glue.forward_output unit |
                Glue.forward unit (fun _ _ => Ok (Fin 0)) (fun _ _ => Ok NaN)
                  (fun _ _ => Ok NaN) (Glue.mk_ensemble [1] 1 None)
                  [Glue.mk_output unit [[2]] tt]
                  (Some (Glue.FloatLabels [[2]]))
                = Ok p }) by (eexists; reflexivity).
  destruct H as [[self' out] H]. exists self', out. split; [exact H|].
  destruct (forward_caches_problem_type unit _ _ _ _ _ _ _ _ H)
    as (E1 & _ & _ & E2).
  split; [exact E1|exact E2].
Defined.

Lemma soft_voting_distributions_witness :
  Glue.same_shape [[1; 2]] [[3; 4]] = true /\
  Forall (fun row : list R => row <> []) [[1; 2]] /\
  exists out,
    Glue.soft_voting [[1; 2]] [[3; 4]] = Ok out /\
    length out = length [[1; 2]] /\
    Forall (fun row => Rsum row = 1 /\ Forall (fun p => 0 < p <= 1) row) out.
Proof.
  assert (H : Forall (fun row : list R => row <> []) [[1; 2]])
    by (constructor; [discriminate|constructor]).
  split; [reflexivity|]. split; [exact H|].
  exact (soft_voting_distributions [[1; 2]] [[3; 4]] eq_refl H).
Defined.

Lemma gated_mixture_is_convex_witness :
  Glue.same_shape [[1; 2]] [[3; 4]] = true /\
  Forall (fun row : list R => (2 * length row)%nat = 4%nat) [[1; 2]] /\
  exists out,
    Glue.GatedMixtureOfExperts_forward
      (Glue.mk_moe (Glue.mk_linear 4 [[1; 0; 0; 0]; [0; 0; 1; 0]] [0; 0]))
      [[1; 2]] [[3; 4]]
    = Ok out /\
    mixed [[1; 2]] [[3; 4]] out.
Proof.
  assert (H : Forall (fun row : list R => (2 * length row)%nat = 4%nat)
                [[1; 2]]) by (repeat constructor).
  split; [reflexivity|]. split; [exact H|].
  exact (gated_mixture_is_convex 4 [1; 0; 0; 0] [0; 0; 1; 0] 0 0
           [[1; 2]] [[3; 4]] eq_refl H).
Defined.

Lemma compute_with_retry_first_call_decides_witness :
  flaky_metric 0%nat = flaky_metric 1%nat /\
  Glue.compute_with_retry flaky_metric (fun _ => 0) 10 1
  = Glue.compute_with_retry (fun _ => flaky_metric 1%nat) (fun _ => 1) 10 2 /\
  snd (Glue.compute_with_retry flaky_metric (fun _ => 0) 10 1) = [].
Proof.
  split; [reflexivity|].
  exact (compute_with_retry_first_call_decides nat flaky_metric
           (fun _ => flaky_metric 1%nat) (fun _ => 0) (fun _ => 1) 10 1 2
           eq_refl).
Defined.

Lemma train_batches_respects_max_train_steps_witness :
  4%Z <> 0%Z /\ (0 < 1)%Z /\
  exists s',
    Glue.train_batches 4 4 1 None (seq 0 4) (Glue.mk_loop 0 0 []) = Ok s' /\
    (0 <= Glue.completed_steps s' <= 1)%Z.
Proof.
  assert (H1 : 4%Z <> 0%Z) by discriminate.
  assert (H2 : (0 < 1)%Z) by lia.
  split; [exact H1|]. split; [exact H2|].
  exact (train_batches_respects_max_train_steps 4 4 1 (seq 0 4)
           (Glue.mk_loop 0 0 []) H1 H2).
Defined.

Lemma optimizer_steps_consume_bounded_witness :
  (0 < 4)%Z /\
  exists s',
    Glue.train_epoch 4 6 100 None (Glue.mk_loop 0 0 []) = Ok s' /\
    Forall (fun e => (1 <= snd e)%nat /\ (Z.of_nat (snd e) <= 4)%Z)
      (Glue.optimizer_log s').
Proof.
  assert (H : (0 < 4)%Z) by lia.
  split; [exact H|].
  exact (optimizer_steps_consume_bounded 4 6 100 0 H).
Defined.


Lemma plan_training_epochs_witness :
  (0 < 4)%Z /\ (1 <= 10)%nat /\
  exists per_epoch max_steps epochs,
    Glue.num_update_steps_per_epoch 10 4 = Ok per_epoch /\
    Glue.plan_training 10 10 4 (Some 7%Z) 3 = Ok (max_steps, epochs) /\
    ((epochs - 1) * per_epoch < max_steps <= epochs * per_epoch)%Z /\
    max_steps = 7%Z.
Proof.
  assert (H1 : (0 < 4)%Z) by lia.
  assert (H2 : (1 <= 10)%nat) by lia.
  split; [exact H1|]. split; [exact H2|].
  exact (plan_training_epochs 10 10 4 (Some 7%Z) 3 H1 H2).
Defined.

Lemma resume_from_step_checkpoint_witness :
  4%Z <> 0%Z /\ (0 <= 5)%Z /\
  match Glue.resume_from (Glue.step_checkpoint 3) 4 5 2 with
  | Ok r =>
      (0 < 5)%Z /\
      Glue.resumed_completed_steps r = 3%Z /\
      exists step,
        Glue.resume_step r = Some step /\
        (0 <= step < 5)%Z /\
        (Glue.starting_epoch r * 5 + step = 3 * 4)%Z
  | Raise e => 5%Z = 0%Z /\ Py.cls e = Py.ZeroDivisionError
  end.
Proof.
  assert (H1 : 4%Z <> 0%Z) by discriminate.
  assert (H2 : (0 <= 5)%Z) by lia.
  split; [exact H1|]. split; [exact H2|].
  exact (resume_from_step_checkpoint 3 4 5 2 H1 H2).
Defined.

Lemma fixed_content_drops_every_trailing_brace_witness :
  Jsons.fixed_content "{}}" = Some "{" /\
  Jsons.ends_with "}" "{" = false /\
  exists k, (1 <= k)%nat /\ "{}}" = ("{" ++ copies k "}"%char)%string.
Proof.
  split; [reflexivity|].
  exact (fixed_content_drops_every_trailing_brace "{}}" "{" eq_refl).
Defined.

Lemma weighted_sum_initially_the_mean_witness :
  Glue.same_shape [[1; 2]] [[3; 4]] = true /\
  Glue.WeightedSum_forward Glue.WeightedSum_init [[1; 2]] [[3; 4]]
  = Ok (mean_logits [[1; 2]] [[3; 4]]).
Proof.
  split; [reflexivity|].
  exact (proj1 (weighted_sum_initially_the_mean [[1; 2]] [[3; 4]] eq_refl)).
Defined.
